(** * Client-side scripts of the MLC site: a shallow embedding

    The repository holds three browser scripts:
    - the partial includer (header and footer fragments, [js/includes.js]),
    - the GitHub statistics loader ([js/github-stats.js]),
    - the blog loader ([BlogLoader], second half of [js/includes.js]).

    JavaScript strings are embedded as [string]: a character stands for one
    code unit in the range 0..255.  Numbers that the scripts only use as
    integers are embedded as [Z]; the two quotients of [formatNumber] are
    binary64 values ([spec_float], precision 53).  The browser (network, DOM
    parser, [Date]) is an explicit argument of every function that uses it. *)

From Stdlib Require Import ZArith List String Ascii Bool Lia Arith.
From Stdlib Require Import DecimalString Permutation Sorted.
From Stdlib Require Import Floats.SpecFloat.
From Equations Require Import Equations.
Import ListNotations.

Set Implicit Arguments.

(* ===================================================================== *)
(** ** JavaScript strings *)
(* ===================================================================== *)

Module JS.

Local Open Scope string_scope.
Local Open Scope nat_scope.

(** [\s] on the code units 0..255: TAB, LF, VT, FF, CR, space, NBSP. *)
Definition is_space (c : ascii) : bool :=
  let n := nat_of_ascii c in
  ((9 <=? n) && (n <=? 13)) || (n =? 32) || (n =? 160).

(** [\d] *)
Definition is_digit (c : ascii) : bool :=
  let n := nat_of_ascii c in (48 <=? n) && (n <=? 57).

(** [\w] is [A-Za-z0-9_]. *)
Definition is_word (c : ascii) : bool :=
  let n := nat_of_ascii c in
  ((65 <=? n) && (n <=? 90)) || ((97 <=? n) && (n <=? 122))
  || is_digit c || (n =? 95).

Definition is_slash (c : ascii) : bool := Ascii.eqb c "/"%char.

(** [String.prototype.toLowerCase] on the code units 0..255: A-Z, and the
    Latin-1 capitals 192..222 apart from the multiplication sign 215. *)
Definition lower_char (c : ascii) : ascii :=
  let n := nat_of_ascii c in
  if ((65 <=? n) && (n <=? 90))
     || ((192 <=? n) && (n <=? 222) && negb (n =? 215))
  then ascii_of_nat (n + 32) else c.

Fixpoint toLowerCase (s : string) : string :=
  match s with
  | EmptyString => EmptyString
  | String c t => String (lower_char c) (toLowerCase t)
  end.

(** [String.prototype.toUpperCase] on ASCII text (the loader upper-cases
    the first letter of a category name). *)
Definition upper_char (c : ascii) : ascii :=
  let n := nat_of_ascii c in
  if (97 <=? n) && (n <=? 122) then ascii_of_nat (n - 32) else c.

Fixpoint toUpperCase (s : string) : string :=
  match s with
  | EmptyString => EmptyString
  | String c t => String (upper_char c) (toUpperCase t)
  end.

Definition startsWith (s p : string) : bool := prefix p s.

(** [s.includes(needle)] *)
Fixpoint includes (s needle : string) : bool :=
  prefix needle s
  || match s with
     | EmptyString => false
     | String _ t => includes t needle
     end.

(** [s.substring(0, n)] *)
Definition take (n : nat) (s : string) : string := substring 0 n s.

(** [s.slice(n)] / [s.substring(n)] for [0 <= n] *)
Fixpoint drop (n : nat) (s : string) : string :=
  match n, s with
  | O, _ => s
  | S n', String _ t => drop n' t
  | S _, EmptyString => EmptyString
  end.

Definition endsWith (s suffix : string) : bool :=
  (length suffix <=? length s)
  && String.eqb (drop (length s - length suffix) s) suffix.

Fixpoint trimStart (s : string) : string :=
  match s with
  | String c t => if is_space c then trimStart t else s
  | EmptyString => EmptyString
  end.

Fixpoint trimEnd (s : string) : string :=
  match s with
  | EmptyString => EmptyString
  | String c t =>
      let t' := trimEnd t in
      if is_space c && String.eqb t' "" then "" else String c t'
  end.

Definition trim (s : string) : string := trimEnd (trimStart s).

(** [s.padStart(2, '0')] *)
Definition padStart2 (s : string) : string :=
  match length s with
  | 0 => "00"
  | 1 => "0" ++ s
  | _ => s
  end.

(** [s.replace(',', '')]: a string pattern replaces the first occurrence only. *)
Fixpoint remove_first_comma (s : string) : string :=
  match s with
  | EmptyString => EmptyString
  | String c t => if Ascii.eqb c ","%char then t else String c (remove_first_comma t)
  end.

(** [s.split(/\s+/)]: the pieces between maximal runs of white space; a
    string that starts (ends) with white space has an empty first (last)
    piece, and the empty string splits into one empty piece. *)
Fixpoint split_ws_from (in_ws : bool) (cur s : string) : list string :=
  match s with
  | EmptyString => [cur]
  | String c t =>
      if is_space c
      then if in_ws then split_ws_from true cur t
           else cur :: split_ws_from true "" t
      else split_ws_from false (cur ++ String c "") t
  end.

Definition split_ws (s : string) : list string := split_ws_from false "" s.

(** [s.split(sep)] for a one-character string separator. *)
Fixpoint split_char_from (sep : ascii) (cur s : string) : list string :=
  match s with
  | EmptyString => [cur]
  | String c t =>
      if Ascii.eqb c sep then cur :: split_char_from sep "" t
      else split_char_from sep (cur ++ String c "") t
  end.

Definition split_char (sep : ascii) (s : string) : list string :=
  split_char_from sep "" s.

(** [arr.join('')] *)
Definition join (l : list string) : string := fold_right append "" l.

(** [String(n)] / [n.toString()] of an integer. *)
Definition Z_to_string (z : Z) : string := NilEmpty.string_of_int (Z.to_int z).

(** A value that may be [null] / [undefined] is an [option]; both are falsy,
    and so is the empty string. *)
Definition truthy (v : option string) : bool :=
  match v with
  | Some s => negb (String.eqb s "")
  | None => false
  end.

(** [a || b] on such values. *)
Definition or_else (a b : option string) : option string :=
  if truthy a then a else b.

(** *** Regular expressions without groups, for [RegExp.prototype.test] *)

Inductive regex : Type :=
| Nothing : regex
| Eps : regex
| Class : (ascii -> bool) -> regex
| Seq : regex -> regex -> regex
| Alt : regex -> regex -> regex
| Star : regex -> regex.

Fixpoint nullable (r : regex) : bool :=
  match r with
  | Nothing => false
  | Eps => true
  | Class _ => false
  | Seq a b => nullable a && nullable b
  | Alt a b => nullable a || nullable b
  | Star _ => true
  end.

(** Brzozowski derivative, with the trivial simplifications. *)
Definition seq' (a b : regex) : regex :=
  match a, b with
  | Nothing, _ => Nothing
  | _, Nothing => Nothing
  | Eps, _ => b
  | _, _ => Seq a b
  end.

Definition alt' (a b : regex) : regex :=
  match a, b with
  | Nothing, _ => b
  | _, Nothing => a
  | _, _ => Alt a b
  end.

Fixpoint deriv (c : ascii) (r : regex) : regex :=
  match r with
  | Nothing => Nothing
  | Eps => Nothing
  | Class p => if p c then Eps else Nothing
  | Seq a b =>
      if nullable a then alt' (seq' (deriv c a) b) (deriv c b)
      else seq' (deriv c a) b
  | Alt a b => alt' (deriv c a) (deriv c b)
  | Star a => seq' (deriv c a) (Star a)
  end.

(** Does some prefix of [s] match [r]? *)
Fixpoint matches_prefix (r : regex) (s : string) : bool :=
  nullable r
  || match s with
     | EmptyString => false
     | String c t => matches_prefix (deriv c r) t
     end.

(** [re.test(s)] for a regular expression without anchors: some substring
    of [s] matches. *)
Fixpoint test (r : regex) (s : string) : bool :=
  matches_prefix r s
  || match s with
     | EmptyString => false
     | String _ t => test r t
     end.

Definition chr (c : ascii) : regex := Class (Ascii.eqb c).
Definition plus (r : regex) : regex := Seq r (Star r).
Fixpoint times (n : nat) (r : regex) : regex :=
  match n with
  | O => Eps
  | S n' => Seq r (times n' r)
  end.

End JS.

(* ===================================================================== *)
(** ** The network and promises *)
(* ===================================================================== *)

(** What [fetch(url)] settles to: it rejects on a network error, and
    otherwise resolves with a response, whatever the HTTP status; [ok] is
    the response's [ok] flag (status 200..299).  [body] is what reading the
    body ([text()], [json()], followed by the parser where the script
    parses) gives, [None] when reading it rejects. *)
Inductive FetchResult (Body : Type) : Type :=
| NetworkError : FetchResult Body
| Response (ok : bool) (status : Z) (body : option Body) : FetchResult Body.

Arguments NetworkError {Body}.
Arguments Response {Body} ok status body.

(** A settled promise. *)
Inductive promise (A : Type) : Type :=
| Fulfilled (a : A) : promise A
| Rejected : promise A.

Arguments Fulfilled {A} a.
Arguments Rejected {A}.

(* ===================================================================== *)
(** ** The partial includer ([js/includes.js], first listener) *)
(* ===================================================================== *)

Module Includer.

Local Open Scope string_scope.

Record NavLink : Type := mkNavLink {
  nav_href : option string;
  nav_active : bool
}.

(** The part of the document the includer touches: the [innerHTML] of the
    two containers ([None]: the page has no such element) and the page's
    [.nav-link] elements. *)
Record Page : Type := mkPage {
  site_header : option string;
  site_footer : option string;
  nav_links : list NavLink
}.

Section WithBrowser.

(** [fetch] of the two fixed relative resources. *)
Variable net : string -> FetchResult string.
(** [location.pathname] *)
Variable pathname : string.
(** The [.nav-link] elements of a piece of markup. *)
Variable nav_links_of : string -> list NavLink.
(** [window.initNav], when the page defines it: the hook works on the
    navigation elements; [None] as its result is a thrown exception. *)
Variable initNav : option (list NavLink -> option (list NavLink)).

(** A promise chain runs against the page: a stage sees the page as the
    previous stage left it. *)
Definition stage (A : Type) : Type := Page -> promise A * Page.

Definition fetch (url : string) : stage (FetchResult string) :=
  fun pg =>
    match net url with
    | NetworkError => (Rejected, pg)
    | r => (Fulfilled r, pg)
    end.

(** [p.then(f)] *)
Definition then_ {A B : Type} (p : stage A) (f : A -> stage B) : stage B :=
  fun pg =>
    match p pg with
    | (Fulfilled a, pg') => f a pg'
    | (Rejected, pg') => (Rejected, pg')
    end.

(** [p.catch(() => {})] *)
Definition catch_ignore {A : Type} (p : stage A) : stage unit :=
  fun pg =>
    match p pg with
    | (Fulfilled _, pg') => (Fulfilled tt, pg')
    | (Rejected, pg') => (Fulfilled tt, pg')
    end.

(** [r => r.text()]: the status is not looked at. *)
Definition text (r : FetchResult string) : stage string :=
  fun pg =>
    match r with
    | Response _ _ (Some html) => (Fulfilled html, pg)
    | _ => (Rejected, pg)
    end.

(** [location.pathname.split('/').pop() || 'index.html'] *)
Definition current_page : string :=
  let last_segment := last (JS.split_char "/" pathname) "" in
  if String.eqb last_segment "" then "index.html" else last_segment.

Definition setActiveNavLink (pg : Page) : Page :=
  let current := current_page in
  let mark (l : NavLink) :=
    match nav_href l with
    | Some h =>
        if String.eqb h current
           || (String.eqb current "" && String.eqb h "index.html")
        then mkNavLink (nav_href l) true
        else mkNavLink (nav_href l) false
    | None => mkNavLink (nav_href l) false
    end in
  mkPage (site_header pg) (site_footer pg) (map mark (nav_links pg)).

(** The handler of the header chain: [headerContainer.innerHTML = html],
    then the hook, then the highlighting.  From here on [nav_links] follows
    the [.nav-link] elements of the new header.  [setActiveNavLink] marks
    the elements outside the header container by the same rule, one by
    one; these are not followed further. *)
Definition install_header (html : string) : stage unit :=
  fun pg =>
    let pg1 := mkPage (Some html) (site_footer pg) (nav_links_of html) in
    match initNav with
    | Some hook =>
        match hook (nav_links pg1) with
        | Some links =>
            (Fulfilled tt,
             setActiveNavLink (mkPage (site_header pg1) (site_footer pg1) links))
        | None => (Rejected, pg1)
        end
    | None => (Fulfilled tt, setActiveNavLink pg1)
    end.

Definition install_footer (html : string) : stage unit :=
  fun pg => (Fulfilled tt, mkPage (site_header pg) (Some html) (nav_links pg)).

Definition loadHeader : stage unit :=
  fun pg =>
    match site_header pg with
    | Some _ =>
        catch_ignore
          (then_ (then_ (fetch "partials/header.html") text) install_header) pg
    | None => (Fulfilled tt, pg)
    end.

Definition loadFooter : stage unit :=
  fun pg =>
    match site_footer pg with
    | Some _ =>
        catch_ignore
          (then_ (then_ (fetch "partials/footer.html") text) install_footer) pg
    | None => (Fulfilled tt, pg)
    end.

(** The listener: both chains are started, then awaited together; they
    touch different parts of the page. *)
Definition includer (pg : Page) : Page :=
  let '(_, pg1) := loadHeader pg in
  let '(_, pg2) := loadFooter pg1 in
  pg2.

End WithBrowser.

End Includer.

(* ===================================================================== *)
(** ** The GitHub statistics loader ([js/github-stats.js]) *)
(* ===================================================================== *)

Module GitHubStats.

Local Open Scope string_scope.

(** An [<a>] element of the parsed [projects.html], with its [href]
    attribute when it has one. *)
Record Anchor : Type := mkAnchor { a_href : option string }.

(** The parsed page: its anchors in document order. *)
Definition Document : Type := list Anchor.

(** [doc.querySelectorAll('a[href*="github.com"]')] *)
Definition github_links (doc : Document) : list Anchor :=
  filter (fun a => match a_href a with
                   | Some h => JS.includes h "github.com"
                   | None => false
                   end) doc.

Definition host_marker : string := "github.com/".

(** The longest prefix without a slash ([[^\/]*], greedy), and what follows. *)
Fixpoint span_segment (s : string) : string * string :=
  match s with
  | EmptyString => ("", "")
  | String c t =>
      if JS.is_slash c then ("", s)
      else let '(seg, rest) := span_segment t in (String c seg, rest)
  end.

(** [/github\.com\/([^\/]+\/[^\/]+)/] tried at the start of [s]; the result
    is the captured group.  A greedy [[^\/]+] that is followed by a slash,
    or that ends the expression, can only stop at the end of the run. *)
Definition match_at (s : string) : option string :=
  if prefix host_marker s then
    let '(owner, rest) := span_segment (JS.drop (length host_marker) s) in
    if String.eqb owner "" then None
    else match rest with
         | EmptyString => None
         | String _ after_slash =>
             let '(name, _) := span_segment after_slash in
             if String.eqb name "" then None
             else Some (owner ++ "/" ++ name)
         end
  else None.

(** [href.match(re)]: the leftmost position at which the expression
    matches; [match[1]]. *)
Fixpoint href_match (s : string) : option string :=
  match match_at s with
  | Some m => Some m
  | None =>
      match s with
      | EmptyString => None
      | String _ t => href_match t
      end
  end.

(** [s.replace(/\/$/, '')] *)
Fixpoint strip_trailing_slash (s : string) : string :=
  match s with
  | EmptyString => EmptyString
  | String c t =>
      if JS.is_slash c && String.eqb t "" then ""
      else String c (strip_trailing_slash t)
  end.

(** The body of the [forEach] callback: the identifier an anchor adds to the
    set, if any. *)
Definition repo_of_href (href : option string) : option string :=
  match href with
  | None => None
  | Some h =>
      if String.eqb h "" then None
      else
        match href_match h with
        | None => None
        | Some m =>
            let repoPath := strip_trailing_slash m in
            if negb (String.eqb repoPath "")
               && negb (JS.endsWith repoPath ".com")
               && (List.length (JS.split_char "/" repoPath) =? 2)%nat
            then Some repoPath
            else None
        end
  end.

(** A [Set] of strings iterates in insertion order. *)
Definition set_add (s : list string) (x : string) : list string :=
  if existsb (String.eqb x) s then s else (s ++ [x])%list.

Definition collect (s : list string) (a : Anchor) : list string :=
  match repo_of_href (a_href a) with
  | Some repoPath => set_add s repoPath
  | None => s
  end.

(** [Array.from(repos)] after the [forEach]. *)
Definition repos_of_document (doc : Document) : list string :=
  fold_left collect (github_links doc) [].

(** The loader object. *)
Record Loader : Type := mkLoader {
  repos : list string;
  totalStars : Z;
  totalForks : Z
}.

Definition new_loader : Loader := mkLoader [] 0 0.

(** The HTTP requests a run issues, in order. *)
Inductive Request : Type :=
| GetProjectsPage : Request
| GetRepo (repoPath : string) : Request.

Record World : Type := mkWorld {
  this : Loader;
  requests : list Request
}.

(** The fields of the API's JSON answer the loader reads. *)
Record RepoData : Type := mkRepoData {
  full_name : option string;
  stargazers_count : option Z;
  forks_count : option Z
}.

Record RepoStats : Type := mkRepoStats {
  name : option string;
  stars : Z;
  forks : Z
}.

Record Totals : Type := mkTotals { sum_stars : Z; sum_forks : Z }.

(** State passing: a method runs against the loader and the request log. *)
Definition M (A : Type) : Type := World -> A * World.

Definition ret {A : Type} (a : A) : M A := fun w => (a, w).

Definition bind {A B : Type} (m : M A) (k : A -> M B) : M B :=
  fun w => let '(a, w') := m w in k a w'.

Notation "x <- m ;; k" := (bind m (fun x => k))
  (at level 61, m at next level, right associativity).
Notation "m ;;; k" := (bind m (fun _ => k))
  (at level 61, right associativity).

Definition http (r : Request) : M unit :=
  fun w => (tt, mkWorld (this w) (requests w ++ [r])%list).

Definition get_repos : M (list string) := fun w => (repos (this w), w).

Definition set_repos (l : list string) : M unit :=
  fun w => (tt, mkWorld (mkLoader l (totalStars (this w)) (totalForks (this w)))
                        (requests w)).

Definition set_totals (s f : Z) : M unit :=
  fun w => (tt, mkWorld (mkLoader (repos (this w)) s f) (requests w)).

Fixpoint mapM {A B : Type} (f : A -> M B) (l : list A) : M (list B) :=
  match l with
  | [] => ret []
  | x :: t => y <- f x ;; ys <- mapM f t ;; ret (y :: ys)
  end.

Section WithNetwork.

(** [fetch('projects.html')], parsed. *)
Variable projects_page : FetchResult Document.
(** [fetch('https://api.github.com/repos/' + repoPath)], its JSON read. *)
Variable api : string -> FetchResult RepoData.

Definition extractGitHubRepos : M (list string) :=
  http GetProjectsPage ;;;
  match projects_page with
  | Response true _ (Some doc) =>
      let found := repos_of_document doc in
      set_repos found ;;; ret found
  | _ => ret []                       (* caught and logged *)
  end.

(** [x || 0] on a count. *)
Definition or_zero (v : option Z) : Z :=
  match v with Some z => z | None => 0%Z end.

Definition fetchRepoStats (repoPath : string) : M (option RepoStats) :=
  http (GetRepo repoPath) ;;;
  match api repoPath with
  | Response true _ (Some data) =>
      ret (Some (mkRepoStats (full_name data)
                             (or_zero (stargazers_count data))
                             (or_zero (forks_count data))))
  | _ => ret None                     (* 404, other status, or caught *)
  end.

Definition add_stats (acc : Z * Z) (stat : option RepoStats) : Z * Z :=
  match stat with
  | Some st => (fst acc + stars st, snd acc + forks st)%Z
  | None => acc
  end.

Definition is_empty {A : Type} (l : list A) : bool :=
  match l with [] => true | _ => false end.

Definition fetchAllStats : M Totals :=
  before <- get_repos ;;
  (if is_empty before then extractGitHubRepos ;;; ret tt else ret tt) ;;;
  current <- get_repos ;;
  if is_empty current then ret (mkTotals 0 0)
  else
    results <- mapM fetchRepoStats current ;;
    let '(s, f) := fold_left add_stats results (0, 0)%Z in
    set_totals s f ;;; ret (mkTotals s f).

End WithNetwork.

(** *** [formatNumber] *)

Local Open Scope Z_scope.

(** An integer as a binary64 value. *)
Definition to_double (z : Z) : spec_float := binary_normalize 53 1024 z 0 false.

(** [x / y] on binary64 values. *)
Definition fdiv (x y : spec_float) : spec_float := SFdiv 53 1024 x y.

(** [10^21 <= m * 2^e] *)
Definition at_least_1e21 (m : positive) (e : Z) : bool :=
  if 0 <=? e then 10 ^ 21 <=? Z.pos m * 2 ^ e
  else 10 ^ 21 * 2 ^ (- e) <=? Z.pos m.

(** The integer [n] for which [n / 10] is closest to [m * 2^e], the larger
    one of two. *)
Definition tenths (m : positive) (e : Z) : Z :=
  if 0 <=? e then 10 * Z.pos m * 2 ^ e
  else (20 * Z.pos m + 2 ^ (- e)) / 2 ^ (1 - e).

Definition one_decimal (n : Z) : string :=
  JS.Z_to_string (n / 10) ++ "." ++ JS.Z_to_string (n mod 10).

Section WithNumberToString.

(** [Number::toString] of a binary64 value of magnitude [10^21] or more
    (exponent notation). *)
Variable big_to_string : spec_float -> string.

(** [x.toFixed(1)] *)
Definition toFixed1 (x : spec_float) : string :=
  match x with
  | S754_nan => "NaN"
  | S754_infinity s => if s then "-Infinity" else "Infinity"
  | S754_zero _ => "0.0"
  | S754_finite s m e =>
      (if s then "-" else "")
      ++ (if at_least_1e21 m e then big_to_string (S754_finite false m e)
          else one_decimal (tenths m e))
  end.

Definition formatNumber (num : Z) : string :=
  if 1000000 <=? num then
    toFixed1 (fdiv (to_double num) (to_double 1000000)) ++ "M"
  else if 1000 <=? num then
    toFixed1 (fdiv (to_double num) (to_double 1000)) ++ "K"
  else JS.Z_to_string num.

End WithNumberToString.

End GitHubStats.

(* ===================================================================== *)
(** ** The blog loader ([BlogLoader] in [js/includes.js]) *)
(* ===================================================================== *)

Module Blog.

Local Open Scope string_scope.

(** A valid [Date] object, as far as the loader reads it (local time). *)
Record DateObj : Type := mkDate {
  getTime : Z;
  getFullYear : Z;
  getMonth : Z;
  getDate : Z
}.

Record Post : Type := mkPost {
  title : string;
  url : string;
  date : option string;
  formattedDate : string;
  rawDate : option string;
  excerpt : option string;
  category : option string;
  readTime : option string
}.

(** [{...post, excerpt, category, readTime}] *)
Definition with_enrichment (post : Post) (e c r : string) : Post :=
  mkPost (title post) (url post) (date post) (formattedDate post)
         (rawDate post) (Some e) (Some c) (Some r).

(** An [<li>] of the index page: its first [<a>] descendant (text and
    [href] attribute), and the text of its [<span>] descendants in document
    order. *)
Record ListItem : Type := mkListItem {
  li_link : option (string * option string);
  li_spans : list string
}.

(** What the loader reads of a post's own page: the [content] attribute of
    [meta[name="description"]] when the element exists, and the text of the
    first paragraph of the content containers. *)
Record PostPage : Type := mkPostPage {
  meta_description : option (option string);
  first_paragraph : option string
}.

(** [determineCategory(title, body)] *)
Definition determineCategory (title body : string) : string :=
  let lowerTitle := JS.toLowerCase title in
  let lowerBody := JS.toLowerCase body in
  if JS.includes lowerTitle "tutorial" || JS.includes lowerTitle "guide"
     || JS.includes lowerTitle "how to"
  then "tutorials"
  else if JS.includes lowerTitle "optimization"
          || JS.includes lowerTitle "optimizing"
          || JS.includes lowerTitle "performance"
  then "optimization"
  else if JS.includes lowerTitle "deployment" || JS.includes lowerTitle "deploy"
          || JS.includes lowerTitle "serving" || JS.includes lowerTitle "mobile"
          || JS.includes lowerTitle "android" || JS.includes lowerTitle "gpu"
  then "deployment"
  else if JS.includes lowerTitle "research" || JS.includes lowerTitle "paper"
          || JS.includes lowerTitle "study"
  then "research"
  else "deployment".

(** The lookup table of the manual date parse. *)
Definition months (key : string) : option string :=
  if String.eqb key "jan" then Some "01"
  else if String.eqb key "feb" then Some "02"
  else if String.eqb key "mar" then Some "03"
  else if String.eqb key "apr" then Some "04"
  else if String.eqb key "may" then Some "05"
  else if String.eqb key "jun" then Some "06"
  else if String.eqb key "jul" then Some "07"
  else if String.eqb key "aug" then Some "08"
  else if String.eqb key "sep" then Some "09"
  else if String.eqb key "oct" then Some "10"
  else if String.eqb key "nov" then Some "11"
  else if String.eqb key "dec" then Some "12"
  else None.

(** A value inside a template literal. *)
Definition interpolate (v : option string) : string :=
  match v with
  | Some s => s
  | None => "undefined"
  end.

(** Numbers as the comparator of [sort] returns them. *)
Inductive jsnum : Type :=
| Num (z : Z) : jsnum
| NaN : jsnum.

Definition jsnum_sub (a b : jsnum) : jsnum :=
  match a, b with
  | Num x, Num y => Num (x - y)
  | _, _ => NaN
  end.

(** [Array.prototype.sort] calls the comparator and reads a result that is
    [NaN] as [+0]; the first argument goes after the second only when the
    result is positive. *)
Definition positive_result (v : jsnum) : bool :=
  match v with
  | Num z => (0 <? z)%Z
  | NaN => false
  end.

Section Sort.

Variable A : Type.
Variable compareFn : A -> A -> jsnum.

(** [Array.prototype.sort] is stable.  For a comparator that orders the
    elements consistently every conforming engine produces the same array;
    it is computed here by stable insertion, from the right.  For a
    comparator that is not consistent (here: a difference of dates that is
    [NaN]) ECMAScript leaves the order to the engine: the array below is
    then the one of an engine that inserts from the right, and another
    engine may return another permutation.  On two elements, with a
    result that is [NaN] in both directions, the order is kept here, as
    by every engine that moves an element on a positive result only. *)
Fixpoint insert (x : A) (l : list A) : list A :=
  match l with
  | [] => [x]
  | y :: t =>
      if positive_result (compareFn x y) then y :: insert x t
      else x :: l
  end.

Fixpoint sort (l : list A) : list A :=
  match l with
  | [] => []
  | x :: t => insert x (sort t)
  end.

End Sort.

(** The regular expressions of the scraper. *)
Definition digit : JS.regex := JS.Class JS.is_digit.
Definition word : JS.regex := JS.Class JS.is_word.
Definition space : JS.regex := JS.Class JS.is_space.

(** [/\d{4}\/\d{2}\/\d{2}/] *)
Definition re_post_path : JS.regex :=
  JS.Seq (JS.times 4 digit)
    (JS.Seq (JS.chr "/") (JS.Seq (JS.times 2 digit)
       (JS.Seq (JS.chr "/") (JS.times 2 digit)))).

(** [/\w+\s+\d+,\s+\d{4}/] *)
Definition re_month_day_year : JS.regex :=
  JS.Seq (JS.plus word)
    (JS.Seq (JS.plus space) (JS.Seq (JS.plus digit)
       (JS.Seq (JS.chr ",") (JS.Seq (JS.plus space) (JS.times 4 digit))))).

(** [/\d{4}/] *)
Definition re_year : JS.regex := JS.times 4 digit.

Definition looks_like_date (spanText : string) : bool :=
  JS.test re_month_day_year spanText || JS.test re_year spanText.

Definition batchSize : nat := 5.

(** What the enrichment loop does, in order: a fetch is issued, the
    [Promise.all] of [n] pending fetches is awaited, a timer is awaited. *)
Inductive Event : Type :=
| FetchStart (target : string) : Event
| AwaitAll (n : nat) : Event
| Sleep (ms : Z) : Event.

(** [arr.slice(i, j)] for [i <= j] *)
Definition slice {A : Type} (i j : nat) (l : list A) : list A :=
  firstn (j - i) (skipn i l).

Section WithBrowser.

(** [new Date(s)]; [None] is an invalid date ([getTime()] is [NaN]).  How a
    string that is not in the ISO format parses is the engine's choice. *)
Variable newDate : string -> option DateObj.
(** [formatDate], the text shown for a date; display only. *)
Variable formatDate : option string -> string.
(** [fetch(post.url)], the page read and parsed. *)
Variable net : string -> FetchResult PostPage.

(** [parseDateString(dateStr)] *)
Definition parseDateString (dateStr : option string) : option string :=
  match dateStr with
  | None => None
  | Some s =>
      if String.eqb s "" then None
      else
        match newDate s with
        | None =>
            let parts :=
              JS.split_ws (JS.remove_first_comma (JS.toLowerCase s)) in
            match parts with
            | p0 :: p1 :: p2 :: _ =>
                let month := months (JS.take 3 p0) in
                let day := JS.padStart2 p1 in
                let year := p2 in
                Some (year ++ "-" ++ interpolate month ++ "-" ++ day)
            | _ => None
            end
        | Some d =>
            let year := getFullYear d in
            let month := JS.padStart2 (JS.Z_to_string (getMonth d + 1)) in
            let day := JS.padStart2 (JS.Z_to_string (getDate d)) in
            Some (JS.Z_to_string year ++ "-" ++ month ++ "-" ++ day)
        end
  end.

(** The callback of [listItems.forEach]: the post an item adds, if any. *)
Definition scrape_item (li : ListItem) : option Post :=
  match li_link li with
  | None => None
  | Some (textContent, href) =>
      let title := JS.trim textContent in
      if String.eqb title "" || String.eqb (JS.toLowerCase title) "home"
         || match href with
            | Some h => String.eqb h "/" || String.eqb h "/index.html"
            | None => false
            end
      then None
      else if negb (JS.test re_post_path (match href with Some h => h | None => "null" end)) then None
      else
        match href with
        | None => None
        | Some h =>
            let url := if JS.startsWith h "http" then h
                       else "https://blog.mlc.ai" ++ h in
            let dateStr :=
              find looks_like_date (rev (map JS.trim (li_spans li))) in
            if String.eqb url "" then None
            else
              let date := parseDateString dateStr in
              Some (mkPost title url date
                           (formatDate (JS.or_else date dateStr))
                           dateStr None None None)
        end
  end.

(** The comparator handed to [posts.sort]. *)
Definition time_value (d : option string) : jsnum :=
  match d with
  | Some s =>
      match newDate s with
      | Some o => Num (getTime o)
      | None => NaN
      end
  | None => NaN
  end.

Definition by_date_desc (a b : Post) : jsnum :=
  if negb (JS.truthy (date a)) && negb (JS.truthy (date b)) then Num 0
  else if negb (JS.truthy (date a)) then Num 1
  else if negb (JS.truthy (date b)) then Num (-1)
  else jsnum_sub (time_value (date b)) (time_value (date a)).

Definition sortPosts (posts : list Post) : list Post := sort by_date_desc posts.

(** The posts of the index page, in scrape order. *)
Fixpoint scrape (items : list ListItem) : list Post :=
  match items with
  | [] => []
  | li :: rest =>
      match scrape_item li with
      | Some p => p :: scrape rest
      | None => scrape rest
      end
  end.

(** [fetchPostsFromBlog()]; [None] is the rethrown error. *)
Definition fetchPostsFromBlog (index : FetchResult (list ListItem))
  : option (list Post) :=
  match index with
  | Response true _ (Some listItems) => Some (sortPosts (scrape listItems))
  | _ => None
  end.

Definition default_excerpt : string := "Read the full article to learn more.".

(** The value the [catch] block of [enrichPostData] returns. *)
Definition with_defaults (post : Post) : Post :=
  with_enrichment post default_excerpt
                  (determineCategory (title post) "") "5 min read".

(** [Math.ceil(n / 200)] for a count [n] *)
Definition ceil_div_200 (n : nat) : Z := (Z.of_nat n + 199) / 200.

(** [enrichPostData(post)] *)
Definition enrichPostData (post : Post) : Post :=
  match net (url post) with
  | NetworkError => with_defaults post
  | Response false _ _ => post
  | Response true _ None => with_defaults post
  | Response true _ (Some doc) =>
      let excerpt0 :=
        match meta_description doc with
        | Some content => content
        | None => Some ""
        end in
      let excerpt1 :=
        if negb (JS.truthy excerpt0) then
          match first_paragraph doc with
          | Some text => Some (JS.trim text)
          | None => excerpt0
          end
        else excerpt0 in
      match excerpt1 with
      | None => with_defaults post    (* [excerpt.length] of [null] throws *)
      | Some e =>
          let e' := if (200 <? length e)%nat then JS.take 200 e ++ "..."
                    else e in
          let category := determineCategory (title post) e' in
          let wordCount := List.length (JS.split_ws e') in
          let readTime :=
            JS.Z_to_string (Z.max 3 (ceil_div_200 wordCount)) ++ " min read" in
          with_enrichment post
            (if String.eqb e' "" then default_excerpt else e')
            category readTime
      end
  end.

(** One round of the loop: the batch's fetches are all issued by
    [batch.map], then awaited together. *)
Definition batch_events (batch : list Post) : list Event :=
  (map (fun p => FetchStart (url p)) batch ++ [AwaitAll (List.length batch)])%list.

(** The [for] loop of [fetchAllPosts] over the scraped posts, from index
    [i] on. *)
Equations? enrichLoop (scraped : list Post) (i : nat)
    (enrichedPosts : list Post) (log : list Event)
  : list Post * list Event by wf (List.length scraped - i) lt :=
  enrichLoop scraped i enrichedPosts log with lt_dec i (List.length scraped) := {
    | left _ =>
        enrichLoop scraped (i + batchSize)
          (enrichedPosts
             ++ map enrichPostData (slice i (i + batchSize) scraped))
          (log ++ batch_events (slice i (i + batchSize) scraped)
               ++ (if (i + batchSize <? List.length scraped)%nat
                   then [Sleep 100] else []));
    | right _ => (enrichedPosts, log) }.
Proof. unfold batchSize. lia. Qed.

(** The loader object. *)
Record BlogLoader : Type := mkBlogLoader {
  posts : list Post;
  categories : list (option string);
  currentCategory : option string
}.

Definition new_loader : BlogLoader := mkBlogLoader [] [] (Some "all").

Definition option_string_eqb (a b : option string) : bool :=
  match a, b with
  | Some x, Some y => String.eqb x y
  | None, None => true
  | _, _ => false
  end.

(** [this.categories.add(c)] *)
Definition categories_add (s : list (option string)) (c : option string)
  : list (option string) :=
  if existsb (option_string_eqb c) s then s else (s ++ [c])%list.

(** [fetchAllPosts()]: the returned array, the loader afterwards, and the
    events of the enrichment loop. *)
Definition fetchAllPosts (index : FetchResult (list ListItem))
    (self : BlogLoader) : list Post * BlogLoader * list Event :=
  match fetchPostsFromBlog index with
  | None => ([], self, [])                       (* caught and logged *)
  | Some [] => ([], self, [])
  | Some scraped =>
      let '(enrichedPosts, log) := enrichLoop scraped 0 [] [] in
      let cats := fold_left categories_add (map category enrichedPosts)
                            (categories self) in
      (enrichedPosts, mkBlogLoader enrichedPosts cats (currentCategory self),
       log)
  end.

End WithBrowser.

(** *** Rendering *)

(** [icons[category] || 'fa-file-alt'], for a category that names no
    member of [Object.prototype]: the four names of [determineCategory],
    and the text of [undefined], are such.  For a name like
    [constructor] the lookup finds the inherited member, which is no
    string; the loader never passes one. *)
Definition getCategoryIcon (category : string) : string :=
  if String.eqb category "tutorials" then "fa-book"
  else if String.eqb category "optimization" then "fa-tachometer-alt"
  else if String.eqb category "deployment" then "fa-server"
  else if String.eqb category "research" then "fa-brain"
  else "fa-file-alt".

(** [s.charAt(0).toUpperCase() + s.slice(1)] *)
Definition capitalize (s : string) : string :=
  JS.toUpperCase (JS.take 1 s) ++ JS.drop 1 s.

(** The double quote of the markup. *)
Definition dq : string := String (ascii_of_nat 34) "".

Section Rendering.

(** [new Date(d).toLocaleDateString('en-US', {year, month})] *)
Variable month_and_year : string -> string.

(** [renderPostCard(post)]; [None] is the [TypeError] of reading
    [charAt] of an absent category. *)
Definition renderPostCard (post : Post) : option string :=
  let monthYear := if JS.truthy (date post)
                   then month_and_year (interpolate (date post)) else "" in
  match category post with
  | None => None
  | Some cat =>
      let icon := getCategoryIcon cat in
      Some ("
            <article class=" ++ dq ++ "blog-card" ++ dq ++ " data-category=" ++ dq ++ cat ++ dq ++ ">
                <div class=" ++ dq ++ "blog-card-image" ++ dq ++ ">
                    <div class=" ++ dq ++ "image-placeholder" ++ dq ++ ">
                        <i class=" ++ dq ++ "fas " ++ icon ++ dq ++ "></i>
                    </div>
                </div>
                <div class=" ++ dq ++ "blog-card-content" ++ dq ++ ">
                    <div class=" ++ dq ++ "blog-meta" ++ dq ++ ">
                        <span class=" ++ dq ++ "blog-category" ++ dq ++ ">" ++ capitalize cat ++ "</span>
                        <span class=" ++ dq ++ "blog-date" ++ dq ++ ">" ++ monthYear ++ "</span>
                    </div>
                    <h3>" ++ title post ++ "</h3>
                    <p>" ++ interpolate (excerpt post) ++ "</p>
                    <div class=" ++ dq ++ "blog-footer" ++ dq ++ ">
                        <span class=" ++ dq ++ "read-time" ++ dq ++ ">" ++ interpolate (readTime post) ++ "</span>
                        <a href=" ++ dq ++ url post ++ dq ++ " class=" ++ dq ++ "read-more" ++ dq ++ " target=" ++ dq ++ "_blank" ++ dq ++ " rel=" ++ dq ++ "noopener" ++ dq ++ ">Read More <i class=" ++ dq ++ "fas fa-arrow-right" ++ dq ++ "></i></a>
                    </div>
                </div>
            </article>
        ")
  end.

(** The posts of the selected category. *)
Definition filteredPosts (self : BlogLoader) : list Post :=
  if option_string_eqb (currentCategory self) (Some "all") then posts self
  else filter (fun post => option_string_eqb (category post)
                                             (currentCategory self))
              (posts self).

(** [filteredPosts.slice(1)] *)
Definition postsToRender (self : BlogLoader) : list Post :=
  tl (filteredPosts self).

Fixpoint render_cards (l : list Post) : option (list string) :=
  match l with
  | [] => Some []
  | p :: t =>
      match renderPostCard p with
      | None => None
      | Some card =>
          match render_cards t with
          | None => None
          | Some cards => Some (card :: cards)
          end
      end
  end.

Definition no_posts_message : string :=
  "<p style=" ++ dq ++ "text-align: center; padding: 2rem; color: var(--text-secondary);" ++ dq ++ ">No posts found in this category.</p>".

(** [renderPosts()]: the grid's [innerHTML] afterwards ([None] inside: the
    page has no grid); [None] outside is a thrown exception. *)
Definition renderPosts (self : BlogLoader) (postsGrid : option string)
  : option (option string) :=
  match postsGrid with
  | None => Some None
  | Some _ =>
      match postsToRender self with
      | [] => Some (Some no_posts_message)
      | l =>
          match render_cards l with
          | Some cards => Some (Some (JS.join cards))
          | None => None
          end
      end
  end.

End Rendering.

(** The click handler of a category button. *)
Definition select_category (c : option string) (self : BlogLoader) : BlogLoader :=
  mkBlogLoader (posts self) (categories self) c.

(** The post the featured block shows: [init] hands [this.posts[0]] to
    [renderFeaturedArticle], and a category click does not redraw it. *)
Definition featured (self : BlogLoader) : option Post := hd_error (posts self).

End Blog.

(* ===================================================================== *)
(** ** The statistics tiles of the home page ([js/github-stats.js]) *)
(* ===================================================================== *)

Module StatsPage.

Import GitHubStats.

Local Open Scope string_scope.

(** The double quote of the markup. *)
Definition dq : string := String (ascii_of_nat 34) "".

Section WithBrowser.

Variable big_to_string : spec_float -> string.
Variable projects_page : FetchResult Document.
Variable api : string -> FetchResult RepoData.

(** The three methods below write the [innerHTML] of the element
    [.stats .stats-grid]; [None] is a page without it. *)
Definition renderStats (stats : Totals) (statsGrid : option string)
  : option string :=
  match statsGrid with
  | None => None
  | Some _ =>
      Some ("
            <div class=" ++ dq ++ "stat-item" ++ dq ++ ">
                <div class=" ++ dq ++ "stat-number" ++ dq ++ ">" ++ formatNumber big_to_string (sum_stars stats) ++ "</div>
                <div class=" ++ dq ++ "stat-label" ++ dq ++ ">GitHub Stars</div>
            </div>
            <div class=" ++ dq ++ "stat-item" ++ dq ++ ">
                <div class=" ++ dq ++ "stat-number" ++ dq ++ ">" ++ formatNumber big_to_string (sum_forks stats) ++ "</div>
                <div class=" ++ dq ++ "stat-label" ++ dq ++ ">GitHub Forks</div>
            </div>
        ")
  end.

Definition showLoading (statsGrid : option string) : option string :=
  match statsGrid with
  | None => None
  | Some _ =>
      Some ("
            <div class=" ++ dq ++ "stat-item" ++ dq ++ ">
                <div class=" ++ dq ++ "stat-number" ++ dq ++ ">
                    <i class=" ++ dq ++ "fas fa-spinner fa-spin" ++ dq ++ "></i>
                </div>
                <div class=" ++ dq ++ "stat-label" ++ dq ++ ">Loading...</div>
            </div>
            <div class=" ++ dq ++ "stat-item" ++ dq ++ ">
                <div class=" ++ dq ++ "stat-number" ++ dq ++ ">
                    <i class=" ++ dq ++ "fas fa-spinner fa-spin" ++ dq ++ "></i>
                </div>
                <div class=" ++ dq ++ "stat-label" ++ dq ++ ">Loading...</div>
            </div>
        ")
  end.

Definition showError (statsGrid : option string) : option string :=
  match statsGrid with
  | None => None
  | Some _ =>
      Some ("
            <div class=" ++ dq ++ "stat-item" ++ dq ++ ">
                <div class=" ++ dq ++ "stat-number" ++ dq ++ ">-</div>
                <div class=" ++ dq ++ "stat-label" ++ dq ++ ">GitHub Stars</div>
            </div>
            <div class=" ++ dq ++ "stat-item" ++ dq ++ ">
                <div class=" ++ dq ++ "stat-number" ++ dq ++ ">-</div>
                <div class=" ++ dq ++ "stat-label" ++ dq ++ ">GitHub Forks</div>
            </div>
        ")
  end.

(** [init()].  The [try] block holds [fetchAllStats] and [renderStats];
    both methods called by [fetchAllStats] have a handler of their own
    around their whole body, and the rest reads fields of objects the
    method has built, so the block completes and the handler with
    [showError] is not entered. *)
Definition init (statsGrid : option string) : M (option string) :=
  let loading := showLoading statsGrid in
  stats <- fetchAllStats projects_page api ;;
  ret (renderStats stats loading).

(** The listener: a loader is made and started only on a page that has the
    grid. *)
Definition on_load (statsGrid : option string)
  : option (option string * World) :=
  match statsGrid with
  | Some _ => Some (init statsGrid (mkWorld new_loader []))
  | None => None
  end.

End WithBrowser.

End StatsPage.

(* ===================================================================== *)
(** ** The blog page and the news of the home page ([BlogLoader]) *)
(* ===================================================================== *)

Module BlogPage.

Import Blog.

Local Open Scope string_scope.

(** A [.category-btn] element. *)
Record Button : Type := mkButton {
  data_category : option string;
  btn_active : bool
}.

(** The elements the loader looks up, with their [innerHTML]; [None] is a
    page without the element.  [filterInstalled] tells whether the category
    buttons carry the click handler that [initCategoryFilter] adds. *)
Record Dom : Type := mkDom {
  blog_posts : bool;                    (* [.blog-posts] exists *)
  postsGrid : option string;            (* [.posts-grid] *)
  featuredSection : option string;      (* [.featured-content] *)
  chartBars : option string;            (* [.chart-bars] *)
  newsGrid : option string;             (* [.latest-news .news-grid] *)
  categoryButtons : list Button;
  filterInstalled : bool
}.

Definition with_postsGrid (g : option string) (dom : Dom) : Dom :=
  mkDom (blog_posts dom) g (featuredSection dom) (chartBars dom)
        (newsGrid dom) (categoryButtons dom) (filterInstalled dom).

Definition with_featuredSection (f : option string) (dom : Dom) : Dom :=
  mkDom (blog_posts dom) (postsGrid dom) f (chartBars dom)
        (newsGrid dom) (categoryButtons dom) (filterInstalled dom).

Definition with_chartBars (c : option string) (dom : Dom) : Dom :=
  mkDom (blog_posts dom) (postsGrid dom) (featuredSection dom) c
        (newsGrid dom) (categoryButtons dom) (filterInstalled dom).

Definition with_newsGrid (n : option string) (dom : Dom) : Dom :=
  mkDom (blog_posts dom) (postsGrid dom) (featuredSection dom) (chartBars dom)
        n (categoryButtons dom) (filterInstalled dom).

Definition with_categoryButtons (b : list Button) (dom : Dom) : Dom :=
  mkDom (blog_posts dom) (postsGrid dom) (featuredSection dom) (chartBars dom)
        (newsGrid dom) b (filterInstalled dom).

(** [initCategoryFilter()]: every category button gets the click handler. *)
Definition initCategoryFilter (dom : Dom) : Dom :=
  mkDom (blog_posts dom) (postsGrid dom) (featuredSection dom) (chartBars dom)
        (newsGrid dom) (categoryButtons dom) true.

(** [p.date && p.date.startsWith(year)] *)
Definition dated_in (year : string) (p : Post) : bool :=
  JS.truthy (date p)
  && match date p with
     | Some s => JS.startsWith s year
     | None => false
     end.

(** [this.posts.filter(p => p.date && p.date.startsWith(year)).length] *)
Definition count_year (year : string) (l : list Post) : nat :=
  List.length (filter (dated_in year) l).

Definition show_count (n : nat) : string := JS.Z_to_string (Z.of_nat n).

(** [post.category ? post.category.charAt(0).toUpperCase()
                      + post.category.slice(1) : 'Blog'] *)
Definition category_label (post : Post) : string :=
  match category post with
  | Some c => if JS.truthy (Some c) then capitalize c else "Blog"
  | None => "Blog"
  end.

Section WithBrowser.

Variable newDate : string -> option DateObj.
Variable formatDate : option string -> string.
Variable net : string -> FetchResult PostPage.
(** [fetch('https://blog.mlc.ai/')], its list items. *)
Variable index : FetchResult (list ListItem).
Variable month_and_year : string -> string.
(** The text of [(a / b * 100)] inside a template literal. *)
Variable percent : nat -> nat -> string.

(** [renderFeaturedArticle(post)]; [post] is [undefined] when [this.posts]
    is empty.  The locals [year], [month] and [day] are not used. *)
Definition renderFeaturedArticle (self : BlogLoader) (post : option Post)
    (dom : Dom) : Dom :=
  match featuredSection dom, post with
  | Some _, Some post =>
      let dom1 := with_featuredSection (Some ("
            <div class=" ++ dq ++ "featured-badge" ++ dq ++ ">
                <i class=" ++ dq ++ "fas fa-star" ++ dq ++ "></i>
                <span>Latest</span>
            </div>
            <h2>" ++ title post ++ "</h2>
            <p class=" ++ dq ++ "featured-excerpt" ++ dq ++ ">" ++ interpolate (excerpt post) ++ "</p>
            <div class=" ++ dq ++ "featured-meta" ++ dq ++ ">
                <span class=" ++ dq ++ "author" ++ dq ++ ">
                    <i class=" ++ dq ++ "fas fa-user" ++ dq ++ "></i>
                    MLC Team
                </span>
                <span class=" ++ dq ++ "date" ++ dq ++ ">
                    <i class=" ++ dq ++ "fas fa-calendar" ++ dq ++ "></i>
                    " ++ formattedDate post ++ "
                </span>
                <span class=" ++ dq ++ "read-time" ++ dq ++ ">
                    <i class=" ++ dq ++ "fas fa-clock" ++ dq ++ "></i>
                    " ++ interpolate (readTime post) ++ "
                </span>
            </div>
            <a href=" ++ dq ++ url post ++ dq ++ " class=" ++ dq ++ "btn btn-primary" ++ dq ++ " target=" ++ dq ++ "_blank" ++ dq ++ " rel=" ++ dq ++ "noopener" ++ dq ++ ">Read Full Article</a>
        ")) dom in
      match chartBars dom1 with
      | None => dom1
      | Some _ =>
          let totalPosts := List.length (posts self) in
          let posts2024 := count_year "2024" (posts self) in
          let posts2025 := count_year "2025" (posts self) in
          with_chartBars (Some ("
                <div class=" ++ dq ++ "bar-item" ++ dq ++ ">
                    <span class=" ++ dq ++ "bar-label" ++ dq ++ ">Total Posts</span>
                    <div class=" ++ dq ++ "bar-container" ++ dq ++ ">
                        <div class=" ++ dq ++ "bar-fill" ++ dq ++ " style=" ++ dq ++ "width: 100%; background: var(--primary-color);" ++ dq ++ ">
                            <span class=" ++ dq ++ "bar-value" ++ dq ++ ">" ++ show_count totalPosts ++ "</span>
                        </div>
                    </div>
                </div>
                <div class=" ++ dq ++ "bar-item" ++ dq ++ ">
                    <span class=" ++ dq ++ "bar-label" ++ dq ++ ">2024 Posts</span>
                    <div class=" ++ dq ++ "bar-container" ++ dq ++ ">
                        <div class=" ++ dq ++ "bar-fill" ++ dq ++ " style=" ++ dq ++ "width: " ++ percent posts2024 totalPosts ++ "%; background: var(--accent-color);" ++ dq ++ ">
                            <span class=" ++ dq ++ "bar-value" ++ dq ++ ">" ++ show_count posts2024 ++ "</span>
                        </div>
                    </div>
                </div>
                <div class=" ++ dq ++ "bar-item" ++ dq ++ ">
                    <span class=" ++ dq ++ "bar-label" ++ dq ++ ">2025 Posts</span>
                    <div class=" ++ dq ++ "bar-container" ++ dq ++ ">
                        <div class=" ++ dq ++ "bar-fill" ++ dq ++ " style=" ++ dq ++ "width: " ++ percent posts2025 totalPosts ++ "%; background: var(--secondary-color);" ++ dq ++ ">
                            <span class=" ++ dq ++ "bar-value" ++ dq ++ ">" ++ show_count posts2025 ++ "</span>
                        </div>
                    </div>
                </div>
            ")) dom1
      end
  | _, _ => dom
  end.

(** [renderNewsCard(post)]: the category is guarded here, unlike in
    [renderPostCard]. *)
Definition renderNewsCard (post : Post) : string :=
  let monthYear := if JS.truthy (date post)
                   then month_and_year (interpolate (date post)) else "" in
  let category := category_label post in
  "
            <article class=" ++ dq ++ "news-card" ++ dq ++ ">
                <div class=" ++ dq ++ "news-meta" ++ dq ++ ">
                    <span class=" ++ dq ++ "news-date" ++ dq ++ ">" ++ monthYear ++ "</span>
                    <span class=" ++ dq ++ "news-category" ++ dq ++ ">" ++ category ++ "</span>
                </div>
                <h3>" ++ title post ++ "</h3>
                <p>" ++ interpolate (excerpt post) ++ "</p>
                <a href=" ++ dq ++ url post ++ dq ++ " class=" ++ dq ++ "news-link" ++ dq ++ " target=" ++ dq ++ "_blank" ++ dq ++ " rel=" ++ dq ++ "noopener" ++ dq ++ ">Read More</a>
            </article>
        ".

Definition news_placeholder : string :=
  "
                <article class=" ++ dq ++ "news-card" ++ dq ++ ">
                    <div class=" ++ dq ++ "news-meta" ++ dq ++ ">
                        <span class=" ++ dq ++ "news-date" ++ dq ++ ">Loading...</span>
                        <span class=" ++ dq ++ "news-category" ++ dq ++ ">Blog</span>
                    </div>
                    <h3>Loading blog posts...</h3>
                    <p>Please wait while we fetch the latest blog posts.</p>
                    <a href=" ++ dq ++ "blog.html" ++ dq ++ " class=" ++ dq ++ "news-link" ++ dq ++ ">View Blog</a>
                </article>
            ".

(** [renderHomepageBlogs(count)] *)
Definition renderHomepageBlogs (count : nat) (self : BlogLoader) (dom : Dom)
  : Dom :=
  match newsGrid dom with
  | None => dom
  | Some _ =>
      match posts self with
      | [] => with_newsGrid (Some news_placeholder) dom
      | _ =>
          let latestPosts := slice 0 count (posts self) in
          with_newsGrid (Some (JS.join (map renderNewsCard latestPosts))) dom
      end
  end.

(** [initHomepage()].  Neither [fetchAllPosts] nor [renderHomepageBlogs]
    throws, so the handler with the fallback card is not entered. *)
Definition initHomepage (self : BlogLoader) (dom : Dom) : BlogLoader * Dom :=
  let '(_, self1, _) := fetchAllPosts newDate formatDate net index self in
  match posts self1 with
  | [] => (self1, dom)                         (* a warning is logged *)
  | _ => (self1, renderHomepageBlogs 2 self1 dom)
  end.

Definition showLoading (dom : Dom) : Dom :=
  match postsGrid dom with
  | None => dom
  | Some _ =>
      with_postsGrid (Some ("
                <div style=" ++ dq ++ "grid-column: 1 / -1; text-align: center; padding: 3rem;" ++ dq ++ ">
                    <i class=" ++ dq ++ "fas fa-spinner fa-spin" ++ dq ++ " style=" ++ dq ++ "font-size: 2rem; color: var(--primary-color); margin-bottom: 1rem;" ++ dq ++ "></i>
                    <p style=" ++ dq ++ "color: var(--text-secondary);" ++ dq ++ ">Loading blog posts...</p>
                </div>
            ")) dom
  end.

Definition error_markup (message : string) : string :=
  "
                <div style=" ++ dq ++ "grid-column: 1 / -1; text-align: center; padding: 3rem;" ++ dq ++ ">
                    <i class=" ++ dq ++ "fas fa-exclamation-triangle" ++ dq ++ " style=" ++ dq ++ "font-size: 2rem; color: var(--accent-color); margin-bottom: 1rem;" ++ dq ++ "></i>
                    <p style=" ++ dq ++ "color: var(--text-secondary);" ++ dq ++ ">" ++ message ++ "</p>
                    <p style=" ++ dq ++ "color: var(--text-light); margin-top: 0.5rem; font-size: 0.875rem;" ++ dq ++ ">
                        Please check your internet connection and try again.
                    </p>
                </div>
            ".

Definition showError (message : string) (dom : Dom) : Dom :=
  match postsGrid dom with
  | None => dom
  | Some _ => with_postsGrid (Some (error_markup message)) dom
  end.

Definition no_posts_found : string := "No blog posts found.".

Definition failed_to_load : string :=
  "Failed to load blog posts. Please try again later.".

(** [init()]; the handler is entered when [renderPosts] throws, and then
    [initCategoryFilter] is not reached; it is not reached either when
    there is no post. *)
Definition init (self : BlogLoader) (dom : Dom) : BlogLoader * Dom :=
  let dom1 := showLoading dom in
  let '(_, self1, _) := fetchAllPosts newDate formatDate net index self in
  match posts self1 with
  | [] => (self1, showError no_posts_found dom1)
  | first :: _ =>
      let dom2 := renderFeaturedArticle self1 (Some first) dom1 in
      match renderPosts month_and_year self1 (postsGrid dom2) with
      | Some grid => (self1, initCategoryFilter (with_postsGrid grid dom2))
      | None => (self1, showError failed_to_load dom2)
      end
  end.

(** A click on the [k]-th category button.  Without the handler of
    [initCategoryFilter] nothing happens.  With it, that button alone is
    active, its category is selected and the grid is drawn again; [None] is
    an exception of [renderPosts], which nothing catches here. *)
Definition activate (k : nat) (buttons : list Button) : list Button :=
  map (fun '(i, b) => mkButton (data_category b) (i =? k)%nat)
      (combine (seq 0 (List.length buttons)) buttons).

Definition click (k : nat) (self : BlogLoader) (dom : Dom)
  : option (BlogLoader * Dom) :=
  match nth_error (categoryButtons dom) k with
  | None => Some (self, dom)
  | Some btn =>
      if filterInstalled dom then
        let dom1 :=
          with_categoryButtons (activate k (categoryButtons dom)) dom in
        let self1 := select_category (data_category btn) self in
        match renderPosts month_and_year self1 (postsGrid dom1) with
        | Some grid => Some (self1, with_postsGrid grid dom1)
        | None => None
        end
      else Some (self, dom)
  end.

(** The second listener: the blog page gets [init], the home page
    [initHomepage], any other page nothing. *)
Definition on_load (dom : Dom) : BlogLoader * Dom :=
  let blogLoader := new_loader in
  let isBlogPage := blog_posts dom in
  let isHomepage := match newsGrid dom with Some _ => true | None => false end in
  if isBlogPage then init blogLoader dom
  else if isHomepage then initHomepage blogLoader dom
  else (blogLoader, dom).

End WithBrowser.

End BlogPage.

(* ===================================================================== *)
(** ** The date shown with a post ([formatDate]) *)
(* ===================================================================== *)

Module DateText.

Import Blog.

Local Open Scope string_scope.

(** The own properties of the table [months] of [formatDate]. *)
Definition full_month (key : string) : option string :=
  if String.eqb key "Jan" then Some "January"
  else if String.eqb key "Feb" then Some "February"
  else if String.eqb key "Mar" then Some "March"
  else if String.eqb key "Apr" then Some "April"
  else if String.eqb key "May" then Some "May"
  else if String.eqb key "Jun" then Some "June"
  else if String.eqb key "Jul" then Some "July"
  else if String.eqb key "Aug" then Some "August"
  else if String.eqb key "Sep" then Some "September"
  else if String.eqb key "Oct" then Some "October"
  else if String.eqb key "Nov" then Some "November"
  else if String.eqb key "Dec" then Some "December"
  else None.

Section WithBrowser.

Variable newDate : string -> option DateObj.
(** [date.toLocaleDateString('en-US', {year, month: 'long', day})] *)
Variable long_date : DateObj -> string.
(** The table is an object literal: a key that is no month but names a
    member of [Object.prototype] (such as [constructor]) finds that member,
    which is truthy; this is its text inside a template literal. *)
Variable inherited : string -> option string.

(** [months[key]], when truthy, as the template literal shows it. *)
Definition months_entry (key : string) : option string :=
  match full_month key with
  | Some name => Some name
  | None => inherited key
  end.

(** [formatDate(dateString)]; nothing in the [try] block throws. *)
Definition formatDate (dateString : option string) : string :=
  match dateString with
  | None => ""
  | Some s =>
      if String.eqb s "" then ""
      else if JS.test re_month_day_year s then
        match JS.split_char " " s with
        | p0 :: p1 :: p2 :: _ =>
            match months_entry p0 with
            | Some name => name ++ " " ++ p1 ++ " " ++ p2
            | None => s
            end
        | _ => s
        end
      else
        match newDate s with
        | Some date => long_date date
        | None => s
        end
  end.

End WithBrowser.

End DateText.

(* ===================================================================== *)
(** ** The lines of a front matter ([parseFrontMatter]) *)
(* ===================================================================== *)

Module FrontMatter.

Local Open Scope string_scope.

(** [s.indexOf(c)] for a one-character string; [None] is [-1]. *)
Fixpoint indexOf (c : ascii) (s : string) : option nat :=
  match s with
  | EmptyString => None
  | String x t =>
      if Ascii.eqb x c then Some 0%nat
      else option_map S (indexOf c t)
  end.

(** [s.slice(1, -1)] *)
Definition slice_1_minus_1 (s : string) : string :=
  JS.take (String.length s - 2) (JS.drop 1 s).

Definition quoted_with (q value : string) : bool :=
  JS.startsWith value q && JS.endsWith value q.

(** The callback of [frontMatterText.split('\n').forEach]: the entry the
    assignment [frontMatter[key] = value] adds to the object, if any.
    [frontMatter] is an object literal: an assignment to the key
    [__proto__] goes to the accessor of [Object.prototype], which ignores a
    value that is a string, and adds no entry; every other key, the empty
    one and the names of inherited members included, becomes an own
    property. *)
Definition entry_of_line (line : string) : option (string * string) :=
  match indexOf ":" line with
  | Some colonIndex =>
      if (0 <? colonIndex)%nat then
        let key := JS.trim (JS.take colonIndex line) in
        let value := JS.trim (JS.drop (colonIndex + 1) line) in
        let value :=
          if quoted_with Blog.dq value || quoted_with "'" value
          then slice_1_minus_1 value else value in
        if String.eqb key "__proto__" then None
        else Some (key, value)
      else None
  | None => None
  end.

End FrontMatter.

(* ===================================================================== *)
(** * Properties *)
(* ===================================================================== *)

Local Open Scope string_scope.

(* --------------------------------------------------------------------- *)
(** ** The expressions of the scraper on sample texts *)
(* --------------------------------------------------------------------- *)

Example re_post_path_samples :
  map (JS.test Blog.re_post_path)
      ["/2025/01/07/my-post"; "https://blog.mlc.ai/2024/05/01/x"; "/about";
       "/2025/1/7/short"; "null"; "/12345/67/89"]
  = [true; true; false; false; false; true].
Proof. reflexivity. Qed.

Example looks_like_date_samples :
  map Blog.looks_like_date
      ["Jan 7, 2025"; "January 7, 2025"; "circa 2025 edition"; "MLC Team";
       "7 min read"; ""]
  = [true; true; true; false; false; false].
Proof. reflexivity. Qed.

Example split_ws_samples :
  map JS.split_ws ["jan 7 2025"; " jan  7"; "jan "; ""]
  = [["jan"; "7"; "2025"]; [""; "jan"; "7"]; ["jan"; ""]; [""]].
Proof. reflexivity. Qed.

(* --------------------------------------------------------------------- *)
(** ** Categories *)
(* --------------------------------------------------------------------- *)

Section Categories.

Import Blog.

(** The keywords [determineCategory] looks for in the title. *)
Definition title_keywords : list string :=
  ["tutorial"; "guide"; "how to"; "optimization"; "optimizing"; "performance";
   "deployment"; "deploy"; "serving"; "mobile"; "android"; "gpu";
   "research"; "paper"; "study"].

Definition fixed_categories : list string :=
  ["tutorials"; "optimization"; "deployment"; "research"].

Lemma determineCategory_body_irrelevant (title b1 b2 : string) :
  determineCategory title b1 = determineCategory title b2.
Proof. reflexivity. Qed.

Lemma determineCategory_fixed (title body : string) :
  In (determineCategory title body) fixed_categories.
Proof.
  unfold determineCategory, fixed_categories.
  repeat match goal with
         | |- context [if ?b then _ else _] => destruct b
         end; simpl; tauto.
Qed.

Lemma determineCategory_default (title body : string) :
  (forall k, In k title_keywords -> JS.includes (JS.toLowerCase title) k = false) ->
  determineCategory title body = "deployment".
Proof.
  intros Hno. unfold determineCategory.
  rewrite !Hno by (unfold title_keywords; simpl; tauto).
  reflexivity.
Qed.

(** C9. The category depends on the title alone: two bodies give the same
    category for one title; the category is one of [tutorials],
    [optimization], [deployment], [research]; and it is [deployment] when
    the lower-cased title contains none of the keywords. *)
Theorem determineCategory_title_only :
  forall title b1 b2 : string,
    determineCategory title b1 = determineCategory title b2
    /\ In (determineCategory title b1) fixed_categories
    /\ ((forall k, In k title_keywords ->
                   JS.includes (JS.toLowerCase title) k = false) ->
        determineCategory title b1 = "deployment").
Proof.
  intros title b1 b2. split; [| split].
  - apply determineCategory_body_irrelevant.
  - apply determineCategory_fixed.
  - apply determineCategory_default.
Qed.

End Categories.

Example determineCategory_guide :
  Blog.determineCategory "A Guide to GPU Serving" "research paper" = "tutorials".
Proof. reflexivity. Qed.

Example determineCategory_fallback :
  Blog.determineCategory "WebLLM: in-browser inference" "a tutorial" = "deployment".
Proof. reflexivity. Qed.

(* --------------------------------------------------------------------- *)
(** ** Enrichment of one post *)
(* --------------------------------------------------------------------- *)

Section Enrichment.

Import Blog.

Variable net : string -> FetchResult PostPage.

(** The fields a scraped post carries before enrichment. *)
Definition same_scraped_fields (p q : Post) : Prop :=
  title q = title p /\ url q = url p /\ date q = date p
  /\ formattedDate q = formattedDate p /\ rawDate q = rawDate p.

(** X4. A rejected fetch takes the [catch] path: the scraped fields stay
    and the defaults are added. *)
Lemma enrichPostData_network_error (post : Post) :
  net (url post) = NetworkError ->
  let q := enrichPostData net post in
  same_scraped_fields post q
  /\ excerpt q = Some default_excerpt
  /\ category q = Some (determineCategory (title post) "")
  /\ readTime q = Some "5 min read".
Proof.
  intros Hnet. unfold enrichPostData. rewrite Hnet.
  unfold same_scraped_fields. simpl. repeat split; reflexivity.
Qed.

(** C3, the path that misses the defaults: when the post's page answers
    with a non-success status, [enrichPostData] returns the post object
    itself; a scraped post, which has no excerpt, category and read time,
    comes back without them. *)
Theorem enrichPostData_bad_status_no_defaults :
  forall (post : Post) (status : Z) (body : option PostPage),
    net (url post) = Response false status body ->
    enrichPostData net post = post
    /\ (excerpt post = None -> excerpt (enrichPostData net post) = None)
    /\ (category post = None -> category (enrichPostData net post) = None)
    /\ (readTime post = None -> readTime (enrichPostData net post) = None).
Proof.
  intros post status body Hnet.
  assert (Hsame : enrichPostData net post = post).
  { unfold enrichPostData. rewrite Hnet. reflexivity. }
  rewrite Hsame. tauto.
Qed.

End Enrichment.

(** A scraped post and a site that answers every page with 404. *)
Definition sample_post : Blog.Post :=
  Blog.mkPost "Scaling WebLLM" "https://blog.mlc.ai/2025/01/07/scaling-webllm"
              (Some "2025-01-07") "January 7, 2025" (Some "Jan 7, 2025")
              None None None.

Definition always_404 : string -> FetchResult Blog.PostPage :=
  fun _ => Response false 404 None.

Lemma enrichPostData_bad_status_witness :
  Blog.enrichPostData always_404 sample_post = sample_post
  /\ Blog.category (Blog.enrichPostData always_404 sample_post) = None.
Proof.
  destruct (@enrichPostData_bad_status_no_defaults always_404 sample_post 404 None
              eq_refl) as (Hsame & _ & Hcat & _).
  split; [exact Hsame | exact (Hcat eq_refl)].
Defined.

(** The card of such a post cannot be drawn: [renderPostCard] throws. *)
Example bare_post_card_throws (month_and_year : string -> string) :
  Blog.renderPostCard month_and_year
    (Blog.enrichPostData always_404 sample_post) = None.
Proof. reflexivity. Qed.

(* --------------------------------------------------------------------- *)
(** ** The partial includer *)
(* --------------------------------------------------------------------- *)

Section IncluderFacts.

Import Includer.

Variable net : string -> FetchResult string.
Variable pathname : string.
Variable nav_links_of : string -> list NavLink.
Variable initNav : option (list NavLink -> option (list NavLink)).

(** The content a container ends with: the body of the response when the
    fetch resolved and its body could be read, whatever the status; the old
    content otherwise. *)
Definition content_after (old : string) (r : FetchResult string) : string :=
  match r with
  | Response _ _ (Some html) => html
  | _ => old
  end.

Lemma setActiveNavLink_containers (pg : Page) :
  site_header (setActiveNavLink pathname pg) = site_header pg
  /\ site_footer (setActiveNavLink pathname pg) = site_footer pg.
Proof. split; reflexivity. Qed.

Lemma loadHeader_spec (pg : Page) (old : string) :
  site_header pg = Some old ->
  let '(p, pg') := loadHeader net pathname nav_links_of initNav pg in
  p = Fulfilled tt
  /\ site_header pg' = Some (content_after old (net "partials/header.html"))
  /\ site_footer pg' = site_footer pg.
Proof.
  intros Hold. unfold loadHeader. rewrite Hold.
  unfold catch_ignore, then_, fetch, text, install_header, content_after.
  destruct (net "partials/header.html") as [| ok status [html |]]; simpl.
  - auto.
  - destruct initNav as [hook |]; simpl.
    + destruct (hook (nav_links_of html)); simpl; auto.
    + auto.
  - auto.
Qed.

Lemma loadFooter_spec (pg : Page) (old : string) :
  site_footer pg = Some old ->
  let '(p, pg') := loadFooter net pg in
  p = Fulfilled tt
  /\ site_footer pg' = Some (content_after old (net "partials/footer.html"))
  /\ site_header pg' = site_header pg.
Proof.
  intros Hold. unfold loadFooter. rewrite Hold.
  unfold catch_ignore, then_, fetch, text, install_footer, content_after.
  destruct (net "partials/footer.html") as [| ok status [html |]]; simpl; auto.
Qed.

(** C5, as the code has it.  Each of the two chains ends fulfilled (no
    error surfaces).  When the fetch rejects, or the body cannot be read,
    the container keeps its content; when the fetch resolves, with a success
    status or not, the container's content is replaced with the body of the
    response.  Neither chain touches the other container. *)
Theorem includer_containers :
  forall (pg : Page) (old_header old_footer : string),
    site_header pg = Some old_header ->
    site_footer pg = Some old_footer ->
    (let '(p, pg') := loadHeader net pathname nav_links_of initNav pg in
     p = Fulfilled tt
     /\ site_header pg' = Some (content_after old_header (net "partials/header.html"))
     /\ site_footer pg' = site_footer pg)
    /\ (let '(p, pg') := loadFooter net pg in
        p = Fulfilled tt
        /\ site_footer pg' = Some (content_after old_footer (net "partials/footer.html"))
        /\ site_header pg' = site_header pg)
    /\ site_header (includer net pathname nav_links_of initNav pg)
       = Some (content_after old_header (net "partials/header.html"))
    /\ site_footer (includer net pathname nav_links_of initNav pg)
       = Some (content_after old_footer (net "partials/footer.html")).
Proof.
  intros pg oh ofo Hh Hf.
  pose proof (loadHeader_spec pg Hh) as H1.
  pose proof (loadFooter_spec pg Hf) as H2.
  split; [exact H1 | split; [exact H2 |]].
  unfold includer.
  destruct (loadHeader net pathname nav_links_of initNav pg) as [p1 pg1].
  destruct H1 as (_ & Hh1 & Hf1).
  assert (Hf' : site_footer pg1 = Some ofo) by congruence.
  pose proof (loadFooter_spec pg1 Hf') as H3.
  destruct (loadFooter net pg1) as [p2 pg2].
  destruct H3 as (_ & Hf2 & Hh2).
  split; congruence.
Qed.

End IncluderFacts.

(** A page with both containers, and a server that has lost the header
    fragment: the request resolves with status 404 and an error page. *)
Definition sample_page : Includer.Page :=
  Includer.mkPage (Some "<nav>placeholder</nav>") (Some "") [].

Definition header_missing (target : string) : FetchResult string :=
  if String.eqb target "partials/header.html"
  then Response false 404 (Some "<h1>Not Found</h1>")
  else NetworkError.

Definition no_nav_links : string -> list Includer.NavLink := fun _ => [].

(** C5 as stated fails: on a non-success status the header container does
    not keep its content, it receives the body of the error response. *)
Lemma includer_bad_status_replaces_content :
  header_missing "partials/header.html" = Response false 404 (Some "<h1>Not Found</h1>")
  /\ Includer.site_header sample_page = Some "<nav>placeholder</nav>"
  /\ Includer.site_header
       (snd (Includer.loadHeader header_missing "/index.html" no_nav_links None
                                 sample_page))
     = Some "<h1>Not Found</h1>".
Proof. repeat split. Qed.

Lemma includer_containers_witness :
  Includer.site_header
    (Includer.includer header_missing "/index.html" no_nav_links None sample_page)
  = Some "<h1>Not Found</h1>"
  /\ Includer.site_footer
       (Includer.includer header_missing "/index.html" no_nav_links None sample_page)
     = Some "".
Proof.
  destruct (@includer_containers header_missing "/index.html" no_nav_links None
              sample_page "<nav>placeholder</nav>" "" eq_refl eq_refl)
    as (_ & _ & Hh & Hf).
  split; [exact Hh | exact Hf].
Defined.

(* --------------------------------------------------------------------- *)
(** ** The statistics loader: no repository, no lookup *)
(* --------------------------------------------------------------------- *)

Section StatsFacts.

Import GitHubStats.

Variable projects_page : FetchResult Document.
Variable api : string -> FetchResult RepoData.

(** Extraction issues the one request for the projects page. *)
Lemma extractGitHubRepos_requests (w : World) :
  requests (snd (extractGitHubRepos projects_page w))
  = (requests w ++ [GetProjectsPage])%list.
Proof.
  unfold extractGitHubRepos, bind, http, set_repos, ret.
  destruct projects_page as [| [|] status [doc |]]; reflexivity.
Qed.

(** After extraction the loader holds what extraction returned, or what it
    held before when extraction returned nothing. *)
Lemma extractGitHubRepos_repos (w : World) :
  fst (extractGitHubRepos projects_page w) = [] ->
  repos (this w) = [] ->
  repos (this (snd (extractGitHubRepos projects_page w))) = [].
Proof.
  unfold extractGitHubRepos, bind, http, set_repos, ret.
  destruct projects_page as [| [|] status [doc |]]; simpl; auto.
Qed.

(** C7. When the loader holds no repository and extraction finds none,
    [fetchAllStats] returns [{stars: 0, forks: 0}], and the only request of
    the call is the one for the projects page: no repository is looked up. *)
Theorem fetchAllStats_no_repos :
  forall w : World,
    repos (this w) = [] ->
    fst (extractGitHubRepos projects_page w) = [] ->
    fst (fetchAllStats projects_page api w) = mkTotals 0 0
    /\ requests (snd (fetchAllStats projects_page api w))
       = (requests w ++ [GetProjectsPage])%list
    /\ (forall repoPath,
          In (GetRepo repoPath) (requests (snd (fetchAllStats projects_page api w))) ->
          In (GetRepo repoPath) (requests w)).
Proof.
  intros w Hempty Hnone.
  pose proof (extractGitHubRepos_requests w) as Hreq.
  pose proof (extractGitHubRepos_repos w Hnone Hempty) as Hrep.
  assert (Hrun : fetchAllStats projects_page api w
                 = (mkTotals 0 0, snd (extractGitHubRepos projects_page w))).
  { unfold fetchAllStats, bind, get_repos, ret. rewrite Hempty. simpl.
    destruct (extractGitHubRepos projects_page w) as [found w1]. simpl in *.
    rewrite Hrep. reflexivity. }
  rewrite Hrun. simpl. rewrite Hreq.
  split; [reflexivity | split; [reflexivity |]].
  intros repoPath Hin. apply in_app_or in Hin.
  destruct Hin as [Hin | [Hin | []]]; [exact Hin | discriminate Hin].
Qed.

End StatsFacts.

(** A projects page without repository links. *)
Definition page_without_repos : FetchResult GitHubStats.Document :=
  Response true 200
    (Some [GitHubStats.mkAnchor (Some "https://mlc.ai/");
           GitHubStats.mkAnchor (Some "https://github.com/mlc-ai");
           GitHubStats.mkAnchor None]).

Definition fresh_world : GitHubStats.World :=
  GitHubStats.mkWorld GitHubStats.new_loader [].

(** An API that is never reached. *)
Definition api_offline : string -> FetchResult GitHubStats.RepoData :=
  fun _ => NetworkError.

Lemma fetchAllStats_no_repos_witness :
  fst (GitHubStats.fetchAllStats page_without_repos api_offline fresh_world)
  = GitHubStats.mkTotals 0 0
  /\ GitHubStats.requests
       (snd (GitHubStats.fetchAllStats page_without_repos api_offline fresh_world))
     = [GitHubStats.GetProjectsPage].
Proof.
  destruct (@fetchAllStats_no_repos page_without_repos api_offline fresh_world
              eq_refl eq_refl) as (Htotals & Hreq & _).
  split; [exact Htotals | exact Hreq].
Defined.

(* --------------------------------------------------------------------- *)
(** ** The post grid *)
(* --------------------------------------------------------------------- *)

Section GridFacts.

Import Blog.

(** The posts of category [c]. *)
Definition in_category (c : string) (post : Post) : bool :=
  option_string_eqb (category post) (Some c).

Lemma filteredPosts_category (self : BlogLoader) (c : string) :
  currentCategory self = Some c ->
  c <> "all" ->
  filteredPosts self = filter (in_category c) (posts self).
Proof.
  intros Hcur Hc. unfold filteredPosts. rewrite Hcur. simpl.
  destruct (String.eqb_spec c "all") as [E | _]; [contradiction |].
  reflexivity.
Qed.

(** C10. [renderPosts] draws the selected list without its first element.
    With a category [c] other than [all] selected, let [p] be the most
    recent post of that category and [rest] the others: the grid shows
    exactly [rest].  When [p] is not the featured post (the first post of
    all) and occurs once in its category, [p] is neither in the grid nor in
    the featured block. *)
Theorem renderPosts_drops_first_of_category :
  forall (self : BlogLoader) (c : string) (p : Post) (rest : list Post),
    currentCategory self = Some c ->
    c <> "all" ->
    filter (in_category c) (posts self) = p :: rest ->
    featured self <> Some p ->
    ~ In p rest ->
    postsToRender self = rest
    /\ ~ In p (postsToRender self)
    /\ featured (select_category (Some c) self) <> Some p
    /\ (forall (month_and_year : string -> string) (old : string),
          renderPosts month_and_year self (Some old)
          = match rest with
            | [] => Some (Some no_posts_message)
            | _ => option_map (fun cards => Some (JS.join cards))
                              (render_cards month_and_year rest)
            end).
Proof.
  intros self c p rest Hcur Hc Hfilter Hfeat Hnotin.
  assert (Hrender : postsToRender self = rest).
  { unfold postsToRender. rewrite (filteredPosts_category self Hcur Hc), Hfilter.
    reflexivity. }
  split; [exact Hrender | split; [rewrite Hrender; exact Hnotin | split]].
  - exact Hfeat.
  - intros my old. unfold renderPosts. rewrite Hrender.
    destruct rest as [| q rest']; [reflexivity |].
    destruct (render_cards my (q :: rest')); reflexivity.
Qed.

End GridFacts.

(** Three enriched posts, newest first; the second is the only tutorial. *)
Definition post_release : Blog.Post :=
  Blog.mkPost "MLC release" "https://blog.mlc.ai/2025/03/01/release"
              (Some "2025-03-01") "March 1, 2025" (Some "Mar 1, 2025")
              (Some "Release notes.") (Some "deployment") (Some "3 min read").

Definition post_guide : Blog.Post :=
  Blog.mkPost "A guide to WebLLM" "https://blog.mlc.ai/2025/01/07/guide"
              (Some "2025-01-07") "January 7, 2025" (Some "Jan 7, 2025")
              (Some "Step by step.") (Some "tutorials") (Some "3 min read").

Definition post_android : Blog.Post :=
  Blog.mkPost "LLMs on Android" "https://blog.mlc.ai/2024/05/01/android"
              (Some "2024-05-01") "May 1, 2024" (Some "May 1, 2024")
              (Some "On device.") (Some "deployment") (Some "3 min read").

Definition loader_on_tutorials : Blog.BlogLoader :=
  Blog.mkBlogLoader [post_release; post_guide; post_android]
                    [Some "deployment"; Some "tutorials"] (Some "tutorials").

Lemma string_neq_by_eqb (a b : string) : String.eqb a b = false -> a <> b.
Proof. intros H E. apply String.eqb_eq in E. congruence. Qed.

Lemma renderPosts_drops_first_of_category_witness :
  Blog.postsToRender loader_on_tutorials = []
  /\ Blog.featured loader_on_tutorials = Some post_release
  /\ Blog.renderPosts (fun _ => "January 2025") loader_on_tutorials (Some "")
     = Some (Some Blog.no_posts_message).
Proof.
  assert (Hfeat : Blog.featured loader_on_tutorials <> Some post_guide)
    by (cbv; discriminate).
  destruct (@renderPosts_drops_first_of_category loader_on_tutorials "tutorials"
              post_guide [] eq_refl (@string_neq_by_eqb "tutorials" "all" eq_refl) eq_refl
              Hfeat (fun H => H))
    as (Hgrid & _ & _ & Hhtml).
  split; [exact Hgrid | split; [reflexivity | exact (Hhtml _ "")]].
Defined.

(* --------------------------------------------------------------------- *)
(** ** Date normalisation *)
(* --------------------------------------------------------------------- *)

Section Dates.

Import Blog.

Variable newDate : string -> option DateObj.

(** The engine either rejects the text or reads it as the given day. *)
Definition rejects_or_reads (s : string) (y m d : Z) : Prop :=
  match newDate s with
  | None => True
  | Some o => getFullYear o = y /\ getMonth o = m /\ getDate o = d
  end.

Lemma parseDateString_jan_7_2025 :
  rejects_or_reads "Jan 7, 2025" 2025 0 7 ->
  parseDateString newDate (Some "Jan 7, 2025") = Some "2025-01-07".
Proof.
  unfold rejects_or_reads, parseDateString. simpl.
  destruct (newDate "Jan 7, 2025") as [o |].
  - intros (-> & -> & ->). reflexivity.
  - intros _. reflexivity.
Qed.

Lemma parseDateString_january_7_2025 :
  rejects_or_reads "January 7, 2025" 2025 0 7 ->
  parseDateString newDate (Some "January 7, 2025") = Some "2025-01-07".
Proof.
  unfold rejects_or_reads, parseDateString. simpl.
  destruct (newDate "January 7, 2025") as [o |].
  - intros (-> & -> & ->). reflexivity.
  - intros _. reflexivity.
Qed.

(** The pieces the manual parse works on. *)
Definition manual_parts (s : string) : list string :=
  JS.split_ws (JS.remove_first_comma (JS.toLowerCase s)).

(** X2. When [parseDateString] returns [null]: on an empty text, and on a
    text the engine rejects that has fewer than three pieces.  Whether the
    first piece names a month is not looked at. *)
Lemma parseDateString_null_iff (s : string) :
  parseDateString newDate (Some s) = None
  <-> s = "" \/ (newDate s = None /\ (List.length (manual_parts s) < 3)%nat).
Proof.
  unfold parseDateString, manual_parts.
  destruct (String.eqb_spec s "") as [-> | Hne].
  - split; auto.
  - destruct (newDate s) as [o |].
    + split; [discriminate | intros [E | [E _]]; [contradiction | discriminate]].
    + destruct (JS.split_ws (JS.remove_first_comma (JS.toLowerCase s)))
        as [| p0 [| p1 [| p2 rest]]]; simpl.
      * split; [intros _; right; split; [reflexivity | lia] | reflexivity].
      * split; [intros _; right; split; [reflexivity | lia] | reflexivity].
      * split; [intros _; right; split; [reflexivity | lia] | reflexivity].
      * split; [discriminate | intros [E | [_ E]]; [contradiction | lia]].
Qed.

(** Three pieces are enough for a result, whatever they are. *)
Lemma parseDateString_odd_text :
  newDate "circa 2025 edition" = None ->
  parseDateString newDate (Some "circa 2025 edition") = Some "edition-undefined-2025".
Proof.
  intros Hrej. unfold parseDateString. simpl. rewrite Hrej. reflexivity.
Qed.

(** C2, the second half fails on the code: a text that is no date for the
    engine and names no month still gets a string, built from its third
    piece, the word [undefined] and its second piece. *)
Theorem parseDateString_unparsable_not_null :
  newDate "circa 2025 edition" = None ->
  months (JS.take 3 "circa") = None
  /\ parseDateString newDate (Some "circa 2025 edition")
     = Some "edition-undefined-2025".
Proof.
  intros Hrej. split; [reflexivity | apply parseDateString_odd_text, Hrej].
Qed.

End Dates.

(** An engine that accepts the two spellings of 7 January 2025 and the ISO
    form, and rejects every other text. *)
Definition jan_7_2025 : Blog.DateObj := Blog.mkDate 1736208000000 2025 0 7.

Definition strict_engine (s : string) : option Blog.DateObj :=
  if String.eqb s "Jan 7, 2025" || String.eqb s "January 7, 2025"
     || String.eqb s "2025-01-07"
  then Some jan_7_2025 else None.

Lemma parseDateString_unparsable_witness :
  Blog.parseDateString strict_engine (Some "circa 2025 edition")
  = Some "edition-undefined-2025".
Proof.
  exact (proj2 (@parseDateString_unparsable_not_null strict_engine eq_refl)).
Defined.

(** X1. Both spellings of the sample date normalise to the ISO form, on an
    engine that reads them and on one that rejects them. *)
Lemma parseDateString_both_spellings (newDate : string -> option Blog.DateObj) :
  rejects_or_reads newDate "Jan 7, 2025" 2025 0 7 ->
  rejects_or_reads newDate "January 7, 2025" 2025 0 7 ->
  Blog.parseDateString newDate (Some "Jan 7, 2025") = Some "2025-01-07"
  /\ Blog.parseDateString newDate (Some "January 7, 2025") = Some "2025-01-07".
Proof.
  intros H1 H2. split.
  - apply parseDateString_jan_7_2025, H1.
  - apply parseDateString_january_7_2025, H2.
Qed.

Lemma parseDateString_both_spellings_witness :
  Blog.parseDateString (fun _ => None) (Some "Jan 7, 2025") = Some "2025-01-07"
  /\ Blog.parseDateString (fun _ => None) (Some "January 7, 2025")
     = Some "2025-01-07".
Proof.
  exact (@parseDateString_both_spellings (fun _ => None) I I).
Defined.

(* --------------------------------------------------------------------- *)
(** ** The order of the scraped posts *)
(* --------------------------------------------------------------------- *)

Section SortFacts.

Import Blog.

Variable newDate : string -> option DateObj.

Definition dated (p : Post) : bool := JS.truthy (date p).

(** A post is well dated when it has no date, or a date the engine reads. *)
Definition well_dated (p : Post) : Prop :=
  dated p = true -> exists t, time_value newDate (date p) = Num t.

(** The time a post is sorted by; [None] for a post without a date. *)
Definition rank (p : Post) : option Z :=
  if dated p then
    match time_value newDate (date p) with
    | Num t => Some t
    | NaN => None
    end
  else None.

(** Newest first, undated last. *)
Definition in_order (a b : option Z) : bool :=
  match a, b with
  | Some ta, Some tb => (tb <=? ta)%Z
  | Some _, None => true
  | None, Some _ => false
  | None, None => true
  end.

Definition posts_in_order (p q : Post) : Prop :=
  in_order (rank p) (rank q) = true.

Definition same_rank (k : option Z) (p : Post) : bool :=
  match rank p, k with
  | Some a, Some b => (a =? b)%Z
  | None, None => true
  | _, _ => false
  end.

Lemma in_order_refl (a : option Z) : in_order a a = true.
Proof. destruct a; simpl; [apply Z.leb_refl | reflexivity]. Qed.

Lemma in_order_trans (a b c : option Z) :
  in_order a b = true -> in_order b c = true -> in_order a c = true.
Proof.
  destruct a, b, c; simpl; try congruence; try reflexivity.
  rewrite !Z.leb_le. lia.
Qed.

Lemma in_order_total (a b : option Z) :
  in_order a b = false -> in_order b a = true.
Proof.
  destruct a, b; simpl; try congruence; try reflexivity.
  rewrite Z.leb_gt, Z.leb_le. lia.
Qed.

(** On well dated posts the comparator is positive exactly when its first
    argument has to go after its second. *)
Lemma by_date_desc_positive (x y : Post) :
  well_dated x -> well_dated y ->
  positive_result (by_date_desc newDate x y)
  = negb (in_order (rank x) (rank y)).
Proof.
  unfold well_dated, by_date_desc, rank, dated. intros Hx Hy.
  destruct (JS.truthy (date x)), (JS.truthy (date y)); simpl.
  - destruct (Hx eq_refl) as [tx ->]. destruct (Hy eq_refl) as [ty ->]. simpl.
    destruct (Z.ltb_spec 0 (ty - tx)), (Z.leb_spec ty tx);
      simpl; try reflexivity; lia.
  - destruct (time_value newDate (date x)); reflexivity.
  - destruct (Hy eq_refl) as [ty ->]. reflexivity.
  - reflexivity.
Qed.

Lemma insert_perm (x : Post) (l : list Post) :
  Permutation (x :: l) (insert (by_date_desc newDate) x l).
Proof.
  induction l as [| y t IH]; simpl.
  - apply Permutation_refl.
  - destruct (positive_result (by_date_desc newDate x y)).
    + eapply perm_trans; [apply perm_swap |]. apply perm_skip, IH.
    + apply Permutation_refl.
Qed.

Lemma sortPosts_perm (l : list Post) : Permutation l (sortPosts newDate l).
Proof.
  unfold sortPosts. induction l as [| x t IH]; simpl.
  - apply perm_nil.
  - eapply perm_trans; [apply perm_skip, IH | apply insert_perm].
Qed.

Lemma insert_sorted (x : Post) (l : list Post) :
  well_dated x -> Forall well_dated l ->
  StronglySorted posts_in_order l ->
  StronglySorted posts_in_order (insert (by_date_desc newDate) x l).
Proof.
  intros Hx Hl Hs. induction Hs as [| y t Hs IH Hy]; simpl.
  - constructor; constructor.
  - inversion Hl as [| ? ? Hwy Hwt]; subst.
    rewrite (by_date_desc_positive Hx Hwy).
    destruct (in_order (rank x) (rank y)) eqn:Hxy; simpl.
    + constructor; [constructor; assumption |].
      constructor; [exact Hxy |].
      eapply Forall_impl; [| exact Hy].
      intros z Hyz. unfold posts_in_order in *.
      eapply in_order_trans; eassumption.
    + constructor; [apply IH; assumption |].
      eapply Permutation_Forall; [apply insert_perm |].
      constructor; [| exact Hy].
      apply in_order_total, Hxy.
Qed.

Lemma sortPosts_sorted (l : list Post) :
  Forall well_dated l -> StronglySorted posts_in_order (sortPosts newDate l).
Proof.
  unfold sortPosts. induction 1 as [| x t Hx Ht IH]; simpl.
  - constructor.
  - apply insert_sorted; [exact Hx | | exact IH].
    eapply Permutation_Forall; [apply sortPosts_perm | exact Ht].
Qed.

Lemma same_rank_in_order (k : option Z) (x y : Post) :
  same_rank k x = true -> same_rank k y = true ->
  in_order (rank x) (rank y) = true.
Proof.
  unfold same_rank. destruct (rank x), (rank y), k; simpl; try congruence.
  rewrite !Z.eqb_eq, Z.leb_le. lia.
Qed.

(** Insertion keeps the posts of one rank in the order they had, the new
    post first. *)
Lemma insert_stable (k : option Z) (x : Post) (l : list Post) :
  well_dated x -> Forall well_dated l ->
  filter (same_rank k) (insert (by_date_desc newDate) x l)
  = filter (same_rank k) (x :: l).
Proof.
  intros Hx Hl. induction Hl as [| y t Hy Ht IH]; [reflexivity |].
  simpl insert. rewrite (by_date_desc_positive Hx Hy).
  destruct (in_order (rank x) (rank y)) eqn:Hxy; simpl negb; cbv iota.
  - reflexivity.
  - change (filter (same_rank k) (y :: insert (by_date_desc newDate) x t))
      with (if same_rank k y
            then y :: filter (same_rank k) (insert (by_date_desc newDate) x t)
            else filter (same_rank k) (insert (by_date_desc newDate) x t)).
    rewrite IH. simpl.
    destruct (same_rank k x) eqn:Ekx, (same_rank k y) eqn:Eky; try reflexivity.
    rewrite (same_rank_in_order k x y Ekx Eky) in Hxy. discriminate.
Qed.

Lemma sortPosts_stable (k : option Z) (l : list Post) :
  Forall well_dated l ->
  filter (same_rank k) (sortPosts newDate l) = filter (same_rank k) l.
Proof.
  unfold sortPosts. induction 1 as [| x t Hx Ht IH].
  - reflexivity.
  - simpl sort. rewrite insert_stable.
    + simpl. rewrite IH. reflexivity.
    + exact Hx.
    + eapply Permutation_Forall; [apply sortPosts_perm | exact Ht].
Qed.

(** X3. The order of [fetchPostsFromBlog] when every date is one the
    engine reads: the scraped posts, newest first, the undated ones last,
    and the posts of one time, or without a date, in scrape order. *)
Lemma sortPosts_well_dated (l : list Post) :
  Forall well_dated l ->
  Permutation l (sortPosts newDate l)
  /\ StronglySorted posts_in_order (sortPosts newDate l)
  /\ (forall k, filter (same_rank k) (sortPosts newDate l)
                = filter (same_rank k) l).
Proof.
  intros Hl. split; [apply sortPosts_perm | split].
  - apply sortPosts_sorted, Hl.
  - intros k. apply sortPosts_stable, Hl.
Qed.

End SortFacts.

(** An index page with two posts; the date text of the first one is no
    date. *)
Definition index_with_odd_date : list Blog.ListItem :=
  [Blog.mkListItem (Some ("Roadmap", Some "/2025/03/01/roadmap"))
                   ["circa 2025 edition"];
   Blog.mkListItem (Some ("Release", Some "/2025/01/07/release"))
                   ["Jan 7, 2025"]].

Section OddDate.

Import Blog.

Variable newDate : string -> option DateObj.
Variable formatDate : option string -> string.

Lemma scrape_index_with_odd_date :
  scrape newDate formatDate index_with_odd_date
  = [mkPost "Roadmap" "https://blog.mlc.ai/2025/03/01/roadmap"
            (parseDateString newDate (Some "circa 2025 edition"))
            (formatDate (JS.or_else (parseDateString newDate (Some "circa 2025 edition"))
                                    (Some "circa 2025 edition")))
            (Some "circa 2025 edition") None None None;
     mkPost "Release" "https://blog.mlc.ai/2025/01/07/release"
            (parseDateString newDate (Some "Jan 7, 2025"))
            (formatDate (JS.or_else (parseDateString newDate (Some "Jan 7, 2025"))
                                    (Some "Jan 7, 2025")))
            (Some "Jan 7, 2025") None None None].
Proof. reflexivity. Qed.

(** C4, where the code leaves the claimed order.  The first item's date
    text is no date, yet [parseDateString] gives it a date string (the
    defect of C2); the comparator then reads [NaN], which [sort] takes for
    "equal", and the post stays in front of the dated one. *)
Theorem fetchPostsFromBlog_undatable_post_first :
  newDate "circa 2025 edition" = None ->
  newDate "edition-undefined-2025" = None ->
  rejects_or_reads newDate "Jan 7, 2025" 2025 0 7 ->
  let produced :=
    fetchPostsFromBlog newDate formatDate
                       (Response true 200 (Some index_with_odd_date)) in
  option_map (map rawDate) produced
  = Some [Some "circa 2025 edition"; Some "Jan 7, 2025"]
  /\ option_map (map date) produced
     = Some [Some "edition-undefined-2025"; Some "2025-01-07"]
  /\ time_value newDate (Some "edition-undefined-2025") = NaN.
Proof.
  intros Hodd Hgarbage Hjan produced. subst produced.
  unfold fetchPostsFromBlog. rewrite scrape_index_with_odd_date.
  rewrite (parseDateString_odd_text newDate Hodd).
  rewrite (parseDateString_jan_7_2025 newDate Hjan).
  assert (Hnan : time_value newDate (Some "edition-undefined-2025") = NaN).
  { unfold time_value. rewrite Hgarbage. reflexivity. }
  unfold sortPosts. simpl sort.
  match goal with
  | |- context [positive_result ?c] =>
      assert (Hcmp : positive_result c = false)
  end.
  { unfold by_date_desc, time_value. simpl. rewrite Hgarbage.
    destruct (newDate "2025-01-07"); reflexivity. }
  rewrite !Hcmp. simpl. auto.
Qed.

End OddDate.

Lemma fetchPostsFromBlog_undatable_post_first_witness :
  option_map (map Blog.date)
    (Blog.fetchPostsFromBlog strict_engine (fun _ => "")
       (Response true 200 (Some index_with_odd_date)))
  = Some [Some "edition-undefined-2025"; Some "2025-01-07"].
Proof.
  destruct (@fetchPostsFromBlog_undatable_post_first strict_engine (fun _ => "")
              eq_refl eq_refl (conj eq_refl (conj eq_refl eq_refl)))
    as (_ & Hdates & _).
  exact Hdates.
Defined.

(* --------------------------------------------------------------------- *)
(** ** Batches of the enrichment loop *)
(* --------------------------------------------------------------------- *)

Section Batches.

Import Blog.

(** A list cut into consecutive pieces of [batchSize], the last one
    shorter when the length is no multiple. *)
Equations? chunk (l : list Post) : list (list Post) by wf (List.length l) lt :=
  chunk [] := [];
  chunk (x :: t) := firstn batchSize (x :: t) :: chunk (skipn batchSize (x :: t)).
Proof. destruct t as [| ? [| ? [| ? [| ? ?]]]]; simpl; lia. Qed.

(** The events of a run that takes the batches one after the other and
    sleeps between two of them. *)
Fixpoint schedule (batches : list (list Post)) : list Event :=
  match batches with
  | [] => []
  | b :: rest =>
      (batch_events b
       ++ match rest with
          | [] => []
          | _ :: _ => Sleep 100 :: schedule rest
          end)%list
  end.

Definition is_sleep (e : Event) : bool :=
  match e with Sleep _ => true | _ => false end.

Variable net : string -> FetchResult PostPage.

Lemma schedule_cons (b : list Post) (rest : list (list Post)) :
  schedule (b :: rest)
  = (batch_events b
     ++ match rest with
        | [] => []
        | _ :: _ => Sleep 100 :: schedule rest
        end)%list.
Proof. reflexivity. Qed.

Lemma chunk_nonempty (l : list Post) : l <> [] -> chunk l <> [].
Proof. destruct l; [congruence |]. simp chunk. discriminate. Qed.

Lemma chunk_step (l : list Post) :
  l <> [] -> chunk l = firstn batchSize l :: chunk (skipn batchSize l).
Proof. destruct l; [congruence |]. intros _. simp chunk. reflexivity. Qed.

Lemma chunk_nil_iff (l : list Post) : chunk l = [] <-> l = [].
Proof.
  split.
  - destruct l; [reflexivity |]. simp chunk. discriminate.
  - intros ->. reflexivity.
Qed.

Lemma skipn_nonempty (i : nat) (l : list Post) :
  (i < List.length l)%nat <-> skipn i l <> [].
Proof.
  split.
  - intros Hi E. apply (f_equal (@List.length Post)) in E.
    rewrite length_skipn in E. simpl in E. lia.
  - intros Hne. destruct (Nat.lt_ge_cases i (List.length l)) as [H | H]; [exact H |].
    exfalso. apply Hne. apply skipn_all2. exact H.
Qed.

(** The loop from index [i] on: it enriches the posts from [i] on, in
    order, and its events are the schedule of their batches. *)
Lemma enrichLoop_spec (scraped : list Post) (i : nat)
      (enrichedPosts : list Post) (log : list Event) :
  enrichLoop net scraped i enrichedPosts log
  = ((enrichedPosts ++ map (enrichPostData net) (skipn i scraped))%list,
     (log ++ schedule (chunk (skipn i scraped)))%list).
Proof.
  funelim (enrichLoop net scraped i enrichedPosts log).
  - (* i < length scraped *)
    match goal with IH : enrichLoop _ _ _ _ _ = (_, _) |- _ => rewrite IH end.
    assert (Hne : skipn i scraped <> []) by (apply skipn_nonempty; assumption).
    assert (Hslice : slice i (i + batchSize) scraped
                     = firstn batchSize (skipn i scraped)).
    { unfold slice. f_equal. lia. }
    assert (Hrest : skipn (i + batchSize) scraped
                    = skipn batchSize (skipn i scraped)).
    { rewrite skipn_skipn. f_equal. lia. }
    rewrite (chunk_step Hne), Hslice, Hrest.
    remember (skipn batchSize (skipn i scraped)) as later eqn:Hlater.
    remember (firstn batchSize (skipn i scraped)) as batch eqn:Hbatch.
    f_equal.
    + rewrite <- app_assoc, <- map_app. subst batch later.
      rewrite firstn_skipn. reflexivity.
    + rewrite schedule_cons, <- !app_assoc. f_equal. f_equal.
      destruct (Nat.ltb_spec (i + batchSize) (List.length scraped)) as [Hlt | Hge].
      * apply skipn_nonempty in Hlt. rewrite Hrest in Hlt.
        destruct (chunk later) eqn:E.
        -- apply chunk_nil_iff in E. contradiction.
        -- reflexivity.
      * assert (E : later = []).
        { rewrite <- Hrest. apply skipn_all2. exact Hge. }
        rewrite E. reflexivity.
  - (* the loop is over *)
    assert (E : skipn i scraped = []) by (apply skipn_all2; lia).
    rewrite E. simpl. rewrite !app_nil_r. reflexivity.
Qed.

(** Induction along the batches. *)
Lemma batch_induction (P : list Post -> Prop) :
  P [] ->
  (forall l, l <> [] -> P (skipn batchSize l) -> P l) ->
  forall l, P l.
Proof.
  intros Hnil Hstep l.
  remember (List.length l) as n eqn:Hn.
  revert l Hn. induction n as [n IH] using lt_wf_ind. intros l Hn.
  destruct l as [| x t]; [exact Hnil |].
  apply Hstep; [discriminate |].
  apply (IH (List.length (skipn batchSize (x :: t)))); [| reflexivity].
  rewrite length_skipn. subst n. unfold batchSize. simpl. lia.
Qed.

Lemma concat_chunk (l : list Post) : List.concat (chunk l) = l.
Proof.
  induction l as [| l Hne IH] using batch_induction; [reflexivity |].
  rewrite (chunk_step Hne), concat_cons, IH.
  apply firstn_skipn.
Qed.

Lemma length_chunk (l : list Post) :
  List.length (chunk l) = ((List.length l + 4) / 5)%nat.
Proof.
  induction l as [| l Hne IH] using batch_induction; [reflexivity |].
  rewrite (chunk_step Hne). cbn [List.length]. rewrite IH.
  rewrite length_skipn. unfold batchSize.
  assert (Hpos : (0 < List.length l)%nat).
  { destruct l; [congruence | simpl; lia]. }
  remember (List.length l) as n. clear - Hpos.
  destruct (Nat.le_gt_cases 5 n) as [H | H].
  - replace (n + 4)%nat with ((n - 5 + 4) + 1 * 5)%nat by lia.
    rewrite Nat.div_add by lia. lia.
  - replace (n - 5 + 4)%nat with 4%nat by lia.
    assert (E : ((n + 4) / 5 = 1)%nat).
    { symmetry. apply (Nat.div_unique (n + 4) 5 1 (n - 1)); lia. }
    rewrite E. reflexivity.
Qed.

(** The size of batch [k]: five, or what is left. *)
Lemma nth_chunk_length (l : list Post) :
  forall (k : nat) (b : list Post),
    nth_error (chunk l) k = Some b ->
    List.length b = Nat.min 5 (List.length l - 5 * k).
Proof.
  induction l as [| l Hne IH] using batch_induction; intros k b Hk.
  - destruct k; discriminate.
  - rewrite (chunk_step Hne) in Hk. destruct k as [| k'].
    + assert (Hb : b = firstn batchSize l)
        by (cbn [nth_error] in Hk; congruence).
      subst b. rewrite length_firstn. unfold batchSize. rewrite Nat.mul_0_r, Nat.sub_0_r.
      reflexivity.
    + cbn [nth_error] in Hk. rewrite (IH _ _ Hk).
      rewrite length_skipn. unfold batchSize. f_equal. lia.
Qed.

Lemma filter_sleep_batch_events (b : list Post) :
  filter is_sleep (batch_events b) = [].
Proof.
  unfold batch_events. rewrite filter_app. simpl. rewrite app_nil_r.
  induction b as [| p t IH]; [reflexivity | exact IH].
Qed.

(** One pause less than there are batches. *)
Lemma schedule_sleeps (batches : list (list Post)) :
  filter is_sleep (schedule batches)
  = repeat (Sleep 100) (List.length batches - 1).
Proof.
  induction batches as [| b rest IH]; [reflexivity |].
  rewrite schedule_cons, filter_app, filter_sleep_batch_events.
  destruct rest as [| b' rest']; [reflexivity |].
  remember (b' :: rest') as later eqn:Hlater.
  cbn [filter is_sleep app]. rewrite IH. subst later.
  cbn [List.length]. rewrite !Nat.sub_succ, !Nat.sub_0_r. reflexivity.
Qed.

Lemma last_app_cons (l1 l2 : list Event) (x d : Event) :
  last (l1 ++ x :: l2)%list d = last (x :: l2) d.
Proof.
  induction l1 as [| y t IH]; [reflexivity |].
  cbn [app]. rewrite <- IH. destruct (t ++ x :: l2)%list eqn:E; [| reflexivity].
  destruct t; discriminate.
Qed.

Lemma schedule_nonempty (b : list Post) (rest : list (list Post)) :
  schedule (b :: rest) <> [].
Proof.
  rewrite schedule_cons. unfold batch_events. intros E.
  apply app_eq_nil in E. destruct E as [E _].
  apply app_eq_nil in E. destruct E as [_ E]. discriminate.
Qed.

(** The run ends with the await of the last batch. *)
Lemma schedule_last (batches : list (list Post)) :
  is_sleep (last (schedule batches) (AwaitAll 0)) = false.
Proof.
  induction batches as [| b rest IH]; [reflexivity |].
  rewrite schedule_cons.
  destruct rest as [| b' rest'].
  - rewrite app_nil_r. unfold batch_events. rewrite last_last. reflexivity.
  - rewrite last_app_cons.
    pose proof (schedule_nonempty b' rest') as Hne.
    destruct (schedule (b' :: rest')) as [| e es] eqn:Es; [congruence |].
    exact IH.
Qed.

Lemma chunk_of_twelve (l : list Post) :
  List.length l = 12%nat -> map (@List.length Post) (chunk l) = [5; 5; 2]%nat.
Proof.
  intros Hl.
  do 12 (destruct l as [| ? l]; [discriminate |]).
  destruct l; [| discriminate].
  simp chunk. simpl. simp chunk. simpl. simp chunk. reflexivity.
Qed.

Unset Implicit Arguments.

(** A log is read with the number of fetches that are pending: a fetch
    adds one and must stay within the limit, a [Promise.all] must await
    exactly the pending ones and leaves none, and a pause must come when
    none is pending. *)
Fixpoint in_flight_bounded (limit pending : nat) (log : list Event) : bool :=
  match log with
  | [] => true
  | FetchStart _ :: rest =>
      (S pending <=? limit)%nat && in_flight_bounded limit (S pending) rest
  | AwaitAll n :: rest =>
      (n =? pending)%nat && in_flight_bounded limit 0 rest
  | Sleep _ :: rest =>
      (pending =? 0)%nat && in_flight_bounded limit pending rest
  end.

(** The addresses fetched, in the order of the log. *)
Fixpoint fetch_targets (log : list Event) : list string :=
  match log with
  | [] => []
  | FetchStart target :: rest => target :: fetch_targets rest
  | _ :: rest => fetch_targets rest
  end.

Lemma fetch_targets_app (a b : list Event) :
  fetch_targets (a ++ b) = (fetch_targets a ++ fetch_targets b)%list.
Proof.
  induction a as [| e a IH]; [reflexivity |].
  destruct e; cbn [app fetch_targets]; rewrite IH; reflexivity.
Qed.

Lemma fetch_targets_batch (b : list Post) :
  fetch_targets (batch_events b) = map url b.
Proof.
  unfold batch_events. rewrite fetch_targets_app. cbn [fetch_targets].
  rewrite app_nil_r. induction b as [| p b IH]; [reflexivity |].
  cbn [map fetch_targets]. now rewrite IH.
Qed.

Lemma fetch_targets_schedule (batches : list (list Post)) :
  fetch_targets (schedule batches) = map url (List.concat batches).
Proof.
  induction batches as [| b rest IH]; [reflexivity |].
  rewrite schedule_cons, fetch_targets_app, fetch_targets_batch.
  cbn [List.concat]. rewrite map_app. f_equal.
  destruct rest as [| b' rest']; [reflexivity |].
  cbn [fetch_targets]. exact IH.
Qed.

Lemma in_flight_fetches (limit : nat) (b : list Post) (rest : list Event) :
  forall pending,
    (pending + List.length b <= limit)%nat ->
    in_flight_bounded limit pending
      (map (fun p => FetchStart (url p)) b
       ++ AwaitAll (pending + List.length b) :: rest)
    = in_flight_bounded limit 0 rest.
Proof.
  induction b as [| p b IH]; intros pending Hle; cbn [List.length] in *.
  - cbn [map app in_flight_bounded]. rewrite Nat.add_0_r, Nat.eqb_refl.
    reflexivity.
  - cbn [map app in_flight_bounded].
    replace (pending + S (List.length b))%nat
      with (S pending + List.length b)%nat by lia.
    rewrite IH by lia.
    assert (H : (S pending <=? limit)%nat = true) by (apply Nat.leb_le; lia).
    rewrite H. reflexivity.
Qed.

Lemma in_flight_schedule (batches : list (list Post)) :
  Forall (fun b => (List.length b <= batchSize)%nat) batches ->
  in_flight_bounded batchSize 0 (schedule batches) = true.
Proof.
  induction batches as [| b rest IH]; intros Hall; [reflexivity |].
  inversion Hall as [| ? ? Hb Hrest]; subst.
  rewrite schedule_cons. unfold batch_events. rewrite <- app_assoc.
  cbn [app].
  rewrite (in_flight_fetches batchSize b _ 0) by (cbn [Nat.add]; exact Hb).
  destruct rest as [| b' rest']; [reflexivity |].
  cbn [in_flight_bounded Nat.eqb andb]. apply IH. exact Hrest.
Qed.

Lemma chunk_lengths (l : list Post) :
  Forall (fun b => (List.length b <= batchSize)%nat) (chunk l).
Proof.
  induction l as [| l Hne IH] using batch_induction; [constructor |].
  rewrite (chunk_step Hne). constructor; [| exact IH].
  rewrite length_firstn. lia.
Qed.

(** The events of a batch stand together in the log: its fetches, one
    after the other, then its [Promise.all]. *)
Lemma schedule_batch_at (batches : list (list Post)) :
  forall k b,
    nth_error batches k = Some b ->
    exists before after,
      schedule batches
      = (before ++ map (fun p => FetchStart (url p)) b
                ++ AwaitAll (List.length b) :: after)%list.
Proof.
  induction batches as [| b0 rest IH]; intros k b Hk.
  - destruct k; discriminate Hk.
  - rewrite schedule_cons. unfold batch_events at 1.
    destruct k as [| k'].
    + cbn [nth_error] in Hk. injection Hk as ->.
      exists [], (match rest with
                  | [] => []
                  | _ :: _ => Sleep 100 :: schedule rest
                  end).
      cbn [app]. rewrite <- app_assoc. reflexivity.
    + cbn [nth_error] in Hk.
      destruct (IH k' b Hk) as (before & after & Heq).
      destruct rest as [| b1 rest']; [destruct k'; discriminate Hk |].
      exists ((map (fun p => FetchStart (url p)) b0
               ++ [AwaitAll (List.length b0)]) ++ Sleep 100 :: before)%list,
             after.
      rewrite Heq, <- !app_assoc. reflexivity.
Qed.

Set Implicit Arguments.

(** C6. The loop of [fetchAllPosts] takes the posts in consecutive batches
    of five, the last one holding what is left.  The fetches of a batch run
    concurrently: in the log the fetches of the batch's posts are issued
    one after the other, none awaited in between, and the [Promise.all]
    that follows awaits them all together; every post's page is fetched
    once, in the order of the posts; every [Promise.all] awaits exactly the
    fetches pending at that moment, never more than five.  A pause of 100 ms
    stands between two batches and none after the last; the enriched posts
    come out in the order of the scraped ones.  Twelve posts make the
    batches 5, 5, 2. *)
Theorem fetchAllPosts_batches :
  forall scraped : list Post,
    let n := List.length scraped in
    exists batches : list (list Post),
      enrichLoop net scraped 0 [] []
      = (map (enrichPostData net) scraped, schedule batches)
      /\ List.concat batches = scraped
      /\ List.length batches = ((n + 4) / 5)%nat
      /\ (forall k b, nth_error batches k = Some b ->
            List.length b = Nat.min 5 (n - 5 * k)
            /\ ((S k < List.length batches)%nat -> List.length b = 5%nat)
            /\ (S k = List.length batches ->
                List.length b = if (n mod 5 =? 0)%nat then 5%nat
                                else (n mod 5)%nat))
      /\ (forall k b, nth_error batches k = Some b ->
            exists before after,
              schedule batches
              = (before ++ map (fun p => FetchStart (url p)) b
                        ++ AwaitAll (List.length b) :: after)%list)
      /\ fetch_targets (schedule batches) = map url scraped
      /\ in_flight_bounded batchSize 0 (schedule batches) = true
      /\ filter is_sleep (schedule batches)
         = repeat (Sleep 100) (List.length batches - 1)
      /\ is_sleep (last (schedule batches) (AwaitAll 0)) = false
      /\ (n = 12%nat -> map (@List.length Post) batches = [5; 5; 2]%nat)
      /\ (forall newDate formatDate index self,
            fetchPostsFromBlog newDate formatDate index = Some scraped ->
            let '(result, _, log) :=
              fetchAllPosts newDate formatDate net index self in
            result = map (enrichPostData net) scraped
            /\ log = schedule batches).
Proof.
  intros scraped n. exists (chunk scraped).
  assert (Hrun : enrichLoop net scraped 0 [] []
                 = (map (enrichPostData net) scraped, schedule (chunk scraped))).
  { rewrite enrichLoop_spec. reflexivity. }
  split; [exact Hrun |].
  split; [apply concat_chunk |].
  split; [apply length_chunk |].
  split.
  { intros k b Hk. pose proof (nth_chunk_length scraped k Hk) as Hlen.
    fold n in Hlen. rewrite length_chunk. fold n.
    split; [exact Hlen | split].
    - intros Hlt.
      assert (5 * (k + 2) <= n + 4)%nat.
      { pose proof (Nat.Div0.mul_div_le (n + 4) 5). lia. }
      lia.
    - intros Hlast.
      assert (Hk1 : nth_error (chunk scraped) k <> None) by congruence.
      apply nth_error_Some in Hk1. rewrite length_chunk in Hk1. fold n in Hk1.
      pose proof (Nat.div_mod_eq (n + 4) 5) as Hq.
      pose proof (Nat.mod_upper_bound (n + 4) 5 ltac:(lia)) as Hr.
      pose proof (Nat.div_mod_eq n 5) as Hq'.
      pose proof (Nat.mod_upper_bound n 5 ltac:(lia)) as Hr'.
      destruct (Nat.eqb_spec (n mod 5) 0) as [E | E]; lia. }
  split; [apply schedule_batch_at |].
  split; [rewrite fetch_targets_schedule, concat_chunk; reflexivity |].
  split; [apply in_flight_schedule, chunk_lengths |].
  split; [apply schedule_sleeps |].
  split; [apply schedule_last |].
  split; [apply chunk_of_twelve |].
  intros newDate formatDate index self Hindex.
  unfold fetchAllPosts. rewrite Hindex.
  destruct scraped as [| p t]; [split; reflexivity |].
  rewrite Hrun. split; reflexivity.
Qed.

End Batches.

(* --------------------------------------------------------------------- *)
(** ** Strings *)
(* --------------------------------------------------------------------- *)

Section StringFacts.

Lemma append_nil_r (s : string) : s ++ "" = s.
Proof. induction s as [| c t IH]; simpl; [reflexivity | now rewrite IH]. Qed.

Lemma append_assoc (a b c : string) : (a ++ b) ++ c = a ++ b ++ c.
Proof. induction a as [| x t IH]; simpl; [reflexivity | now rewrite IH]. Qed.

Lemma length_append (a b : string) :
  String.length (a ++ b) = (String.length a + String.length b)%nat.
Proof. induction a as [| x t IH]; simpl; [reflexivity | now rewrite IH]. Qed.

Lemma append_eq_nil (a b : string) : a ++ b = "" -> a = "" /\ b = "".
Proof. destruct a; simpl; [auto | discriminate]. Qed.

Lemma prefix_append (p s : string) : prefix p (p ++ s) = true.
Proof.
  induction p as [| c t IH]; simpl; [destruct s; reflexivity |].
  destruct (ascii_dec c c); [exact IH | congruence].
Qed.

Lemma prefix_split (p s : string) :
  prefix p s = true -> s = p ++ JS.drop (String.length p) s.
Proof.
  revert s. induction p as [| c t IH]; intros s.
  - reflexivity.
  - destruct s as [| d u]; simpl; [intros H; discriminate H |].
    destruct (ascii_dec c d) as [-> | _]; [| intros H; discriminate H].
    intros H. now rewrite <- (IH u H).
Qed.

Lemma drop_append (p s : string) : JS.drop (String.length p) (p ++ s) = s.
Proof. induction p as [| c t IH]; simpl; [reflexivity | exact IH]. Qed.

Lemma includes_prefix (s needle : string) :
  prefix needle s = true -> JS.includes s needle = true.
Proof. intros H. destruct s; cbn [JS.includes]; rewrite H; reflexivity. Qed.

Lemma includes_append (pre needle rest : string) :
  JS.includes (pre ++ needle ++ rest) needle = true.
Proof.
  induction pre as [| c t IH].
  - change ("" ++ needle ++ rest) with (needle ++ rest).
    apply includes_prefix, prefix_append.
  - cbn [append JS.includes]. rewrite IH. apply orb_true_r.
Qed.

End StringFacts.

(* --------------------------------------------------------------------- *)
(** ** Repository identifiers *)
(* --------------------------------------------------------------------- *)

Section RepoFacts.

Import GitHubStats.

Fixpoint all_chars (p : ascii -> bool) (s : string) : bool :=
  match s with
  | EmptyString => true
  | String c t => p c && all_chars p t
  end.

(** A path segment: not empty, no slash ([[^\/]+]). *)
Definition is_segment (s : string) : bool :=
  negb (String.eqb s "") && all_chars (fun c => negb (JS.is_slash c)) s.

(** What may follow a greedy segment: the end of the text, or a slash. *)
Definition segment_end (rest : string) : Prop :=
  match rest with
  | EmptyString => True
  | String c _ => c = "/"%char
  end.

(** The expression matches at the start of [s], capturing [owner/name]. *)
Definition matches_here (s owner name : string) : Prop :=
  exists rest,
    s = host_marker ++ owner ++ "/" ++ name ++ rest
    /\ is_segment owner = true
    /\ is_segment name = true
    /\ segment_end rest.

(** The leftmost match in [h] captures [owner/name]. *)
Definition first_match (h owner name : string) : Prop :=
  exists pre suf,
    h = pre ++ suf
    /\ matches_here suf owner name
    /\ (forall pre' suf' o n,
          h = pre' ++ suf' ->
          (String.length pre' < String.length pre)%nat ->
          ~ matches_here suf' o n).

(** The anchor with [href] [h] contributes the identifier [id]: the first
    place where the host marker is followed by two segments gives
    [id = owner/name], and [id] does not end in [.com].  More segments, a
    query, or a fragment may follow. *)
Definition yields (h id : string) : Prop :=
  exists owner name,
    first_match h owner name
    /\ id = owner ++ "/" ++ name
    /\ JS.endsWith id ".com" = false.

Lemma is_slash_true (c : ascii) : JS.is_slash c = true <-> c = "/"%char.
Proof. unfold JS.is_slash. apply Ascii.eqb_eq. Qed.

Lemma span_segment_spec (s seg rest : string) :
  span_segment s = (seg, rest) ->
  s = seg ++ rest
  /\ all_chars (fun c => negb (JS.is_slash c)) seg = true
  /\ segment_end rest.
Proof.
  revert seg rest. induction s as [| c t IH]; intros seg rest H; simpl in H.
  - injection H as <- <-. simpl. auto.
  - destruct (JS.is_slash c) eqn:Ec.
    + injection H as <- <-. simpl. repeat split.
      now apply is_slash_true.
    + destruct (span_segment t) as [seg' rest'] eqn:Et.
      injection H as <- <-.
      destruct (IH seg' rest' eq_refl) as (-> & Hall & Hend).
      simpl. rewrite Ec, Hall. auto.
Qed.

Lemma span_segment_unique (seg rest : string) :
  all_chars (fun c => negb (JS.is_slash c)) seg = true ->
  segment_end rest ->
  span_segment (seg ++ rest) = (seg, rest).
Proof.
  intros Hall Hend. induction seg as [| c t IH]; simpl in *.
  - destruct rest as [| d u]; [reflexivity |].
    simpl in Hend. subst d. reflexivity.
  - apply andb_true_iff in Hall. destruct Hall as [Hc Ht].
    apply negb_true_iff in Hc. rewrite Hc, (IH Ht). reflexivity.
Qed.

Lemma is_segment_parts (s : string) :
  is_segment s = true
  <-> s <> "" /\ all_chars (fun c => negb (JS.is_slash c)) s = true.
Proof.
  unfold is_segment. rewrite andb_true_iff, negb_true_iff, String.eqb_neq.
  reflexivity.
Qed.

(** [match_at] is the expression tried at one place. *)
Lemma match_at_iff (s m : string) :
  match_at s = Some m
  <-> exists owner name, matches_here s owner name /\ m = owner ++ "/" ++ name.
Proof.
  unfold match_at, matches_here. split.
  - destruct (prefix host_marker s) eqn:Hp; [| discriminate].
    apply prefix_split in Hp.
    destruct (span_segment (JS.drop (String.length host_marker) s))
      as [owner r1] eqn:E1.
    apply span_segment_spec in E1. destruct E1 as (Hd & Ho & He1).
    destruct (String.eqb_spec owner "") as [| Hone]; [discriminate |].
    destruct r1 as [| c r2]; [discriminate |].
    simpl in He1. subst c.
    destruct (span_segment r2) as [name rest] eqn:E2.
    apply span_segment_spec in E2. destruct E2 as (-> & Hn & He2).
    destruct (String.eqb_spec name "") as [| Hnne]; [discriminate |].
    intros H. injection H as <-.
    exists owner, name. split; [| reflexivity].
    exists rest. repeat split.
    + rewrite Hp at 1. rewrite Hd. reflexivity.
    + apply is_segment_parts. auto.
    + apply is_segment_parts. auto.
    + exact He2.
  - intros (owner & name & (rest & -> & Ho & Hn & He) & ->).
    apply is_segment_parts in Ho, Hn.
    destruct Ho as [Hone Ho]. destruct Hn as [Hnne Hn].
    rewrite prefix_append, drop_append.
    rewrite (span_segment_unique owner ("/" ++ name ++ rest) Ho)
      by reflexivity.
    destruct (String.eqb_spec owner "") as [| _]; [contradiction |].
    simpl. rewrite (span_segment_unique name rest Hn He).
    destruct (String.eqb_spec name "") as [| _]; [contradiction |].
    reflexivity.
Qed.

(** [href_match] takes the leftmost place. *)
Lemma href_match_iff (h m : string) :
  href_match h = Some m
  <-> exists pre suf,
        h = pre ++ suf
        /\ match_at suf = Some m
        /\ (forall pre' suf',
              h = pre' ++ suf' ->
              (String.length pre' < String.length pre)%nat ->
              match_at suf' = None).
Proof.
  revert m. induction h as [| c t IH]; intros m.
  - split.
    + intros H. discriminate H.
    + intros (pre & suf & Hh & Hm & _).
      symmetry in Hh. apply append_eq_nil in Hh. destruct Hh as [-> ->].
      discriminate Hm.
  - cbn [href_match]. split.
    + destruct (match_at (String c t)) as [m0 |] eqn:E.
      * intros H. injection H as <-.
        exists "", (String c t). repeat split; [exact E |].
        intros ? ? _ Hlen. simpl in Hlen. lia.
      * intros H. apply IH in H.
        destruct H as (pre & suf & -> & Hm & Hleft).
        exists (String c pre), suf. repeat split; [exact Hm |].
        intros pre' suf' Hsplit Hlen.
        destruct pre' as [| d pre''].
        -- simpl in Hsplit. subst suf'. exact E.
        -- simpl in Hsplit. injection Hsplit as _ Hsplit.
           apply (Hleft pre'' suf' Hsplit). simpl in Hlen. lia.
    + intros (pre & suf & Hh & Hm & Hleft).
      destruct pre as [| d pre0].
      * simpl in Hh. subst suf. rewrite Hm. reflexivity.
      * simpl in Hh. injection Hh as <- ->.
        rewrite (Hleft "" (String c (pre0 ++ suf)) eq_refl)
          by (simpl; lia).
        apply IH. exists pre0, suf. repeat split; [exact Hm |].
        intros pre' suf' Hsplit Hlen.
        apply (Hleft (String c pre') suf').
        -- simpl. now rewrite Hsplit.
        -- simpl. lia.
Qed.

End RepoFacts.

Section RepoSet.

Import GitHubStats.

Lemma all_chars_append (p : ascii -> bool) (a b : string) :
  all_chars p (a ++ b) = all_chars p a && all_chars p b.
Proof.
  induction a as [| c t IH]; simpl; [reflexivity |].
  rewrite IH. apply andb_assoc.
Qed.

(** The captured text never ends in a slash: the replacement is idle. *)
Lemma strip_trailing_slash_segment (s name : string) :
  is_segment name = true ->
  strip_trailing_slash (s ++ name) = s ++ name.
Proof.
  intros Hn. apply is_segment_parts in Hn. destruct Hn as [Hne Hall].
  induction s as [| c t IH].
  - simpl. clear Hne. induction name as [| d u IHu]; [reflexivity |].
    simpl in *. apply andb_true_iff in Hall. destruct Hall as [Hd Hu].
    apply negb_true_iff in Hd. rewrite Hd. simpl. now rewrite IHu.
  - cbn [append strip_trailing_slash]. rewrite IH.
    destruct (String.eqb_spec (t ++ name) "") as [E | _].
    + apply append_eq_nil in E. destruct E as [_ E]. contradiction.
    + rewrite andb_false_r. reflexivity.
Qed.

Lemma split_char_from_segment (cur s : string) :
  all_chars (fun c => negb (JS.is_slash c)) s = true ->
  JS.split_char_from "/" cur s = [cur ++ s].
Proof.
  revert cur. induction s as [| c t IH]; intros cur Hall; simpl in *.
  - now rewrite append_nil_r.
  - apply andb_true_iff in Hall. destruct Hall as [Hc Ht].
    apply negb_true_iff in Hc. unfold JS.is_slash in Hc. rewrite Hc.
    rewrite (IH _ Ht), append_assoc. reflexivity.
Qed.

Lemma split_char_from_two (cur owner name : string) :
  all_chars (fun c => negb (JS.is_slash c)) owner = true ->
  all_chars (fun c => negb (JS.is_slash c)) name = true ->
  JS.split_char_from "/" cur (owner ++ "/" ++ name) = [cur ++ owner; name].
Proof.
  intros Ho Hn. revert cur. induction owner as [| c t IH]; intros cur.
  - simpl. rewrite (split_char_from_segment "" name Hn), append_nil_r.
    reflexivity.
  - simpl in Ho. apply andb_true_iff in Ho. destruct Ho as [Hc Ht].
    apply negb_true_iff in Hc. unfold JS.is_slash in Hc.
    cbn [append JS.split_char_from]. rewrite Hc, (IH Ht), append_assoc.
    reflexivity.
Qed.

(** The captured text has two pieces. *)
Lemma split_char_two_segments (owner name : string) :
  is_segment owner = true -> is_segment name = true ->
  JS.split_char "/" (owner ++ "/" ++ name) = [owner; name].
Proof.
  intros Ho Hn. apply is_segment_parts in Ho, Hn.
  destruct Ho as [_ Ho]. destruct Hn as [_ Hn].
  unfold JS.split_char. now rewrite (split_char_from_two "" owner name Ho Hn).
Qed.

Lemma matches_here_at (s owner name : string) :
  matches_here s owner name -> match_at s = Some (owner ++ "/" ++ name).
Proof. intros H. apply match_at_iff. exists owner, name. auto. Qed.

Lemma first_match_iff (h m : string) :
  href_match h = Some m
  <-> exists owner name, first_match h owner name /\ m = owner ++ "/" ++ name.
Proof.
  rewrite href_match_iff. unfold first_match. split.
  - intros (pre & suf & Hh & Hm & Hleft).
    apply match_at_iff in Hm. destruct Hm as (owner & name & Hm & ->).
    exists owner, name. split; [| reflexivity].
    exists pre, suf. repeat split; [exact Hh | exact Hm |].
    intros pre' suf' o n Hsplit Hlen Hcontra.
    apply matches_here_at in Hcontra.
    rewrite (Hleft pre' suf' Hsplit Hlen) in Hcontra. discriminate.
  - intros (owner & name & (pre & suf & Hh & Hm & Hleft) & ->).
    exists pre, suf. repeat split; [exact Hh | now apply matches_here_at |].
    intros pre' suf' Hsplit Hlen.
    destruct (match_at suf') as [m' |] eqn:E; [| reflexivity].
    apply match_at_iff in E. destruct E as (o & n & Ho & _).
    exfalso. exact (Hleft pre' suf' o n Hsplit Hlen Ho).
Qed.

(** What one anchor contributes. *)
Lemma repo_of_href_iff (h id : string) :
  repo_of_href (Some h) = Some id <-> yields h id.
Proof.
  unfold repo_of_href, yields. split.
  - destruct (String.eqb_spec h "") as [| _]; [discriminate |].
    destruct (href_match h) as [m |] eqn:Hm; [| discriminate].
    apply first_match_iff in Hm. destruct Hm as (owner & name & Hfirst & ->).
    assert (Hn : is_segment name = true).
    { destruct Hfirst as (? & ? & _ & (? & _ & _ & Hn & _) & _). exact Hn. }
    rewrite <- append_assoc, (strip_trailing_slash_segment _ name Hn),
      append_assoc.
    destruct (JS.endsWith (owner ++ "/" ++ name) ".com") eqn:Hcom.
    + rewrite andb_false_r. discriminate.
    + destruct (_ && _ && _); [| discriminate].
      intros H. injection H as <-. exists owner, name. auto.
  - intros (owner & name & Hfirst & -> & Hcom).
    assert (Hm : href_match h = Some (owner ++ "/" ++ name)).
    { apply first_match_iff. exists owner, name. auto. }
    destruct Hfirst as (pre & suf & -> & (rest & -> & Ho & Hn & _) & _).
    destruct (String.eqb_spec (pre ++ host_marker ++ owner ++ "/" ++ name ++ rest) "")
      as [E | _].
    { apply append_eq_nil in E. destruct E as [_ E]. discriminate E. }
    rewrite Hm.
    rewrite <- append_assoc, (strip_trailing_slash_segment _ name Hn),
      append_assoc.
    rewrite Hcom, (split_char_two_segments owner name Ho Hn).
    destruct (String.eqb_spec (owner ++ "/" ++ name) "") as [E | _].
    { apply append_eq_nil in E. destruct E as [_ E]. discriminate E. }
    reflexivity.
Qed.

Lemma href_match_skip (c : ascii) (t : string) :
  match_at (String c t) = None -> href_match (String c t) = href_match t.
Proof. intros H. cbn [href_match]. rewrite H. reflexivity. Qed.

Lemma href_match_here (s m : string) :
  match_at s = Some m -> href_match s = Some m.
Proof. intros H. destruct s; cbn [href_match]; rewrite H; reflexivity. Qed.

Lemma match_at_other_letter (c : ascii) (t : string) :
  c <> "g"%char -> match_at (String c t) = None.
Proof.
  intros Hc. unfold match_at, host_marker. cbn [prefix].
  destruct (ascii_dec "g" c) as [E | _]; [congruence | reflexivity].
Qed.

(** An ordinary link to a repository, or to anything inside it: the
    identifier is [owner/name]. *)
Lemma repo_of_href_https (owner name rest : string) :
  is_segment owner = true ->
  is_segment name = true ->
  segment_end rest ->
  JS.endsWith (owner ++ "/" ++ name) ".com" = false ->
  repo_of_href (Some ("https://github.com/" ++ owner ++ "/" ++ name ++ rest))
  = Some (owner ++ "/" ++ name).
Proof.
  intros Ho Hn Hend Hcom.
  assert (Hm : href_match ("https://github.com/" ++ owner ++ "/" ++ name ++ rest)
               = Some (owner ++ "/" ++ name)).
  { cbn [append].
    do 8 (rewrite href_match_skip
           by (apply match_at_other_letter; discriminate)).
    apply href_match_here, matches_here_at.
    exists rest. repeat split; assumption. }
  unfold repo_of_href. rewrite Hm.
  destruct (String.eqb_spec
              ("https://github.com/" ++ owner ++ "/" ++ name ++ rest) "")
    as [E | _]; [discriminate E |].
  rewrite <- append_assoc, (strip_trailing_slash_segment _ name Hn), append_assoc.
  rewrite Hcom, (split_char_two_segments owner name Ho Hn).
  destruct (String.eqb_spec (owner ++ "/" ++ name) "") as [E | _].
  { apply append_eq_nil in E. destruct E as [_ E]. discriminate E. }
  reflexivity.
Qed.

(** An anchor that contributes passes the selector. *)
Lemma yields_includes_host (h id : string) :
  yields h id -> JS.includes h "github.com" = true.
Proof.
  intros (owner & name & (pre & suf & -> & (rest & -> & _) & _) & _).
  change (host_marker ++ owner ++ "/" ++ name ++ rest)
    with ("github.com" ++ "/" ++ owner ++ "/" ++ name ++ rest).
  apply includes_append.
Qed.

End RepoSet.

Section RepoOrder.

Import GitHubStats.

(** The identifiers the anchors contribute, in document order, repeats
    included. *)
Definition contributions (doc : Document) : list string :=
  flat_map (fun a => match repo_of_href (a_href a) with
                     | Some id => [id]
                     | None => []
                     end) doc.

(** The place of the first occurrence. *)
Fixpoint first_index (x : string) (l : list string) : nat :=
  match l with
  | [] => 0
  | y :: t => if String.eqb x y then 0 else S (first_index x t)
  end.

Lemma existsb_eqb_In (x : string) (s : list string) :
  existsb (String.eqb x) s = true <-> In x s.
Proof.
  rewrite existsb_exists. split.
  - intros (y & Hy & E). apply String.eqb_eq in E. now subst.
  - intros H. exists x. split; [exact H | apply String.eqb_refl].
Qed.

Lemma set_add_In (s : list string) (x y : string) :
  In y (set_add s x) <-> In y s \/ y = x.
Proof.
  unfold set_add. destruct (existsb (String.eqb x) s) eqn:E.
  - apply existsb_eqb_In in E. split; [auto | intros [H | ->]; auto].
  - rewrite in_app_iff. simpl. intuition (subst; auto).
Qed.

Lemma set_add_NoDup (s : list string) (x : string) :
  NoDup s -> NoDup (set_add s x).
Proof.
  intros Hs. unfold set_add. destruct (existsb (String.eqb x) s) eqn:E.
  - exact Hs.
  - assert (Hnot : ~ In x s).
    { intros H. apply existsb_eqb_In in H. congruence. }
    apply NoDup_app; [exact Hs | constructor; [auto | constructor] |].
    intros y Hy [<- | []]. contradiction.
Qed.

Lemma add_all_In (l acc : list string) (y : string) :
  In y (fold_left set_add l acc) <-> In y acc \/ In y l.
Proof.
  revert acc. induction l as [| x t IH]; intros acc; simpl.
  - tauto.
  - rewrite IH, set_add_In. intuition auto.
Qed.

Lemma add_all_NoDup (l acc : list string) :
  NoDup acc -> NoDup (fold_left set_add l acc).
Proof.
  revert acc. induction l as [| x t IH]; intros acc H; simpl.
  - exact H.
  - apply IH, set_add_NoDup, H.
Qed.

Lemma first_index_lt (x : string) (l : list string) :
  In x l -> (first_index x l < List.length l)%nat.
Proof.
  induction l as [| y t IH]; simpl; [tauto |].
  intros H. destruct (String.eqb_spec x y) as [| Hne]; [lia |].
  destruct H as [H | H]; [congruence |]. specialize (IH H). lia.
Qed.

Lemma first_index_app_in (x : string) (l l' : list string) :
  In x l -> first_index x (l ++ l')%list = first_index x l.
Proof.
  induction l as [| y t IH]; simpl; [tauto |].
  intros H. destruct (String.eqb_spec x y) as [| Hne]; [reflexivity |].
  destruct H as [H | H]; [congruence |]. now rewrite (IH H).
Qed.

Lemma first_index_snoc_new (x : string) (l : list string) :
  ~ In x l -> first_index x (l ++ [x])%list = List.length l.
Proof.
  induction l as [| y t IH]; simpl; intros H.
  - now rewrite String.eqb_refl.
  - destruct (String.eqb_spec x y) as [-> | _]; [tauto |].
    rewrite IH; [reflexivity | tauto].
Qed.

(** A set filled from a list keeps the order of first occurrence. *)
Lemma add_all_order (l : list string) :
  forall i j a b,
    nth_error (fold_left set_add l []) i = Some a ->
    nth_error (fold_left set_add l []) j = Some b ->
    (i < j)%nat ->
    (first_index a l < first_index b l)%nat.
Proof.
  induction l as [| x l IH] using rev_ind; intros i j a b Ha Hb Hij.
  - destruct i; discriminate.
  - rewrite fold_left_app in Ha, Hb. simpl in Ha, Hb.
    set (out := fold_left set_add l []) in *.
    assert (Hin : forall y, In y out <-> In y l).
    { intros y. unfold out. rewrite add_all_In. simpl. tauto. }
    unfold set_add in Ha, Hb.
    destruct (existsb (String.eqb x) out) eqn:E.
    + pose proof (IH i j a b Ha Hb Hij) as Hlt.
      apply nth_error_In in Ha, Hb. apply Hin in Ha, Hb.
      now rewrite !first_index_app_in by assumption.
    + assert (Hx : ~ In x l).
      { intros H. apply Hin, existsb_eqb_In in H. congruence. }
      destruct (Nat.lt_ge_cases j (List.length out)) as [Hj | Hj].
      * rewrite nth_error_app1 in Ha, Hb by lia.
        pose proof (IH i j a b Ha Hb Hij) as Hlt.
        apply nth_error_In in Ha, Hb. apply Hin in Ha, Hb.
        now rewrite !first_index_app_in by assumption.
      * rewrite nth_error_app2 in Hb by lia.
        destruct (j - List.length out)%nat as [| k] eqn:Ek;
          [| destruct k; discriminate].
        simpl in Hb. injection Hb as <-.
        rewrite nth_error_app1 in Ha by lia.
        apply nth_error_In, Hin in Ha.
        rewrite (first_index_app_in a l [x] Ha), (first_index_snoc_new x l Hx).
        now apply first_index_lt.
Qed.

Lemma contributions_In (doc : Document) (id : string) :
  In id (contributions doc)
  <-> exists a h, In a doc /\ a_href a = Some h /\ yields h id.
Proof.
  unfold contributions. rewrite in_flat_map. split.
  - intros (a & Ha & Hid).
    destruct (a_href a) as [h |] eqn:Eh; [| destruct Hid].
    destruct (repo_of_href (Some h)) as [id' |] eqn:Er; [| destruct Hid].
    destruct Hid as [<- | []].
    exists a, h. repeat split; [exact Ha | exact Eh |].
    now apply repo_of_href_iff.
  - intros (a & h & Ha & Eh & Hy). exists a. split; [exact Ha |].
    rewrite Eh. apply repo_of_href_iff in Hy. rewrite Hy. simpl. auto.
Qed.

(** The selector drops no anchor that contributes. *)
Lemma fold_collect_contributions (doc : Document) (acc : list string) :
  fold_left collect (github_links doc) acc
  = fold_left set_add (contributions doc) acc.
Proof.
  revert acc. induction doc as [| a doc IH]; intros acc; [reflexivity |].
  unfold contributions. cbn [flat_map]. fold (contributions doc).
  rewrite fold_left_app.
  assert (Hstep : fold_left set_add
                    match repo_of_href (a_href a) with
                    | Some id => [id]
                    | None => []
                    end acc
                  = collect acc a).
  { unfold collect. destruct (repo_of_href (a_href a)); reflexivity. }
  rewrite Hstep. unfold github_links. cbn [filter].
  fold (github_links doc).
  destruct (a_href a) as [h |] eqn:Eh.
  - destruct (JS.includes h "github.com") eqn:Einc.
    + cbn [fold_left]. apply IH.
    + assert (Hnone : collect acc a = acc).
      { unfold collect. rewrite Eh.
        destruct (repo_of_href (Some h)) as [id |] eqn:Er; [| reflexivity].
        apply repo_of_href_iff, yields_includes_host in Er. congruence. }
      rewrite Hnone. apply IH.
  - assert (Hnone : collect acc a = acc).
    { unfold collect. rewrite Eh. reflexivity. }
    rewrite Hnone. apply IH.
Qed.

Lemma repos_of_document_contributions (doc : Document) :
  repos_of_document doc = fold_left set_add (contributions doc) [].
Proof. apply fold_collect_contributions. Qed.

(** C1, as the code has it.  On a fetched and parsed projects page, an
    identifier is in the result exactly when some anchor yields it: the
    first place of the [href] where the host marker is followed by two
    non-empty segments gives the identifier, whatever follows the second
    segment, unless the identifier ends in [.com].  In particular a link
    [https://github.com/owner/name], alone or followed by a slash and more
    segments, yields [owner/name].  No identifier occurs twice, and the
    identifiers stand in the order of their first appearance in the
    document. *)
Theorem extractGitHubRepos_identifiers :
  forall (doc : Document) (status : Z) (w : World),
    let out := fst (extractGitHubRepos (Response true status (Some doc)) w) in
    (forall id : string,
        In id out
        <-> exists a h, In a doc /\ a_href a = Some h /\ yields h id)
    /\ (forall a h id,
          In a doc -> a_href a = Some h ->
          (repo_of_href (Some h) = Some id <-> yields h id))
    /\ (forall a owner name rest,
          In a doc ->
          a_href a = Some ("https://github.com/" ++ owner ++ "/" ++ name ++ rest) ->
          is_segment owner = true ->
          is_segment name = true ->
          segment_end rest ->
          JS.endsWith (owner ++ "/" ++ name) ".com" = false ->
          In (owner ++ "/" ++ name) out)
    /\ NoDup out
    /\ (forall i j a b,
          nth_error out i = Some a ->
          nth_error out j = Some b ->
          (i < j)%nat ->
          (first_index a (contributions doc)
           < first_index b (contributions doc))%nat).
Proof.
  intros doc status w out.
  assert (Hout : out = fold_left set_add (contributions doc) []).
  { unfold out, extractGitHubRepos, bind, http, set_repos, ret. simpl.
    apply repos_of_document_contributions. }
  rewrite Hout. split; [| split; [| split; [| split]]].
  - intros id. rewrite add_all_In, contributions_In. simpl. tauto.
  - intros a h id _ _. apply repo_of_href_iff.
  - intros a owner name rest Ha Hh Ho Hn Hend Hcom.
    apply add_all_In. right. unfold contributions. apply in_flat_map.
    exists a. split; [exact Ha |].
    rewrite Hh, (repo_of_href_https owner name rest Ho Hn Hend Hcom).
    simpl. auto.
  - apply add_all_NoDup. constructor.
  - apply add_all_order.
Qed.

End RepoOrder.

(** The text after the first occurrence of the host in an [href]. *)
Fixpoint after_host (h : string) : option string :=
  if prefix "github.com" h then Some (JS.drop 10 h)
  else match h with
       | EmptyString => None
       | String _ t => after_host t
       end.

(** The non-empty segments of a path. *)
Definition nonempty_segments (path : string) : list string :=
  filter (fun s => negb (String.eqb s "")) (JS.split_char "/" path).

(** A link to a directory inside a repository, and a page that holds it. *)
Definition tree_link : string := "https://github.com/mlc-ai/mlc-llm/tree/main".

Definition page_with_tree_link : FetchResult GitHubStats.Document :=
  Response true 200 (Some [GitHubStats.mkAnchor (Some tree_link)]).

(** C1 as stated fails: the path of this link has four non-empty segments
    after the host, and the link still yields an identifier, made of the
    first two. *)
Lemma extractGitHubRepos_longer_path :
  JS.includes tree_link "github.com" = true
  /\ option_map nonempty_segments (after_host tree_link)
     = Some ["mlc-ai"; "mlc-llm"; "tree"; "main"]
  /\ GitHubStats.repo_of_href (Some tree_link) = Some "mlc-ai/mlc-llm"
  /\ fst (GitHubStats.extractGitHubRepos page_with_tree_link fresh_world)
     = ["mlc-ai/mlc-llm"].
Proof. repeat split. Qed.

(** Links as they occur on the projects page. *)
Example repo_of_href_samples :
  map GitHubStats.repo_of_href
      [Some "https://github.com/mlc-ai/mlc-llm";
       Some "https://github.com/mlc-ai/web-llm/";
       Some "https://github.com/mlc-ai";
       Some "https://github.com/";
       Some "https://github.com/mlc-ai/mlc-llm/issues/12";
       Some "https://github.com/mlc-ai/mlc-llm?tab=readme";
       Some "https://github.com/acme/acme.com";
       Some "https://mlc.ai/"; None]
  = [Some "mlc-ai/mlc-llm"; Some "mlc-ai/web-llm"; None; None;
     Some "mlc-ai/mlc-llm"; Some "mlc-ai/mlc-llm?tab=readme"; None; None; None].
Proof. reflexivity. Qed.

Example repos_of_document_dedup :
  GitHubStats.repos_of_document
    (map GitHubStats.mkAnchor
         [Some "https://github.com/mlc-ai/web-llm";
          Some "https://github.com/mlc-ai/mlc-llm";
          Some "https://github.com/mlc-ai/web-llm/";
          Some "https://github.com/apache/tvm"])
  = ["mlc-ai/web-llm"; "mlc-ai/mlc-llm"; "apache/tvm"].
Proof. reflexivity. Qed.

(* --------------------------------------------------------------------- *)
(** ** Worked examples of the blog pipeline *)
(* --------------------------------------------------------------------- *)

(** An engine that reads the ISO form of two days. *)
Definition may_1_2024 : Blog.DateObj := Blog.mkDate 1714521600000 2024 4 1.

Definition iso_engine (s : string) : option Blog.DateObj :=
  if String.eqb s "2025-01-07" then Some jan_7_2025
  else if String.eqb s "2024-05-01" then Some may_1_2024
  else None.

Definition bare_post (t : string) (d : option string) : Blog.Post :=
  Blog.mkPost t ("https://blog.mlc.ai/" ++ t) d "" d None None None.

Definition three_posts : list Blog.Post :=
  [bare_post "may" (Some "2024-05-01"); bare_post "undated" None;
   bare_post "january" (Some "2025-01-07")].

(** The sorting example of the specification. *)
Example sortPosts_three_posts :
  map Blog.date (Blog.sortPosts iso_engine three_posts)
  = [Some "2025-01-07"; Some "2024-05-01"; None].
Proof. reflexivity. Qed.

Lemma three_posts_well_dated : Forall (well_dated iso_engine) three_posts.
Proof.
  repeat constructor; unfold well_dated; intros H;
    try discriminate H; eexists; reflexivity.
Qed.

Lemma sortPosts_well_dated_witness :
  Permutation three_posts (Blog.sortPosts iso_engine three_posts)
  /\ StronglySorted (posts_in_order iso_engine)
                    (Blog.sortPosts iso_engine three_posts).
Proof.
  destruct (@sortPosts_well_dated iso_engine three_posts three_posts_well_dated)
    as (Hperm & Hsorted & _).
  split; [exact Hperm | exact Hsorted].
Defined.

(** The end-to-end example of the specification: one item that links to a
    dated path, one that links to [/about]. *)
Definition index_my_post : list Blog.ListItem :=
  [Blog.mkListItem (Some ("My Post", Some "/2025/01/07/my-post")) ["Jan 7, 2025"];
   Blog.mkListItem (Some ("About", Some "/about")) []].

(** X7. The index above yields one post, the dated one, with its absolute
    address and its normalised date. *)
Lemma scrape_my_post (newDate : string -> option Blog.DateObj)
      (formatDate : option string -> string) :
  rejects_or_reads newDate "Jan 7, 2025" 2025 0 7 ->
  map (fun p => (Blog.title p, Blog.url p, Blog.date p))
      (Blog.scrape newDate formatDate index_my_post)
  = [("My Post", "https://blog.mlc.ai/2025/01/07/my-post", Some "2025-01-07")].
Proof.
  intros Hjan.
  assert (E : Blog.scrape newDate formatDate index_my_post
              = [Blog.mkPost "My Post" "https://blog.mlc.ai/2025/01/07/my-post"
                   (Blog.parseDateString newDate (Some "Jan 7, 2025"))
                   (formatDate (JS.or_else
                                  (Blog.parseDateString newDate (Some "Jan 7, 2025"))
                                  (Some "Jan 7, 2025")))
                   (Some "Jan 7, 2025") None None None])
    by reflexivity.
  rewrite E, (parseDateString_jan_7_2025 newDate Hjan). reflexivity.
Qed.

Lemma scrape_my_post_witness :
  map (fun p => (Blog.title p, Blog.url p, Blog.date p))
      (Blog.scrape strict_engine (fun _ => "") index_my_post)
  = [("My Post", "https://blog.mlc.ai/2025/01/07/my-post", Some "2025-01-07")].
Proof.
  exact (@scrape_my_post strict_engine (fun _ => "")
           (conj eq_refl (conj eq_refl eq_refl))).
Defined.

Section EnrichmentDetails.

Import Blog.

Variable net : string -> FetchResult PostPage.

Lemma length_take (n : nat) (s : string) :
  (n <= String.length s)%nat -> String.length (JS.take n s) = n.
Proof.
  unfold JS.take. revert s. induction n as [| n IH]; intros s H.
  - destruct s; reflexivity.
  - destruct s as [| c t]; simpl in H; [lia |].
    simpl. rewrite IH by lia. reflexivity.
Qed.

(** X5. The excerpt cap: a description of more than 200 characters is cut
    to its first 200 and gets the three-character ellipsis. *)
Lemma enrichPostData_truncates (post : Post) (status : Z)
      (text : string) (paragraph : option string) :
  net (url post)
  = Response true status (Some (mkPostPage (Some (Some text)) paragraph)) ->
  (200 < String.length text)%nat ->
  excerpt (enrichPostData net post) = Some (JS.take 200 text ++ "...")
  /\ String.length (JS.take 200 text ++ "...") = 203%nat.
Proof.
  intros Hnet Hlen. unfold enrichPostData. rewrite Hnet. cbn [meta_description].
  assert (Htruthy : JS.truthy (Some text) = true).
  { simpl. destruct text; [simpl in Hlen; lia | reflexivity]. }
  rewrite Htruthy. cbn [negb].
  apply Nat.ltb_lt in Hlen. rewrite Hlen.
  assert (Hl : String.length (JS.take 200 text ++ "...") = 203%nat).
  { rewrite length_append, length_take; [reflexivity |].
    apply Nat.ltb_lt in Hlen. lia. }
  split; [| exact Hl].
  unfold with_enrichment. cbn [excerpt].
  destruct (String.eqb_spec (JS.take 200 text ++ "...") "") as [E | _];
    [| reflexivity].
  rewrite E in Hl. discriminate Hl.
Qed.

Lemma split_ws_from_length (s cur : string) (in_ws : bool) :
  (List.length (JS.split_ws_from in_ws cur s) <= String.length s + 1)%nat.
Proof.
  revert cur in_ws. induction s as [| c t IH]; intros cur in_ws; simpl.
  - lia.
  - destruct (JS.is_space c).
    + destruct in_ws; simpl.
      * specialize (IH cur true). lia.
      * specialize (IH "" true). lia.
    + specialize (IH (cur ++ String c "") false). lia.
Qed.

(** The excerpt read from the page is [null]: the page has the [meta]
    element without a [content] attribute, and none of the paragraphs
    looked for. *)
Definition excerpt_is_null (doc : PostPage) : bool :=
  match meta_description doc, first_paragraph doc with
  | Some None, None => true
  | _, _ => false
  end.

(** X6. On a page that was fetched and read, the read time is "3 min
    read", whatever the text: the estimate never leaves its floor, since an
    excerpt has at most 203 characters, hence at most 204 pieces.  It is
    the "5 min read" of the handler exactly when the excerpt is [null],
    where reading its length throws. *)
Lemma enrichPostData_read_time (post : Post) (status : Z) (doc : PostPage) :
  net (url post) = Response true status (Some doc) ->
  readTime (enrichPostData net post)
  = Some (if excerpt_is_null doc then "5 min read" else "3 min read").
Proof.
  intros Hnet. unfold enrichPostData. rewrite Hnet.
  assert (Hnull :
    forall excerpt1 : option string,
      excerpt1
      = (if negb (JS.truthy match meta_description doc with
                            | Some content => content
                            | None => Some ""
                            end)
         then match first_paragraph doc with
              | Some text => Some (JS.trim text)
              | None => match meta_description doc with
                        | Some content => content
                        | None => Some ""
                        end
              end
         else match meta_description doc with
              | Some content => content
              | None => Some ""
              end) ->
      excerpt_is_null doc = match excerpt1 with Some _ => false | None => true end).
  { intros excerpt1 ->. unfold excerpt_is_null.
    destruct (meta_description doc) as [[content |] |];
      destruct (first_paragraph doc) as [text |]; cbn [JS.truthy negb];
      try reflexivity;
      destruct (negb (negb (String.eqb content ""))); reflexivity. }
  match goal with
  | |- context [match ?x with Some e => _ | None => with_defaults post end] =>
      rewrite (Hnull x eq_refl); destruct x as [e |]
  end; [| reflexivity].
  unfold with_enrichment. cbn [readTime].
  set (e' := if (200 <? String.length e)%nat then JS.take 200 e ++ "..." else e).
  assert (Hlen : (String.length e' <= 203)%nat).
  { unfold e'. destruct (Nat.ltb_spec 200 (String.length e)) as [H | H].
    - rewrite length_append, length_take by lia. simpl. lia.
    - lia. }
  pose proof (split_ws_from_length e' "" false) as Hwords.
  fold (JS.split_ws e') in Hwords.
  assert (Hceil : Z.max 3 (ceil_div_200 (List.length (JS.split_ws e'))) = 3%Z).
  { unfold ceil_div_200.
    assert ((Z.of_nat (List.length (JS.split_ws e')) + 199) / 200 <= 2)%Z.
    { apply Z.lt_succ_r. apply Z.div_lt_upper_bound; lia. }
    lia. }
  rewrite Hceil. reflexivity.
Qed.

End EnrichmentDetails.

(** A page whose description has 250 characters. *)
Definition long_description : string :=
  JS.join (repeat "0123456789" 25).

Definition long_page (target : string) : FetchResult Blog.PostPage :=
  Response true 200 (Some (Blog.mkPostPage (Some (Some long_description)) None)).

Lemma enrichPostData_truncates_witness :
  String.length long_description = 250%nat
  /\ option_map String.length
       (Blog.excerpt (Blog.enrichPostData long_page sample_post))
     = Some 203%nat.
Proof.
  split; [reflexivity |].
  destruct (@enrichPostData_truncates long_page sample_post 200 long_description
              None eq_refl ltac:(vm_compute; lia)) as [He Hl].
  rewrite He. cbn [option_map]. apply (f_equal (@Some nat)). exact Hl.
Defined.

Lemma enrichPostData_read_time_witness :
  Blog.readTime (Blog.enrichPostData long_page sample_post)
  = Some "3 min read".
Proof.
  exact (@enrichPostData_read_time long_page sample_post 200
           (Blog.mkPostPage (Some (Some long_description)) None) eq_refl).
Defined.

Definition offline : string -> FetchResult Blog.PostPage := fun _ => NetworkError.

Lemma enrichPostData_network_error_witness :
  Blog.excerpt (Blog.enrichPostData offline sample_post)
  = Some Blog.default_excerpt
  /\ Blog.readTime (Blog.enrichPostData offline sample_post) = Some "5 min read".
Proof.
  destruct (@enrichPostData_network_error offline sample_post eq_refl)
    as (_ & He & _ & Hr).
  split; [exact He | exact Hr].
Defined.

(** Seven posts: a batch of five, the pause, a batch of two. *)
Definition seven_posts : list Blog.Post :=
  map (fun t => bare_post t None) ["a"; "b"; "c"; "d"; "e"; "f"; "g"].

Example enrichLoop_seven_posts :
  snd (Blog.enrichLoop offline seven_posts 0 [] [])
  = [Blog.FetchStart "https://blog.mlc.ai/a"; Blog.FetchStart "https://blog.mlc.ai/b";
     Blog.FetchStart "https://blog.mlc.ai/c"; Blog.FetchStart "https://blog.mlc.ai/d";
     Blog.FetchStart "https://blog.mlc.ai/e"; Blog.AwaitAll 5; Blog.Sleep 100;
     Blog.FetchStart "https://blog.mlc.ai/f"; Blog.FetchStart "https://blog.mlc.ai/g";
     Blog.AwaitAll 2].
Proof. reflexivity. Qed.

(* --------------------------------------------------------------------- *)
(** ** binary64 division and [toFixed] *)
(* --------------------------------------------------------------------- *)

Unset Implicit Arguments.

Section Binary64.

Import GitHubStats.

Local Open Scope Z_scope.


Lemma digits2_pos_bounds (p : positive) :
  2 ^ (Z.pos (digits2_pos p) - 1) <= Z.pos p < 2 ^ Z.pos (digits2_pos p).
Proof.
  induction p as [p IH | p IH |]; simpl digits2_pos.
  - rewrite Pos2Z.inj_succ.
    replace (Z.succ (Z.pos (digits2_pos p)) - 1) with (Z.pos (digits2_pos p) - 1 + 1) by lia.
    rewrite Z.pow_succ_r by lia.
    rewrite Z.pow_add_r by lia. change (2 ^ 1) with 2. lia.
  - rewrite Pos2Z.inj_succ.
    replace (Z.succ (Z.pos (digits2_pos p)) - 1) with (Z.pos (digits2_pos p) - 1 + 1) by lia.
    rewrite Z.pow_succ_r by lia.
    rewrite Z.pow_add_r by lia. change (2 ^ 1) with 2. lia.
  - simpl. lia.
Qed.




















(** A quotient of [formatNumber]: zero, or a positive value with at most
    53 bits of mantissa and a negative exponent. *)
Definition small_quotient (x : spec_float) : Prop :=
  match x with
  | S754_zero _ => True
  | S754_finite s m e => s = false /\ Z.pos (digits2_pos m) <= 53 /\ e < 0
  | _ => False
  end.



(** *** The value of a quotient *)
















Section ToFixed.

Variable big_to_string : spec_float -> string.

(** [toFixed(1)] of such a quotient: a numeral, the point, one digit. *)
Lemma toFixed1_small (x : spec_float) :
  small_quotient x ->
  exists whole tenth : Z,
    0 <= whole /\ 0 <= tenth <= 9
    /\ toFixed1 big_to_string x
       = (JS.Z_to_string whole ++ "." ++ JS.Z_to_string tenth)%string.
Proof.
  destruct x as [s | s | | s m e]; simpl; try contradiction.
  - intros _. exists 0, 0. repeat split; lia.
  - intros (-> & Hd & He).
    assert (Hm : Z.pos m < 2 ^ 53).
    { pose proof (digits2_pos_bounds m) as [_ Hlt].
      assert (2 ^ Z.pos (digits2_pos m) <= 2 ^ 53)
        by (apply Z.pow_le_mono_r; lia).
      lia. }
    assert (Hbig : at_least_1e21 m e = false).
    { unfold at_least_1e21. destruct (Z.leb_spec 0 e); [lia |].
      apply Z.leb_gt.
      assert (1 <= 2 ^ (- e)) by (apply (Z.pow_le_mono_r 2 0 (- e)); lia).
      change (2 ^ 53) with 9007199254740992 in Hm.
      change (10 ^ 21) with 1000000000000000000000. nia. }
    rewrite Hbig.
    assert (Hn : 0 <= tenths m e).
    { unfold tenths. destruct (Z.leb_spec 0 e); [lia |].
      apply Z.div_pos.
      - assert (0 < 2 ^ (- e)) by (apply Z.pow_pos_nonneg; lia). lia.
      - apply Z.pow_pos_nonneg; lia. }
    exists (tenths m e / 10), (tenths m e mod 10).
    pose proof (Z.mod_pos_bound (tenths m e) 10 ltac:(lia)).
    repeat split; try lia.
    apply Z.div_pos; lia.
Qed.



End ToFixed.

End Binary64.



(* ===================================================================== *)
(** ** The statistics loader: lookups and sums *)
(* ===================================================================== *)

Section StatsTotals.

Import GitHubStats.

Local Open Scope Z_scope.

Variable projects_page : FetchResult Document.
Variable api : string -> FetchResult RepoData.

(** What a repository adds to a total: the count of its answer, nothing
    when the lookup fails in any way. *)
Definition counted (field : RepoData -> option Z) (repoPath : string) : Z :=
  match api repoPath with
  | Response true _ (Some data) => or_zero (field data)
  | _ => 0
  end.

Definition total (field : RepoData -> option Z) (l : list string) : Z :=
  fold_right Z.add 0 (map (counted field) l).

(** The identifiers of the projects page, none when it cannot be read. *)
Definition extracted : list string :=
  match projects_page with
  | Response true _ (Some doc) => repos_of_document doc
  | _ => []
  end.

(** The repositories a call of [fetchAllStats] works on. *)
Definition repos_in_use (w : World) : list string :=
  if is_empty (repos (this w)) then extracted else repos (this w).

Definition page_requests (w : World) : list Request :=
  if is_empty (repos (this w)) then [GetProjectsPage] else [].

Lemma extractGitHubRepos_run (w : World) :
  is_empty (repos (this w)) = true ->
  snd (extractGitHubRepos projects_page w)
  = mkWorld (mkLoader extracted (totalStars (this w)) (totalForks (this w)))
            (requests w ++ [GetProjectsPage]).
Proof.
  intros Hempty. unfold extractGitHubRepos, extracted, bind, http, set_repos, ret.
  destruct w as [[r ts tf] rq]. simpl in *.
  destruct r; [| discriminate].
  destruct projects_page as [| [] status [doc |]]; reflexivity.
Qed.

Lemma mapM_fetchRepoStats (l : list string) (w : World) :
  let '(results, w') := mapM (fetchRepoStats api) l w in
  this w' = this w
  /\ requests w' = (requests w ++ map GetRepo l)%list
  /\ fold_left add_stats results (0, 0)
     = (total stargazers_count l, total forks_count l).
Proof.
  assert (Hgen : forall l w a b,
    let '(results, w') := mapM (fetchRepoStats api) l w in
    this w' = this w
    /\ requests w' = (requests w ++ map GetRepo l)%list
    /\ fold_left add_stats results (a, b)
       = (a + total stargazers_count l, b + total forks_count l)).
  { clear l w. induction l as [| r l IH]; intros w a b.
    - simpl. rewrite app_nil_r, !Z.add_0_r. auto.
    - cbn [mapM]. unfold bind at 1.
      destruct (fetchRepoStats api r w) as [y w1] eqn:Hone.
      unfold bind at 1.
      assert (Hy : this w1 = this w
                   /\ requests w1 = (requests w ++ [GetRepo r])%list
                   /\ add_stats (a, b) y
                      = (a + counted stargazers_count r,
                         b + counted forks_count r)).
      { unfold fetchRepoStats, bind, http, ret, counted in *.
        destruct (api r) as [| [] status [data |]];
          injection Hone as <- <-; simpl; rewrite ?Z.add_0_r; auto. }
      destruct Hy as (Hthis & Hreq & Hadd).
      specialize (IH w1 (a + counted stargazers_count r)
                        (b + counted forks_count r)).
      destruct (mapM (fetchRepoStats api) l w1) as [ys w2].
      destruct IH as (Hthis2 & Hreq2 & Hfold).
      unfold ret. cbn [fold_left]. rewrite Hadd, Hfold.
      split; [congruence |]. split.
      + rewrite Hreq2, Hreq, <- app_assoc. reflexivity.
      + unfold total. cbn [map fold_right]. f_equal; lia. }
  specialize (Hgen l w 0 0).
  destruct (mapM (fetchRepoStats api) l w) as [results w'].
  exact Hgen.
Qed.

(** The outcome of a call, as one equation. *)
Lemma fetchAllStats_run (w : World) :
  let l := repos_in_use w in
  let s := total stargazers_count l in
  let f := total forks_count l in
  fetchAllStats projects_page api w
  = (mkTotals s f,
     mkWorld (if is_empty l
              then mkLoader [] (totalStars (this w)) (totalForks (this w))
              else mkLoader l s f)
             (requests w ++ page_requests w ++ map GetRepo l)%list).
Proof.
  intros l s f.
  set (w1 := if is_empty (repos (this w))
             then snd (extractGitHubRepos projects_page w) else w).
  assert (Hw1 : this w1 = mkLoader l (totalStars (this w)) (totalForks (this w))
                /\ requests w1 = (requests w ++ page_requests w)%list).
  { subst w1 l. unfold repos_in_use, page_requests.
    destruct (is_empty (repos (this w))) eqn:Hempty.
    - rewrite (extractGitHubRepos_run w Hempty). auto.
    - rewrite app_nil_r. destruct w as [[r ts tf] rq]. auto. }
  destruct Hw1 as (Hthis1 & Hreq1).
  assert (Hrun : fetchAllStats projects_page api w
                 = if is_empty l then (mkTotals 0 0, w1)
                   else
                     let '(results, w2) := mapM (fetchRepoStats api) l w1 in
                     let '(s, f) := fold_left add_stats results (0, 0) in
                     (mkTotals s f,
                      mkWorld (mkLoader (repos (this w2)) s f) (requests w2))).
  { unfold fetchAllStats, bind, get_repos, ret. subst w1.
    destruct (is_empty (repos (this w))) eqn:Hempty.
    - destruct (extractGitHubRepos projects_page w) as [found wx] eqn:Hx.
      cbn [snd] in *. rewrite Hthis1. cbn [repos].
      destruct (is_empty l); [reflexivity |].
      destruct (mapM (fetchRepoStats api) l wx) as [results w2].
      destruct (fold_left add_stats results (0, 0)) as [s' f']. reflexivity.
    - rewrite Hempty, Hthis1. cbn [repos].
      assert (Hl : is_empty l = false).
      { subst l. unfold repos_in_use. rewrite Hempty. exact Hempty. }
      rewrite Hl.
      destruct (mapM (fetchRepoStats api) l w) as [results w2].
      destruct (fold_left add_stats results (0, 0)) as [s' f']. reflexivity. }
  rewrite Hrun. clear Hrun. subst s f. clearbody l w1.
  destruct l as [| r l'].
  - cbn [is_empty]. simpl. rewrite app_nil_r.
    destruct w1 as [th rq]. simpl in *. rewrite Hthis1, Hreq1. reflexivity.
  - cbn [is_empty]. remember (r :: l') as l eqn:Hl.
    pose proof (mapM_fetchRepoStats l w1) as Hmap.
    destruct (mapM (fetchRepoStats api) l w1) as [results w2].
    destruct Hmap as (Hthis2 & Hreq2 & Hfold).
    rewrite Hfold, Hthis2, Hthis1, Hreq2, Hreq1, <- app_assoc. reflexivity.
Qed.

(** X8. [fetchAllStats] reads the projects page only when the loader holds
    no repository yet, then issues one lookup for each repository, in the
    order of the list; the totals it returns are the sums of the counts of
    the lookups that succeeded (a failed lookup counts for nothing, a
    missing count for zero).  It stores the totals in the loader, except
    when there is no repository at all: then the stored totals stay as they
    were. *)
Theorem fetchAllStats_sums :
  forall w : World,
    let l := repos_in_use w in
    let '(stats, w') := fetchAllStats projects_page api w in
    stats = mkTotals (total stargazers_count l) (total forks_count l)
    /\ requests w' = (requests w ++ page_requests w ++ map GetRepo l)%list
    /\ repos (this w') = l
    /\ (l <> [] ->
        totalStars (this w') = sum_stars stats
        /\ totalForks (this w') = sum_forks stats)
    /\ (l = [] ->
        totalStars (this w') = totalStars (this w)
        /\ totalForks (this w') = totalForks (this w)).
Proof.
  intros w l. rewrite (fetchAllStats_run w). fold l.
  split; [reflexivity |]. split; [reflexivity |].
  destruct l as [| r l']; cbn [is_empty this repos totalStars totalForks
                               sum_stars sum_forks].
  - split; [reflexivity |].
    split; [intros Hne; contradiction Hne; reflexivity |].
    intros _. split; reflexivity.
  - split; [reflexivity |].
    split; [intros _; split; reflexivity |].
    intros Hnil. discriminate Hnil.
Qed.

End StatsTotals.

(* ===================================================================== *)
(** ** The statistics tiles *)
(* ===================================================================== *)

Section TilesFacts.

Import GitHubStats.

Local Open Scope Z_scope.

Variable big_to_string : spec_float -> string.
Variable projects_page : FetchResult Document.
Variable api : string -> FetchResult RepoData.

Definition lookup_fails (r : FetchResult RepoData) : bool :=
  match r with
  | Response true _ (Some _) => false
  | _ => true
  end.

Lemma total_of_failures (field : RepoData -> option Z) (l : list string) :
  (forall r, In r l -> lookup_fails (api r) = true) ->
  total api field l = 0.
Proof.
  induction l as [| r l IH]; intros Hfail; [reflexivity |].
  unfold total in *. cbn [map fold_right].
  rewrite IH by (intros r' Hr'; apply Hfail; right; exact Hr').
  assert (Hr : lookup_fails (api r) = true) by (apply Hfail; left; reflexivity).
  unfold counted, lookup_fails in *.
  destruct (api r) as [| [] status [data |]]; try reflexivity. discriminate Hr.
Qed.

(** X9. When the page loads and no count can be had (the projects page
    cannot be fetched or read, it names no repository, or every lookup
    fails), [init] ends with the two tiles showing [0]: the figures of an
    empty total, not the dashes of [showError] and not the spinner.  The
    requests made are the one for the projects page and one lookup for each
    repository found. *)
Theorem stats_init_shows_zero :
  (forall r, In r (extracted projects_page) -> lookup_fails (api r) = true) ->
  forall g : string,
    let run := StatsPage.init big_to_string projects_page api (Some g)
                              (mkWorld new_loader []) in
    fst run = StatsPage.renderStats big_to_string (mkTotals 0 0) (Some g)
    /\ formatNumber big_to_string 0 = "0"%string
    /\ fst run <> StatsPage.showError (Some g)
    /\ fst run <> StatsPage.showLoading (Some g)
    /\ requests (snd run)
       = GetProjectsPage :: map GetRepo (extracted projects_page).
Proof.
  intros Hfail g run.
  assert (Hrun : run
    = (StatsPage.renderStats big_to_string (mkTotals 0 0) (Some g),
       snd (fetchAllStats projects_page api (mkWorld new_loader [])))).
  { subst run. unfold StatsPage.init, bind, ret.
    rewrite (fetchAllStats_run projects_page api (mkWorld new_loader [])).
    unfold repos_in_use. cbn [this repos new_loader is_empty snd].
    rewrite !total_of_failures by exact Hfail. reflexivity. }
  rewrite Hrun. cbn [fst snd].
  split; [reflexivity |]. split; [reflexivity |].
  split; [| split].
  - intros H. vm_compute in H. discriminate H.
  - intros H. vm_compute in H. discriminate H.
  - rewrite (fetchAllStats_run projects_page api (mkWorld new_loader [])).
    reflexivity.
Qed.

End TilesFacts.

Lemma stats_init_shows_zero_witness :
  fst (StatsPage.init (fun _ => "") page_with_tree_link api_offline
                      (Some "") fresh_world)
  = StatsPage.renderStats (fun _ => "") (GitHubStats.mkTotals 0 0) (Some "")
  /\ GitHubStats.requests
       (snd (StatsPage.init (fun _ => "") page_with_tree_link api_offline
                            (Some "") fresh_world))
     = [GitHubStats.GetProjectsPage; GitHubStats.GetRepo "mlc-ai/mlc-llm"].
Proof.
  destruct (stats_init_shows_zero (fun _ => "") page_with_tree_link api_offline
              (fun r _ => eq_refl) "")
    as (Hgrid & _ & _ & _ & Hreq).
  split; [exact Hgrid | exact Hreq].
Defined.

(* ===================================================================== *)
(** ** The highlighted navigation link *)
(* ===================================================================== *)

Section NavFacts.

Import Includer.

Variable pathname : string.

Definition no_slash (s : string) : bool :=
  all_chars (fun c => negb (JS.is_slash c)) s.

(** A text ends its directory part with a slash, or has none. *)
Definition directory_part (dir : string) : Prop :=
  dir = "" \/ exists d, dir = d ++ "/".

Lemma split_char_from_nonempty (sep : ascii) (cur s : string) :
  JS.split_char_from sep cur s <> [].
Proof.
  revert cur. induction s as [| c t IH]; intros cur; simpl; [discriminate |].
  destruct (Ascii.eqb c sep); [discriminate | apply IH].
Qed.

Lemma last_split_char_from (s cur : string) :
  no_slash cur = true ->
  exists dir seg,
    cur ++ s = dir ++ seg
    /\ no_slash seg = true
    /\ directory_part dir
    /\ last (JS.split_char_from "/" cur s) "" = seg.
Proof.
  revert cur. induction s as [| c t IH]; intros cur Hcur.
  - exists "", cur. rewrite append_nil_r. simpl.
    repeat split; auto. left; reflexivity.
  - cbn [JS.split_char_from].
    destruct (Ascii.eqb_spec c "/"%char) as [-> | Hc].
    + destruct (IH "" eq_refl) as (dir & seg & Heq & Hseg & Hdir & Hlast).
      cbn [append] in Heq.
      exists (cur ++ "/" ++ dir), seg.
      split; [| split; [exact Hseg | split]].
      * rewrite !append_assoc. cbn [append]. now rewrite Heq.
      * right. destruct Hdir as [-> | (d & ->)].
        -- exists cur. reflexivity.
        -- exists (cur ++ "/" ++ d). now rewrite !append_assoc.
      * pose proof (split_char_from_nonempty "/" "" t) as Hne.
        destruct (JS.split_char_from "/" "" t) as [| x l] eqn:E;
          [contradiction Hne; reflexivity |].
        cbn [last]. exact Hlast.
    + assert (Hcur' : no_slash (cur ++ String c "") = true).
      { unfold no_slash in *. rewrite all_chars_append, Hcur. simpl.
        unfold JS.is_slash. apply Ascii.eqb_neq in Hc. now rewrite Hc. }
      destruct (IH _ Hcur') as (dir & seg & Heq & Hseg & Hdir & Hlast).
      exists dir, seg. rewrite append_assoc in Heq. cbn [append] in Heq.
      auto.
Qed.

Lemma current_page_nonempty : current_page pathname <> "".
Proof.
  unfold current_page.
  destruct (String.eqb_spec (last (JS.split_char "/" pathname) "") "")
    as [_ | Hne]; [discriminate | exact Hne].
Qed.

(** X10. The page name [setActiveNavLink] compares with is what follows
    the last slash of the path, and [index.html] when nothing follows it;
    it is never empty and holds no slash.  Afterwards exactly the links
    whose [href] equals that name are active, every other link (also one
    without [href]) is inactive, no [href] has changed, and a second run
    changes nothing. *)
Theorem setActiveNavLink_marks :
  forall pg : Page,
    let current := current_page pathname in
    let pg' := setActiveNavLink pathname pg in
    current <> ""
    /\ no_slash current = true
    /\ (exists dir seg,
          pathname = dir ++ seg /\ no_slash seg = true /\ directory_part dir
          /\ current = if String.eqb seg "" then "index.html" else seg)
    /\ map nav_href (nav_links pg') = map nav_href (nav_links pg)
    /\ (forall l, In l (nav_links pg') ->
          (nav_active l = true <-> nav_href l = Some current))
    /\ setActiveNavLink pathname pg' = pg'.
Proof.
  intros pg current pg'.
  pose proof current_page_nonempty as Hne. fold current in Hne.
  assert (Hnot : String.eqb current "" = false)
    by (apply String.eqb_neq; exact Hne).
  destruct (last_split_char_from pathname "" eq_refl)
    as (dir & seg & Heq & Hseg & Hdir & Hlast).
  cbn [append] in Heq.
  assert (Hcur : current = if String.eqb seg "" then "index.html" else seg).
  { subst current. unfold current_page, JS.split_char. now rewrite Hlast. }
  split; [exact Hne |]. split.
  { rewrite Hcur. destruct (String.eqb seg ""); [reflexivity | exact Hseg]. }
  split; [exists dir, seg; auto |].
  subst pg'. unfold setActiveNavLink. fold current. cbn [nav_links].
  rewrite Hnot. cbn [andb].
  split; [| split].
  - rewrite map_map. apply map_ext. intros l.
    destruct (nav_href l) as [h |]; [| reflexivity].
    rewrite orb_false_r. destruct (String.eqb h current); reflexivity.
  - intros l Hin. apply in_map_iff in Hin. destruct Hin as (l0 & <- & _).
    destruct (nav_href l0) as [h |] eqn:Hh; cbn [nav_active nav_href].
    + rewrite orb_false_r.
      destruct (String.eqb_spec h current) as [-> | Hdiff];
        cbn [nav_active nav_href].
      * split; reflexivity.
      * split; [discriminate | intros E; congruence].
    + split; discriminate.
  - f_equal. rewrite map_map. apply map_ext. intros l.
    destruct (nav_href l) as [h |] eqn:Hh; cbn [nav_href].
    + rewrite orb_false_r.
      destruct (String.eqb h current) eqn:E; cbn [nav_href];
        rewrite orb_false_r, E; reflexivity.
    + reflexivity.
Qed.

End NavFacts.

(* ===================================================================== *)
(** ** The posts of the index page *)
(* ===================================================================== *)

Section ScrapeFacts.

Import Blog.

Variable newDate : string -> option DateObj.
Variable formatDate : option string -> string.

(** What holds of a post as the scraper builds it. *)
Definition scraped_shape (p : Post) : Prop :=
  title p <> ""
  /\ JS.toLowerCase (title p) <> "home"
  /\ JS.startsWith (url p) "http" = true
  /\ JS.test re_post_path (url p) = true
  /\ match rawDate p with
     | Some raw => looks_like_date raw = true
     | None => True
     end
  /\ date p = parseDateString newDate (rawDate p)
  /\ formattedDate p = formatDate (JS.or_else (date p) (rawDate p))
  /\ excerpt p = None /\ category p = None /\ readTime p = None.

Lemma test_append_left (r : JS.regex) (p s : string) :
  JS.test r s = true -> JS.test r (p ++ s) = true.
Proof.
  intros H. induction p as [| c p IH]; [exact H |].
  cbn [append JS.test]. rewrite IH. apply orb_true_r.
Qed.

Lemma scrape_item_shape (li : ListItem) (p : Post) :
  scrape_item newDate formatDate li = Some p -> scraped_shape p.
Proof.
  unfold scrape_item.
  destruct (li_link li) as [[textContent href] |]; [| discriminate].
  destruct (String.eqb_spec (JS.trim textContent) "") as [| Htitle];
    [discriminate |].
  destruct (String.eqb_spec (JS.toLowerCase (JS.trim textContent)) "home")
    as [| Hhome]; [discriminate |].
  cbn [orb].
  destruct href as [h |].
  - destruct (String.eqb h "/" || String.eqb h "/index.html");
      [discriminate |].
    destruct (JS.test re_post_path h) eqn:Hpath; [| discriminate].
    cbn [negb].
    set (url := if JS.startsWith h "http" then h
                else "https://blog.mlc.ai" ++ h).
    destruct (String.eqb url ""); [discriminate |].
    intros E. injection E as <-. unfold scraped_shape.
    cbn [title Blog.url rawDate date formattedDate excerpt category readTime].
    split; [exact Htitle |]. split; [exact Hhome |].
    split; [| split; [| split]].
    + subst url. destruct (JS.startsWith h "http") eqn:Hs; [exact Hs |].
      reflexivity.
    + subst url. destruct (JS.startsWith h "http"); [exact Hpath |].
      apply test_append_left. exact Hpath.
    + destruct (find looks_like_date (rev (map JS.trim (li_spans li))))
        as [raw |] eqn:Hfind; [| exact I].
      apply find_some in Hfind. apply Hfind.
    + repeat split.
  - destruct (JS.test re_post_path "null"); discriminate.
Qed.

Lemma scrape_shape (items : list ListItem) :
  Forall scraped_shape (scrape newDate formatDate items)
  /\ (List.length (scrape newDate formatDate items) <= List.length items)%nat.
Proof.
  induction items as [| li rest [IHshape IHlen]]; [split; [constructor | auto] |].
  cbn [scrape List.length].
  destruct (scrape_item newDate formatDate li) as [p |] eqn:Hitem.
  - split; [| cbn [List.length]; lia].
    constructor; [exact (scrape_item_shape li p Hitem) | exact IHshape].
  - split; [exact IHshape | lia].
Qed.

(** X11. Every post that [fetchPostsFromBlog] returns has a title that is
    neither empty nor "home", an absolute address (it starts with [http])
    that holds the date path, a raw date text, when it has one, that looks
    like a date, the normalised date and the shown date computed from that
    text, and no excerpt, category or read time yet; there are no more
    posts than list items, and sorting drops or adds none. *)
Theorem fetchPostsFromBlog_shape :
  forall (index : FetchResult (list ListItem)) (l : list Post),
    fetchPostsFromBlog newDate formatDate index = Some l ->
    exists status items,
      index = Response true status (Some items)
      /\ Forall scraped_shape l
      /\ Permutation (scrape newDate formatDate items) l
      /\ (List.length l <= List.length items)%nat.
Proof.
  intros index l H. unfold fetchPostsFromBlog in H.
  destruct index as [| [] status [items |]]; try discriminate H.
  injection H as <-. exists status, items.
  pose proof (sortPosts_perm newDate (scrape newDate formatDate items)) as Hperm.
  destruct (scrape_shape items) as [Hshape Hlen].
  split; [reflexivity |]. split; [| split].
  - apply Forall_forall. intros p Hin.
    apply (Permutation_in _ (Permutation_sym Hperm)) in Hin.
    revert p Hin. apply Forall_forall. exact Hshape.
  - exact Hperm.
  - rewrite <- (Permutation_length Hperm). exact Hlen.
Qed.

End ScrapeFacts.

Lemma fetchPostsFromBlog_shape_witness :
  exists status items,
    Response true 200 (Some index_my_post) = Response true status (Some items)
    /\ Forall (scraped_shape strict_engine (fun _ => ""))
              (Blog.sortPosts strict_engine
                 (Blog.scrape strict_engine (fun _ => "") index_my_post))
    /\ Permutation (Blog.scrape strict_engine (fun _ => "") items)
                   (Blog.sortPosts strict_engine
                      (Blog.scrape strict_engine (fun _ => "") index_my_post))
    /\ (List.length (Blog.sortPosts strict_engine
                       (Blog.scrape strict_engine (fun _ => "") index_my_post))
        <= List.length items)%nat.
Proof.
  exact (fetchPostsFromBlog_shape strict_engine (fun _ => "")
           (Response true 200 (Some index_my_post)) _ eq_refl).
Defined.

(* ===================================================================== *)
(** ** The loader after [fetchAllPosts] *)
(* ===================================================================== *)

Section PipelineFacts.

Import Blog.

Variable newDate : string -> option DateObj.
Variable formatDate : option string -> string.
Variable net : string -> FetchResult PostPage.

(** The answer has a status outside 200..299. *)
Definition bad_status (r : FetchResult PostPage) : bool :=
  match r with
  | Response false _ _ => true
  | _ => false
  end.

Lemma length_default_excerpt : String.length default_excerpt = 36%nat.
Proof. reflexivity. Qed.

(** X12. Whatever the fetch of the post's page gives, [enrichPostData]
    keeps the scraped fields.  Unless the answer has a bad status, the
    result has an excerpt that is not empty and has at most 203 characters,
    and its category is the one of the title, one of the four fixed
    names. *)
Theorem enrichPostData_fields :
  forall post : Post,
    let q := enrichPostData net post in
    same_scraped_fields post q
    /\ (bad_status (net (url post)) = false ->
        exists e,
          excerpt q = Some e /\ e <> ""
          /\ (String.length e <= 203)%nat
          /\ category q = Some (determineCategory (title post) "")
          /\ In (determineCategory (title post) "") fixed_categories).
Proof.
  intros post q. subst q. unfold enrichPostData.
  assert (Hdefaults :
    same_scraped_fields post (with_defaults post)
    /\ exists e,
         excerpt (with_defaults post) = Some e /\ e <> ""
         /\ (String.length e <= 203)%nat
         /\ category (with_defaults post)
            = Some (determineCategory (title post) "")
         /\ In (determineCategory (title post) "") fixed_categories).
  { split; [repeat split |].
    exists default_excerpt. cbn [with_defaults with_enrichment excerpt category].
    split; [reflexivity |]. split; [discriminate |].
    split; [rewrite length_default_excerpt; lia |].
    split; [reflexivity | apply determineCategory_fixed]. }
  destruct Hdefaults as [Hsame Hex].
  destruct (net (url post)) as [| [] status [doc |]]; cbn [bad_status].
  - split; [exact Hsame | intros _; exact Hex].
  - set (excerpt1 :=
           if negb (JS.truthy match meta_description doc with
                              | Some content => content
                              | None => Some ""
                              end)
           then match first_paragraph doc with
                | Some text => Some (JS.trim text)
                | None => match meta_description doc with
                          | Some content => content
                          | None => Some ""
                          end
                end
           else match meta_description doc with
                | Some content => content
                | None => Some ""
                end).
    destruct excerpt1 as [e |]; [| split; [exact Hsame | intros _; exact Hex]].
    split; [repeat split |]. intros _.
    set (e' := if (200 <? String.length e)%nat then JS.take 200 e ++ "..." else e).
    assert (Hlen : (String.length e' <= 203)%nat).
    { subst e'. destruct (200 <? String.length e)%nat eqn:Hcut.
      - apply Nat.ltb_lt in Hcut.
        rewrite length_append, (@length_take 200 e) by lia. simpl. lia.
      - apply Nat.ltb_ge in Hcut. lia. }
    exists (if String.eqb e' "" then default_excerpt else e').
    cbn [with_enrichment excerpt category].
    split; [reflexivity |]. split; [| split; [| split]].
    + destruct (String.eqb_spec e' ""); [discriminate | assumption].
    + destruct (String.eqb e' ""); [rewrite length_default_excerpt; lia | exact Hlen].
    + reflexivity.
    + apply determineCategory_fixed.
  - split; [exact Hsame | intros _; exact Hex].
  - split; [repeat split | discriminate].
  - split; [repeat split | discriminate].
Qed.

Lemma enrichPostData_category (post : Post) :
  category (enrichPostData net post)
  = if bad_status (net (url post)) then category post
    else Some (determineCategory (title post) "").
Proof.
  unfold enrichPostData.
  destruct (net (url post)) as [| [] status [doc |]]; cbn [bad_status];
    try reflexivity.
  destruct (if negb (JS.truthy match meta_description doc with
                               | Some content => content
                               | None => Some ""
                               end)
            then match first_paragraph doc with
                 | Some text => Some (JS.trim text)
                 | None => match meta_description doc with
                           | Some content => content
                           | None => Some ""
                           end
                 end
            else match meta_description doc with
                 | Some content => content
                 | None => Some ""
                 end); reflexivity.
Qed.

Lemma enrichPostData_url (post : Post) :
  url (enrichPostData net post) = url post.
Proof.
  unfold enrichPostData.
  destruct (net (url post)) as [| [] status [doc |]]; try reflexivity.
  destruct (if negb (JS.truthy match meta_description doc with
                               | Some content => content
                               | None => Some ""
                               end)
            then match first_paragraph doc with
                 | Some text => Some (JS.trim text)
                 | None => match meta_description doc with
                           | Some content => content
                           | None => Some ""
                           end
                 end
            else match meta_description doc with
                 | Some content => content
                 | None => Some ""
                 end); reflexivity.
Qed.

(** The outcome of [fetchAllPosts], as one equation. *)
Definition scraped_posts (index : FetchResult (list ListItem)) : list Post :=
  match fetchPostsFromBlog newDate formatDate index with
  | Some scraped => scraped
  | None => []
  end.

Lemma fetchAllPosts_run (index : FetchResult (list ListItem))
      (self : BlogLoader) :
  fetchAllPosts newDate formatDate net index self
  = match scraped_posts index with
    | [] => ([], self, [])
    | scraped =>
        let enriched := map (enrichPostData net) scraped in
        (enriched,
         mkBlogLoader enriched
           (fold_left categories_add (map category enriched) (categories self))
           (currentCategory self),
         schedule (chunk scraped))
    end.
Proof.
  unfold fetchAllPosts, scraped_posts.
  destruct (fetchPostsFromBlog newDate formatDate index) as [[| p t] |];
    try reflexivity.
  rewrite enrichLoop_spec. reflexivity.
Qed.

Lemma option_string_eqb_eq (a b : option string) :
  option_string_eqb a b = true <-> a = b.
Proof.
  destruct a as [x |], b as [y |]; cbn [option_string_eqb];
    try (split; [discriminate | congruence]); [| tauto].
  rewrite String.eqb_eq. split; congruence.
Qed.

Lemma existsb_option_In (c : option string) (s : list (option string)) :
  existsb (option_string_eqb c) s = true <-> In c s.
Proof.
  rewrite existsb_exists. split.
  - intros (y & Hin & E). apply option_string_eqb_eq in E. now subst.
  - intros Hin. exists c. split; [exact Hin |].
    now apply option_string_eqb_eq.
Qed.

Lemma categories_add_In (s : list (option string)) (c y : option string) :
  In y (categories_add s c) <-> In y s \/ y = c.
Proof.
  unfold categories_add.
  destruct (existsb (option_string_eqb c) s) eqn:E.
  - apply existsb_option_In in E. split; [tauto |].
    intros [H | ->]; assumption.
  - rewrite in_app_iff. cbn [In]. intuition congruence.
Qed.

Lemma categories_add_NoDup (s : list (option string)) (c : option string) :
  NoDup s -> NoDup (categories_add s c).
Proof.
  intros Hs. unfold categories_add.
  destruct (existsb (option_string_eqb c) s) eqn:E; [exact Hs |].
  apply NoDup_app; [exact Hs | repeat constructor; intros [] |].
  intros y Hy [<- | []].
  apply existsb_option_In in Hy. congruence.
Qed.

Lemma categories_fold (l s : list (option string)) :
  (forall y, In y (fold_left categories_add l s) <-> In y s \/ In y l)
  /\ (NoDup s -> NoDup (fold_left categories_add l s)).
Proof.
  revert s. induction l as [| c l IH]; intros s; cbn [fold_left].
  - split; [intros y; cbn [In]; tauto | auto].
  - destruct (IH (categories_add s c)) as [Hin Hnd]. split.
    + intros y. rewrite Hin, categories_add_In. cbn [In].
      split; intros H; intuition congruence.
    + intros Hs. apply Hnd, categories_add_NoDup, Hs.
Qed.

Lemma scraped_posts_shape (index : FetchResult (list ListItem)) :
  Forall (scraped_shape newDate formatDate) (scraped_posts index).
Proof.
  unfold scraped_posts, fetchPostsFromBlog.
  destruct index as [| [] status [items |]]; try constructor.
  apply Forall_forall. intros p Hin.
  pose proof (sortPosts_perm newDate (scrape newDate formatDate items)) as Hperm.
  apply (Permutation_in _ (Permutation_sym Hperm)) in Hin.
  revert p Hin. apply Forall_forall. apply scrape_shape.
Qed.

(** X13. [fetchAllPosts] returns the scraped posts enriched one by one, in
    their order.  When the index cannot be read or holds no post, the
    loader is left as it was (posts and categories of an earlier run stay)
    and no page is fetched.  Otherwise the loader holds the returned posts;
    the selected category is never touched; the category set gains exactly
    the categories of the returned posts and has no duplicate; and each of
    these categories is one of the four fixed names, or is undefined, which
    happens only when the page of some post answered with a bad status. *)
Theorem fetchAllPosts_loader :
  forall (index : FetchResult (list ListItem)) (self : BlogLoader),
    let scraped := scraped_posts index in
    let '(result, self', log) :=
      fetchAllPosts newDate formatDate net index self in
    result = map (enrichPostData net) scraped
    /\ (scraped = [] -> self' = self /\ log = [])
    /\ (scraped <> [] -> posts self' = result)
    /\ currentCategory self' = currentCategory self
    /\ (forall c, In c (categories self')
                  <-> In c (categories self) \/ In c (map category result))
    /\ (NoDup (categories self) -> NoDup (categories self'))
    /\ (forall c, In c (map category result) ->
          match c with
          | Some k => In k fixed_categories
          | None => exists p, In p result /\ bad_status (net (url p)) = true
          end).
Proof.
  intros index self scraped.
  rewrite fetchAllPosts_run. fold scraped.
  pose proof (scraped_posts_shape index) as Hshape. fold scraped in Hshape.
  assert (Hcats : forall c,
    In c (map category (map (enrichPostData net) scraped)) ->
    match c with
    | Some k => In k fixed_categories
    | None => exists p, In p (map (enrichPostData net) scraped)
                        /\ bad_status (net (url p)) = true
    end).
  { intros c Hc. apply in_map_iff in Hc. destruct Hc as (q & <- & Hq).
    pose proof Hq as Hq'.
    apply in_map_iff in Hq. destruct Hq as (p & <- & Hp).
    rewrite Forall_forall in Hshape. specialize (Hshape p Hp).
    destruct Hshape as (_ & _ & _ & _ & _ & _ & _ & _ & Hcat & _).
    rewrite enrichPostData_category, Hcat.
    destruct (bad_status (net (url p))) eqn:Hbad.
    - exists (enrichPostData net p). split; [exact Hq' |].
      rewrite enrichPostData_url. exact Hbad.
    - apply determineCategory_fixed. }
  clearbody scraped.
  destruct scraped as [| p t].
  - cbn [map]. split; [reflexivity |]. split; [auto |].
    split; [intros H; contradiction H; reflexivity |].
    split; [reflexivity |]. split; [cbn [In]; tauto |].
    split; [auto | intros c []].
  - remember (p :: t) as scraped eqn:Hs.
    cbv zeta. cbn [posts categories currentCategory].
    destruct (categories_fold
                (map category (map (enrichPostData net) scraped))
                (categories self)) as [Hin Hnd].
    split; [reflexivity |].
    split; [intros E; rewrite Hs in E; discriminate E |].
    split; [reflexivity |]. split; [reflexivity |].
    split; [exact Hin |]. split; [exact Hnd | exact Hcats].
Qed.

End PipelineFacts.

(* ===================================================================== *)
(** ** Pending requests of the enrichment loop *)
(* ===================================================================== *)

Section FlightFacts.

Import Blog.

Variable net : string -> FetchResult PostPage.

(** X14. In a run of the enrichment loop the page of every scraped post is
    requested exactly once, in the order of the posts; at no moment are
    more than five requests pending; every [Promise.all] awaits exactly the
    requests pending at that moment; and a pause is taken only when none
    is. *)
Theorem enrichLoop_pending :
  forall scraped : list Post,
    let log := snd (enrichLoop net scraped 0 [] []) in
    fetch_targets log = map url scraped
    /\ in_flight_bounded batchSize 0 log = true
    /\ (forall newDate formatDate index self,
          fetchPostsFromBlog newDate formatDate index = Some scraped ->
          snd (fetchAllPosts newDate formatDate net index self)
          = match scraped with [] => [] | _ => log end).
Proof.
  intros scraped log. subst log. rewrite enrichLoop_spec.
  cbn [snd skipn app].
  split; [| split].
  - rewrite fetch_targets_schedule, concat_chunk. reflexivity.
  - apply in_flight_schedule, chunk_lengths.
  - intros newDate formatDate index self Hfetch.
    rewrite fetchAllPosts_run. unfold scraped_posts. rewrite Hfetch.
    destruct scraped; reflexivity.
Qed.

End FlightFacts.

(* ===================================================================== *)
(** ** The blog page after [init] *)
(* ===================================================================== *)

Section PageFacts.

Import Blog.

Variable newDate : string -> option DateObj.
Variable formatDate : option string -> string.
Variable net : string -> FetchResult PostPage.
Variable index : FetchResult (list ListItem).
Variable month_and_year : string -> string.
Variable percent : nat -> nat -> string.

(** The card of a post that has a category. *)
Definition card_of (p : Post) : string :=
  match renderPostCard month_and_year p with
  | Some card => card
  | None => ""
  end.

(** The posts the loader holds after a run on a fresh loader. *)
Definition enriched_posts : list Post :=
  map (enrichPostData net) (scraped_posts newDate formatDate index).

Definition page_failed (p : Post) : bool := bad_status (net (url p)).

Lemma renderPostCard_none (p : Post) :
  renderPostCard month_and_year p = None <-> category p = None.
Proof.
  unfold renderPostCard. destruct (category p); split; congruence.
Qed.

Lemma render_cards_spec (l : list Post) :
  (forall p, In p l -> (category p = None <-> page_failed p = true)) ->
  render_cards month_and_year l
  = if existsb page_failed l then None else Some (map card_of l).
Proof.
  induction l as [| p l IH]; intros Hcat; [reflexivity |].
  cbn [render_cards existsb map].
  pose proof (Hcat p (or_introl eq_refl)) as Hp.
  rewrite IH by (intros q Hq; apply Hcat; right; exact Hq).
  assert (Hc : forall card, renderPostCard month_and_year p = Some card ->
                            card_of p = card)
    by (intros card E; unfold card_of; now rewrite E).
  destruct (renderPostCard month_and_year p) as [card |] eqn:Hcard.
  - rewrite (Hc card eq_refl).
    assert (Hok : page_failed p = false).
    { destruct (page_failed p); [| reflexivity].
      assert (Hnone : category p = None) by (apply Hp; reflexivity).
      apply renderPostCard_none in Hnone. congruence. }
    rewrite Hok. cbn [orb]. destruct (existsb page_failed l); reflexivity.
  - apply renderPostCard_none in Hcard. apply Hp in Hcard.
    rewrite Hcard. reflexivity.
Qed.

Lemma enriched_posts_category (p : Post) :
  In p enriched_posts -> (category p = None <-> page_failed p = true).
Proof.
  unfold enriched_posts, page_failed. intros Hin.
  apply in_map_iff in Hin. destruct Hin as (p0 & <- & Hp0).
  pose proof (scraped_posts_shape newDate formatDate index) as Hshape.
  rewrite Forall_forall in Hshape. specialize (Hshape p0 Hp0).
  destruct Hshape as (_ & _ & _ & _ & _ & _ & _ & _ & Hcat & _).
  rewrite enrichPostData_category, enrichPostData_url, Hcat.
  destruct (bad_status (net (url p0))); split; congruence.
Qed.

Lemma fetchAllPosts_fresh :
  snd (fst (fetchAllPosts newDate formatDate net index new_loader))
  = mkBlogLoader enriched_posts
      (categories (snd (fst (fetchAllPosts newDate formatDate net index
                                           new_loader))))
      (Some "all").
Proof.
  rewrite fetchAllPosts_run. unfold enriched_posts.
  destruct (scraped_posts newDate formatDate index); reflexivity.
Qed.

Lemma renderFeaturedArticle_parts (self : BlogLoader) (post : option Post)
      (dom : BlogPage.Dom) :
  let dom' := BlogPage.renderFeaturedArticle percent self post dom in
  BlogPage.postsGrid dom' = BlogPage.postsGrid dom
  /\ BlogPage.newsGrid dom' = BlogPage.newsGrid dom
  /\ BlogPage.categoryButtons dom' = BlogPage.categoryButtons dom
  /\ forall g, BlogPage.featuredSection
                 (BlogPage.renderFeaturedArticle percent self post
                    (BlogPage.with_postsGrid g dom))
               = BlogPage.featuredSection dom'.
Proof.
  unfold BlogPage.renderFeaturedArticle.
  destruct dom as [bp pg fs cb ng btns installed].
  cbn [BlogPage.featuredSection BlogPage.with_postsGrid BlogPage.blog_posts
       BlogPage.postsGrid BlogPage.chartBars BlogPage.newsGrid
       BlogPage.categoryButtons].
  destruct fs as [f |], post as [p |]; try (repeat split; fail).
  destruct cb as [c |]; repeat split.
Qed.

(** X15. [init] on a fresh loader, on a page that has the grid.  The loader
    ends up holding the enriched posts.  When there is none, because the
    index could not be fetched or read or because it lists no post, the
    grid shows "No blog posts found."  When the page of a post after the
    first one answered with a bad status, the grid shows "Failed to load
    blog posts. Please try again later." although every post was obtained,
    and the featured block has been drawn all the same.  Otherwise the grid
    holds the cards of the posts after the first one, in order, or the
    empty-category message when the first post is the only one. *)
Theorem init_outcome :
  forall (dom0 : BlogPage.Dom) (g : string),
    let dom := BlogPage.with_postsGrid (Some g) dom0 in
    let run := BlogPage.init newDate formatDate net index month_and_year
                             percent new_loader dom in
    posts (fst run) = enriched_posts
    /\ BlogPage.postsGrid (snd run)
       = Some match enriched_posts with
              | [] => BlogPage.error_markup BlogPage.no_posts_found
              | first :: others =>
                  if existsb page_failed others
                  then BlogPage.error_markup BlogPage.failed_to_load
                  else match others with
                       | [] => no_posts_message
                       | _ => JS.join (map card_of others)
                       end
              end
    /\ BlogPage.featuredSection (snd run)
       = match enriched_posts with
         | [] => BlogPage.featuredSection dom0
         | first :: _ =>
             BlogPage.featuredSection
               (BlogPage.renderFeaturedArticle percent (fst run) (Some first)
                                               dom0)
         end.
Proof.
  intros dom0 g dom run. subst run. unfold BlogPage.init.
  pose proof fetchAllPosts_fresh as Hfresh.
  destruct (fetchAllPosts newDate formatDate net index new_loader)
    as [[res self1] log].
  cbn [fst snd] in Hfresh.
  pose proof enriched_posts_category as Hcat.
  assert (Hposts : posts self1 = enriched_posts)
    by (rewrite Hfresh; reflexivity).
  destruct enriched_posts as [| first others]; rewrite Hposts; cbv beta iota.
  - cbn [fst snd]. split; [exact Hposts |]. split; reflexivity.
  - set (dom1 := BlogPage.showLoading dom).
    destruct (renderFeaturedArticle_parts self1 (Some first) dom1)
      as (Hgrid & _ & _ & _).
    destruct (renderFeaturedArticle_parts self1 (Some first) dom0)
      as (_ & _ & _ & Hfeat).
    set (dom2 := BlogPage.renderFeaturedArticle percent self1 (Some first) dom1)
      in *.
    assert (Hpg : exists loading, BlogPage.postsGrid dom2 = Some loading).
    { rewrite Hgrid. subst dom1 dom. eexists. reflexivity. }
    destruct Hpg as (loading & Hpg).
    assert (Hrender :
      renderPosts month_and_year self1 (BlogPage.postsGrid dom2)
      = if existsb page_failed others then
          match others with
          | [] => Some (Some no_posts_message)
          | _ => None
          end
        else Some (Some match others with
                        | [] => no_posts_message
                        | _ => JS.join (map card_of others)
                        end)).
    { rewrite Hpg, Hfresh. unfold renderPosts, postsToRender, filteredPosts.
      cbn [currentCategory posts option_string_eqb String.eqb Ascii.eqb
           Bool.eqb tl].
      destruct others as [| second more]; [reflexivity |].
      rewrite (render_cards_spec (second :: more))
        by (intros p Hp; apply Hcat; right; exact Hp).
      destruct (existsb page_failed (second :: more)); reflexivity. }
    rewrite Hrender.
    assert (Hfs : BlogPage.featuredSection dom2
                  = BlogPage.featuredSection
                      (BlogPage.renderFeaturedArticle percent self1
                         (Some first) dom0)).
    { subst dom2 dom1 dom. unfold BlogPage.showLoading.
      change (BlogPage.postsGrid (BlogPage.with_postsGrid (Some g) dom0))
        with (Some g).
      cbv beta iota.
      match goal with
      | |- context [BlogPage.with_postsGrid (Some ?m)
                      (BlogPage.with_postsGrid (Some g) dom0)] =>
          change (BlogPage.with_postsGrid (Some m)
                    (BlogPage.with_postsGrid (Some g) dom0))
            with (BlogPage.with_postsGrid (Some m) dom0)
      end.
      apply Hfeat. }
    destruct others as [| second more].
    + cbn [existsb fst snd]. split; [exact Hposts |].
      split; [reflexivity | exact Hfs].
    + destruct (existsb page_failed (second :: more)); cbn [fst snd].
      * split; [exact Hposts |]. unfold BlogPage.showError. rewrite Hpg.
        split; [reflexivity | exact Hfs].
      * split; [exact Hposts |]. split; [reflexivity | exact Hfs].
Qed.

Lemma enrichPostData_title (post : Post) :
  title (enrichPostData net post) = title post.
Proof.
  unfold enrichPostData.
  destruct (net (url post)) as [| [] status [doc |]]; try reflexivity.
  destruct (if negb (JS.truthy match meta_description doc with
                               | Some content => content
                               | None => Some ""
                               end)
            then match first_paragraph doc with
                 | Some text => Some (JS.trim text)
                 | None => match meta_description doc with
                           | Some content => content
                           | None => Some ""
                           end
                 end
            else match meta_description doc with
                 | Some content => content
                 | None => Some ""
                 end); reflexivity.
Qed.

Lemma category_label_fixed (p : Post) (c : string) :
  category p = Some c -> In c fixed_categories ->
  BlogPage.category_label p = capitalize c.
Proof.
  intros Hc Hin. unfold BlogPage.category_label. rewrite Hc.
  unfold fixed_categories in Hin. cbn [In] in Hin.
  destruct Hin as [<- | [<- | [<- | [<- | []]]]]; reflexivity.
Qed.

(** X16. [initHomepage] on a fresh loader, on a page that has the news
    grid.  When no post is obtained the grid keeps the content it had (no
    placeholder and no error card is written).  Otherwise the grid holds
    the news cards of the first two posts, of the only post when there is
    one.  Nothing else of the page is written.  A news card never fails: a
    post whose page answered with a bad status is labelled "Blog", every
    other post with the capitalised category of its title. *)
Theorem initHomepage_news :
  forall (dom0 : BlogPage.Dom) (g : string),
    let dom := BlogPage.with_newsGrid (Some g) dom0 in
    let run := BlogPage.initHomepage newDate formatDate net index
                                     month_and_year new_loader dom in
    let latest := firstn 2 enriched_posts in
    posts (fst run) = enriched_posts
    /\ BlogPage.newsGrid (snd run)
       = Some match enriched_posts with
              | [] => g
              | _ => JS.join (map (BlogPage.renderNewsCard month_and_year)
                                  latest)
              end
    /\ List.length latest = Nat.min 2 (List.length enriched_posts)
    /\ BlogPage.postsGrid (snd run) = BlogPage.postsGrid dom0
    /\ BlogPage.featuredSection (snd run) = BlogPage.featuredSection dom0
    /\ BlogPage.chartBars (snd run) = BlogPage.chartBars dom0
    /\ (forall p, In p enriched_posts ->
          BlogPage.category_label p
          = if page_failed p then "Blog"
            else capitalize (determineCategory (title p) "")).
Proof.
  intros dom0 g dom run latest. subst run. unfold BlogPage.initHomepage.
  pose proof fetchAllPosts_fresh as Hfresh.
  destruct (fetchAllPosts newDate formatDate net index new_loader)
    as [[res self1] log].
  cbn [fst snd] in Hfresh.
  assert (Hposts : posts self1 = enriched_posts)
    by (rewrite Hfresh; reflexivity).
  assert (Hlabels : forall p, In p enriched_posts ->
            BlogPage.category_label p
            = if page_failed p then "Blog"
              else capitalize (determineCategory (title p) "")).
  { intros p Hin. unfold enriched_posts in Hin.
    apply in_map_iff in Hin. destruct Hin as (p0 & <- & Hp0).
    pose proof (scraped_posts_shape newDate formatDate index) as Hshape.
    rewrite Forall_forall in Hshape. specialize (Hshape p0 Hp0).
    destruct Hshape as (_ & _ & _ & _ & _ & _ & _ & _ & Hcat & _).
    pose proof (enrichPostData_category net p0) as Hc.
    unfold page_failed. rewrite enrichPostData_url, enrichPostData_title.
    destruct (bad_status (net (url p0))).
    - unfold BlogPage.category_label. rewrite Hc, Hcat. reflexivity.
    - apply category_label_fixed; [exact Hc | apply determineCategory_fixed]. }
  subst latest.
  assert (Hlen : List.length (firstn 2 enriched_posts)
                 = Nat.min 2 (List.length enriched_posts))
    by apply length_firstn.
  destruct enriched_posts as [| first others] eqn:Hposts'; rewrite Hposts;
    cbv beta iota; cbn [fst snd].
  - split; [exact Hposts |]. split; [reflexivity |].
    split; [exact Hlen |]. split; [reflexivity |]. split; [reflexivity |].
    split; [reflexivity | exact Hlabels].
  - unfold BlogPage.renderHomepageBlogs. subst dom.
    cbn [BlogPage.newsGrid BlogPage.with_newsGrid]. rewrite Hposts.
    cbn [BlogPage.newsGrid BlogPage.with_newsGrid BlogPage.postsGrid
         BlogPage.featuredSection BlogPage.chartBars].
    split; [reflexivity |]. split; [reflexivity |].
    split; [exact Hlen |]. split; [reflexivity |]. split; [reflexivity |].
    split; [reflexivity | exact Hlabels].
Qed.

Lemma renderPosts_all_view (first : Post) (others : list Post)
      (cats : list (option string)) (g : string) :
  (forall p, In p others -> (category p = None <-> page_failed p = true)) ->
  renderPosts month_and_year (mkBlogLoader (first :: others) cats (Some "all"))
              (Some g)
  = if existsb page_failed others then None
    else Some (Some match others with
                    | [] => no_posts_message
                    | _ => JS.join (map card_of others)
                    end).
Proof.
  intros Hcat. unfold renderPosts, postsToRender, filteredPosts.
  cbn [currentCategory posts option_string_eqb String.eqb Ascii.eqb
       Bool.eqb tl].
  destruct others as [| second more]; [reflexivity |].
  rewrite (render_cards_spec (second :: more) Hcat).
  destruct (existsb page_failed (second :: more)); reflexivity.
Qed.

Lemma filterInstalled_kept (dom : BlogPage.Dom) :
  BlogPage.filterInstalled (BlogPage.showLoading dom)
  = BlogPage.filterInstalled dom
  /\ (forall message,
        BlogPage.filterInstalled (BlogPage.showError message dom)
        = BlogPage.filterInstalled dom)
  /\ (forall self post,
        BlogPage.filterInstalled
          (BlogPage.renderFeaturedArticle percent self post dom)
        = BlogPage.filterInstalled dom).
Proof.
  destruct dom as [bp pg fs cb ng btns installed].
  unfold BlogPage.showLoading, BlogPage.showError,
    BlogPage.renderFeaturedArticle.
  cbn [BlogPage.postsGrid BlogPage.featuredSection].
  split; [destruct pg; reflexivity |].
  split; [intros message; destruct pg; reflexivity |].
  intros self post. destruct fs as [f |], post as [p |]; try reflexivity.
  destruct cb; reflexivity.
Qed.

(** [init] leaves the page with the click handlers exactly when it has
    drawn the grid. *)
Lemma init_filter_installed (dom0 : BlogPage.Dom) (g : string) :
  BlogPage.filterInstalled dom0 = false ->
  BlogPage.filterInstalled
    (snd (BlogPage.init newDate formatDate net index month_and_year percent
                        new_loader (BlogPage.with_postsGrid (Some g) dom0)))
  = match enriched_posts with
    | [] => false
    | _ :: others => negb (existsb page_failed others)
    end.
Proof.
  intros Hoff. unfold BlogPage.init.
  set (dom := BlogPage.with_postsGrid (Some g) dom0).
  assert (Hdom : BlogPage.filterInstalled dom = false) by exact Hoff.
  pose proof fetchAllPosts_fresh as Hfresh.
  destruct (fetchAllPosts newDate formatDate net index new_loader)
    as [[res self1] log].
  cbn [fst snd] in Hfresh.
  pose proof enriched_posts_category as Hcat.
  assert (Hposts : posts self1 = enriched_posts)
    by (rewrite Hfresh; reflexivity).
  destruct (filterInstalled_kept dom) as (Hloading & _ & _).
  destruct enriched_posts as [| first others]; rewrite Hposts; cbv beta iota;
    cbn [snd].
  - destruct (filterInstalled_kept (BlogPage.showLoading dom))
      as (_ & Herror & _).
    rewrite Herror, Hloading. exact Hdom.
  - set (dom1 := BlogPage.showLoading dom) in *.
    destruct (filterInstalled_kept dom1) as (_ & _ & Hfeatured).
    specialize (Hfeatured self1 (Some first)).
    destruct (renderFeaturedArticle_parts self1 (Some first) dom1)
      as (Hgrid & _ & _ & _).
    set (dom2 := BlogPage.renderFeaturedArticle percent self1 (Some first) dom1)
      in *.
    assert (Hpg : exists loading, BlogPage.postsGrid dom2 = Some loading).
    { rewrite Hgrid. subst dom1 dom. eexists. reflexivity. }
    destruct Hpg as (loading & Hpg).
    rewrite Hpg, Hfresh.
    rewrite (renderPosts_all_view first others _ loading)
      by (intros p Hp; apply Hcat; right; exact Hp).
    destruct (existsb page_failed others); cbn [snd negb].
    + destruct (filterInstalled_kept dom2) as (_ & Herror & _).
      rewrite Herror, Hfeatured, Hloading. exact Hdom.
    + reflexivity.
Qed.

End PageFacts.

(* ===================================================================== *)
(** ** A click on a category button *)
(* ===================================================================== *)

Section ClickFacts.

Import Blog.

Variable month_and_year : string -> string.

Lemma render_cards_total (l : list Post) :
  (forall p, In p l -> category p <> None) ->
  render_cards month_and_year l = Some (map (card_of month_and_year) l).
Proof.
  induction l as [| p l IH]; intros Hcat; [reflexivity |].
  cbn [render_cards map].
  rewrite IH by (intros q Hq; apply Hcat; right; exact Hq).
  assert (Hc : forall card, renderPostCard month_and_year p = Some card ->
                            card_of month_and_year p = card)
    by (intros card E; unfold card_of; now rewrite E).
  destruct (renderPostCard month_and_year p) as [card |] eqn:Hcard;
    [rewrite (Hc card eq_refl); reflexivity |].
  apply renderPostCard_none in Hcard.
  contradiction (Hcat p (or_introl eq_refl)).
Qed.

Lemma activate_from (k start : nat) (l : list BlogPage.Button) :
  let l' := map (fun '(i, b) =>
                   BlogPage.mkButton (BlogPage.data_category b) (i =? k)%nat)
                (combine (seq start (List.length l)) l) in
  map BlogPage.data_category l' = map BlogPage.data_category l
  /\ forall i b, nth_error l' i = Some b ->
                 BlogPage.btn_active b = (start + i =? k)%nat.
Proof.
  revert start. induction l as [| x l IH]; intros start.
  - split; [reflexivity |]. intros [| i] b H; discriminate H.
  - cbn [List.length seq combine map].
    destruct (IH (S start)) as [Hcats Hact].
    split; [cbn [BlogPage.data_category]; f_equal; exact Hcats |].
    intros [| i] b H; cbn [nth_error] in H.
    + injection H as <-. cbn [BlogPage.btn_active].
      now rewrite Nat.add_0_r.
    + rewrite (Hact i b H). f_equal. lia.
Qed.

(** X17. A click on a category button does something only when the
    button carries the handler of [initCategoryFilter]; [init] on a fresh
    loader installs the handlers exactly when it has drawn the grid, so
    that after "No blog posts found." or "Failed to load blog posts." a
    click changes nothing.  When the handlers are installed, a click on a
    button whose [data-category] is a name other than "all" never fails,
    whatever the posts are: that category becomes the selected one, the
    clicked button alone is active, the posts are untouched, and the grid,
    when the page has one, holds the cards of the posts of that category
    after the first of them, or the empty-category message. *)
Theorem click_named_category :
  forall (k : nat) (btn : BlogPage.Button) (c : string)
         (self : BlogLoader) (dom : BlogPage.Dom),
    nth_error (BlogPage.categoryButtons dom) k = Some btn ->
    BlogPage.data_category btn = Some c ->
    c <> "all" ->
    (BlogPage.filterInstalled dom = false ->
     BlogPage.click month_and_year k self dom = Some (self, dom))
    /\ (BlogPage.filterInstalled dom = true ->
        exists dom',
          BlogPage.click month_and_year k self dom
          = Some (select_category (Some c) self, dom')
          /\ map BlogPage.data_category (BlogPage.categoryButtons dom')
             = map BlogPage.data_category (BlogPage.categoryButtons dom)
          /\ (forall i b,
                nth_error (BlogPage.categoryButtons dom') i = Some b ->
                BlogPage.btn_active b = (i =? k)%nat)
          /\ BlogPage.featuredSection dom' = BlogPage.featuredSection dom
          /\ BlogPage.postsGrid dom'
             = match BlogPage.postsGrid dom with
               | None => None
               | Some _ =>
                   Some match tl (filter (in_category c) (posts self)) with
                        | [] => no_posts_message
                        | l => JS.join (map (card_of month_and_year) l)
                        end
               end)
    /\ (forall newDate formatDate net index percent dom0 g,
          BlogPage.filterInstalled dom0 = false ->
          BlogPage.filterInstalled
            (snd (BlogPage.init newDate formatDate net index month_and_year
                                percent new_loader
                                (BlogPage.with_postsGrid (Some g) dom0)))
          = match enriched_posts newDate formatDate net index with
            | [] => false
            | _ :: others => negb (existsb (page_failed net) others)
            end).
Proof.
  intros k btn c self dom Hk Hc Hall.
  split; [| split].
  { intros Hoff. unfold BlogPage.click. rewrite Hk, Hoff. reflexivity. }
  2:{ intros newDate formatDate net index percent dom0 g Hoff.
      apply init_filter_installed. exact Hoff. }
  intros Hon.
  unfold BlogPage.click. rewrite Hk, Hon, Hc.
  destruct (activate_from k 0 (BlogPage.categoryButtons dom)) as [Hcats Hact].
  fold (BlogPage.activate k (BlogPage.categoryButtons dom)) in Hcats, Hact.
  set (dom1 := BlogPage.with_categoryButtons
                 (BlogPage.activate k (BlogPage.categoryButtons dom)) dom).
  assert (Hfiltered : filteredPosts (select_category (Some c) self)
                      = filter (in_category c) (posts self)).
  { unfold filteredPosts, select_category.
    cbn [currentCategory posts option_string_eqb].
    apply String.eqb_neq in Hall. rewrite Hall. reflexivity. }
  assert (Hcards : forall l,
            l = tl (filter (in_category c) (posts self)) ->
            render_cards month_and_year l
            = Some (map (card_of month_and_year) l)).
  { intros l ->. apply render_cards_total. intros p Hp Hnone.
    assert (Hin : In p (filter (in_category c) (posts self))).
    { destruct (filter (in_category c) (posts self)); [contradiction |].
      right. exact Hp. }
    apply filter_In in Hin. destruct Hin as [_ Hin].
    unfold in_category in Hin. rewrite Hnone in Hin. discriminate Hin. }
  unfold renderPosts, postsToRender. rewrite Hfiltered.
  change (BlogPage.postsGrid dom1) with (BlogPage.postsGrid dom).
  destruct (BlogPage.postsGrid dom) as [g |] eqn:Hgrid.
  - specialize (Hcards _ eq_refl).
    destruct (tl (filter (in_category c) (posts self))) as [| p l] eqn:Htl.
    + eexists. split; [reflexivity |].
      cbn [BlogPage.categoryButtons BlogPage.with_postsGrid
           BlogPage.with_categoryButtons BlogPage.featuredSection
           BlogPage.postsGrid].
      split; [exact Hcats |]. split; [exact Hact |]. split; reflexivity.
    + rewrite Hcards. eexists. split; [reflexivity |].
      cbn [BlogPage.categoryButtons BlogPage.with_postsGrid
           BlogPage.with_categoryButtons BlogPage.featuredSection
           BlogPage.postsGrid].
      split; [exact Hcats |]. split; [exact Hact |]. split; reflexivity.
  - eexists. split; [reflexivity |].
    cbn [BlogPage.categoryButtons BlogPage.with_postsGrid
         BlogPage.with_categoryButtons BlogPage.featuredSection
         BlogPage.postsGrid].
    split; [exact Hcats |]. split; [exact Hact |]. split; reflexivity.
Qed.

End ClickFacts.

(** A blog page with two category buttons, the first one active, after
    [init] has installed the click handlers. *)
Definition sample_blog_dom : BlogPage.Dom :=
  BlogPage.mkDom true (Some "") (Some "") None None
    [BlogPage.mkButton (Some "all") true;
     BlogPage.mkButton (Some "deployment") false] true.

Lemma click_named_category_witness :
  exists dom',
    BlogPage.click (fun _ => "") 1 loader_on_tutorials sample_blog_dom
    = Some (Blog.select_category (Some "deployment") loader_on_tutorials, dom')
    /\ map BlogPage.data_category (BlogPage.categoryButtons dom')
       = [Some "all"; Some "deployment"]
    /\ (forall i b, nth_error (BlogPage.categoryButtons dom') i = Some b ->
          BlogPage.btn_active b = (i =? 1)%nat)
    /\ BlogPage.featuredSection dom' = Some ""
    /\ BlogPage.postsGrid dom'
       = Some (JS.join [card_of (fun _ => "") post_android]).
Proof.
  exact (proj1 (proj2 (click_named_category (fun _ => "") 1
                         (BlogPage.mkButton (Some "deployment") false)
                         "deployment" loader_on_tutorials sample_blog_dom
                         eq_refl eq_refl
                         (@string_neq_by_eqb "deployment" "all" eq_refl)))
               eq_refl).
Defined.

(* ===================================================================== *)
(** ** The bars of the chart, and the icons *)
(* ===================================================================== *)

Section ChartFacts.

Import Blog.

Lemma years_disjoint (s : string) :
  JS.startsWith s "2024" = true -> JS.startsWith s "2025" = false.
Proof.
  unfold JS.startsWith.
  destruct s as [| a [| b [| c [| d t]]]]; cbn [prefix];
    repeat match goal with
           | |- context [ascii_dec ?x ?y] => destruct (ascii_dec x y); subst
           end;
    try discriminate; try reflexivity.
Qed.

Lemma dated_in_disjoint (p : Post) :
  BlogPage.dated_in "2024" p = true -> BlogPage.dated_in "2025" p = false.
Proof.
  unfold BlogPage.dated_in. destruct (date p) as [s |].
  - intros H. apply andb_true_iff in H. destruct H as [_ H].
    rewrite (years_disjoint s H). apply andb_false_r.
  - intros H. discriminate H.
Qed.

(** The posts counted in neither bar. *)
Definition other_years (p : Post) : bool :=
  negb (BlogPage.dated_in "2024" p) && negb (BlogPage.dated_in "2025" p).

(** X18. The two year bars of the chart count disjoint sets of posts: the
    posts of 2024, those of 2025, and the posts counted in neither (other
    years, an empty or missing date) add up to the total, so the two
    counts together never exceed it; a post without a date is in neither
    count. *)
Theorem chart_counts :
  forall l : list Post,
    (BlogPage.count_year "2024" l + BlogPage.count_year "2025" l
     + List.length (filter other_years l) = List.length l)%nat
    /\ (BlogPage.count_year "2024" l + BlogPage.count_year "2025" l
        <= List.length l)%nat
    /\ (forall p year, In p l -> JS.truthy (date p) = false ->
          BlogPage.dated_in year p = false).
Proof.
  intros l.
  assert (Hsum : (BlogPage.count_year "2024" l + BlogPage.count_year "2025" l
                  + List.length (filter other_years l) = List.length l)%nat).
  { unfold BlogPage.count_year. induction l as [| p l IH]; [reflexivity |].
    cbn [filter]. unfold other_years at 1.
    destruct (BlogPage.dated_in "2024" p) eqn:H24.
    - rewrite (dated_in_disjoint p H24). cbn [negb andb List.length]. lia.
    - destruct (BlogPage.dated_in "2025" p); cbn [negb andb List.length]; lia. }
  split; [exact Hsum |]. split; [lia |].
  intros p year _ Hdate. unfold BlogPage.dated_in. rewrite Hdate. reflexivity.
Qed.

(** The icons of the four fixed categories. *)
Definition category_icons : list (string * string) :=
  [("tutorials", "fa-book"); ("optimization", "fa-tachometer-alt");
   ("deployment", "fa-server"); ("research", "fa-brain")].

(** X19. The icon of the category [determineCategory] assigns is always
    one of the four icons of the table, the one listed for that category;
    the fallback icon [fa-file-alt] is never used for a classified
    post. *)
Theorem determineCategory_icon :
  forall title body : string,
    let c := determineCategory title body in
    In (c, getCategoryIcon c) category_icons
    /\ getCategoryIcon c <> "fa-file-alt".
Proof.
  intros title body c.
  pose proof (determineCategory_fixed title body) as Hin. fold c in Hin.
  unfold fixed_categories in Hin. cbn [In] in Hin.
  unfold category_icons.
  destruct Hin as [<- | [<- | [<- | [<- | []]]]];
    (split; [cbn; tauto | discriminate]).
Qed.

End ChartFacts.

(* ===================================================================== *)
(** ** What the expressions match *)
(* ===================================================================== *)

Section RegexFacts.

Local Open Scope string_scope.

(** The language of an expression. *)
Inductive in_language : JS.regex -> string -> Prop :=
| in_eps : in_language JS.Eps ""
| in_class (p : ascii -> bool) (c : ascii) :
    p c = true -> in_language (JS.Class p) (String c "")
| in_seq (a b : JS.regex) (s t : string) :
    in_language a s -> in_language b t -> in_language (JS.Seq a b) (s ++ t)
| in_alt_left (a b : JS.regex) (s : string) :
    in_language a s -> in_language (JS.Alt a b) s
| in_alt_right (a b : JS.regex) (s : string) :
    in_language b s -> in_language (JS.Alt a b) s
| in_star_nil (a : JS.regex) : in_language (JS.Star a) ""
| in_star_more (a : JS.regex) (s t : string) :
    in_language a s -> in_language (JS.Star a) t ->
    in_language (JS.Star a) (s ++ t).

Lemma nothing_empty (s : string) : ~ in_language JS.Nothing s.
Proof. intros H. inversion H. Qed.

Lemma nullable_sound (r : JS.regex) :
  JS.nullable r = true -> in_language r "".
Proof.
  induction r as [| | p | a IHa b IHb | a IHa b IHb | a IHa]; cbn [JS.nullable];
    intros H; try discriminate H.
  - constructor.
  - apply andb_true_iff in H. destruct H as [Ha Hb].
    change "" with ("" ++ ""). constructor; auto.
  - apply orb_true_iff in H. destruct H as [Ha | Hb].
    + apply in_alt_left; auto.
    + apply in_alt_right; auto.
  - constructor.
Qed.

Lemma nullable_complete (r : JS.regex) (s : string) :
  in_language r s -> s = "" -> JS.nullable r = true.
Proof.
  induction 1 as [| p c Hc | a b s t Ha IHa Hb IHb | a b s Ha IHa
                  | a b s Hb IHb | a | a s t Ha IHa Ht IHt];
    intros E; cbn [JS.nullable]; try reflexivity.
  - discriminate E.
  - apply append_eq_nil in E. destruct E as [Es Et].
    rewrite (IHa Es), (IHb Et). reflexivity.
  - rewrite (IHa E). reflexivity.
  - rewrite (IHb E). apply orb_true_r.
Qed.

Lemma seq'_language (a b : JS.regex) (s : string) :
  in_language (JS.seq' a b) s <-> in_language (JS.Seq a b) s.
Proof.
  split.
  - intros H.
    destruct a; try (destruct b; cbn [JS.seq'] in H;
                     solve [ exact H
                           | contradiction (nothing_empty _ H)
                           | change s with ("" ++ s);
                             constructor; [constructor | exact H] ]).
  - intros H. inversion H as [| | a' b' s1 s2 Ha Hb | | | |]; subst.
    destruct a; try (destruct b; cbn [JS.seq'];
                     solve [ constructor; assumption
                           | contradiction (nothing_empty _ Ha)
                           | contradiction (nothing_empty _ Hb)
                           | inversion Ha; subst; exact Hb ]).
Qed.

Lemma alt'_language (a b : JS.regex) (s : string) :
  in_language (JS.alt' a b) s <-> in_language (JS.Alt a b) s.
Proof.
  split.
  - intros H.
    destruct a; try (destruct b; cbn [JS.alt'] in H;
                     solve [ exact H
                           | apply in_alt_right; exact H
                           | apply in_alt_left; exact H ]).
  - intros H. inversion H as [| | | a' b' s' Ha | a' b' s' Hb | |]; subst.
    + destruct a; try (destruct b; cbn [JS.alt'];
                       solve [ apply in_alt_left; exact Ha
                             | exact Ha
                             | contradiction (nothing_empty _ Ha) ]).
    + destruct a; try (destruct b; cbn [JS.alt'];
                       solve [ apply in_alt_right; exact Hb
                             | exact Hb
                             | contradiction (nothing_empty _ Hb) ]).
Qed.

Lemma deriv_sound (c : ascii) (r : JS.regex) :
  forall s, in_language (JS.deriv c r) s -> in_language r (String c s).
Proof.
  induction r as [| | p | a IHa b IHb | a IHa b IHb | a IHa]; intros s H;
    cbn [JS.deriv] in H.
  - contradiction (nothing_empty _ H).
  - contradiction (nothing_empty _ H).
  - destruct (p c) eqn:Hp; [| contradiction (nothing_empty _ H)].
    inversion H; subst. constructor. exact Hp.
  - assert (Hleft : forall u, in_language (JS.seq' (JS.deriv c a) b) u ->
                              in_language (JS.Seq a b) (String c u)).
    { intros u Hu. apply seq'_language in Hu.
      inversion Hu as [| | a' b' s1 s2 H1 H2 | | | |]; subst.
      change (String c (s1 ++ s2)) with (String c s1 ++ s2).
      constructor; [apply IHa; exact H1 | exact H2]. }
    destruct (JS.nullable a) eqn:Hnull; [| apply Hleft; exact H].
    apply alt'_language in H.
    inversion H as [| | | a' b' s' H1 | a' b' s' H1 | |]; subst.
    + apply Hleft. exact H1.
    + change (String c s) with ("" ++ String c s).
      constructor; [apply nullable_sound; exact Hnull | apply IHb; exact H1].
  - apply alt'_language in H.
    inversion H as [| | | a' b' s' H1 | a' b' s' H1 | |]; subst.
    + apply in_alt_left, IHa, H1.
    + apply in_alt_right, IHb, H1.
  - apply seq'_language in H.
    inversion H as [| | a' b' s1 s2 H1 H2 | | | |]; subst.
    change (String c (s1 ++ s2)) with (String c s1 ++ s2).
    constructor; [apply IHa; exact H1 | exact H2].
Qed.

Lemma deriv_complete (r : JS.regex) (u : string) :
  in_language r u ->
  forall c s, u = String c s -> in_language (JS.deriv c r) s.
Proof.
  induction 1 as [| p x Hx | a b s1 s2 Ha IHa Hb IHb | a b s1 Ha IHa
                  | a b s1 Hb IHb | a | a s1 s2 Ha IHa Ht IHt];
    intros c s E; cbn [JS.deriv].
  - discriminate E.
  - injection E as -> <-. rewrite Hx. constructor.
  - destruct s1 as [| x s1'].
    + cbn [append] in E. rewrite (nullable_complete a "" Ha eq_refl).
      apply alt'_language, in_alt_right, (IHb c s E).
    + cbn [append] in E. injection E as -> <-.
      assert (Hleft : in_language (JS.seq' (JS.deriv c a) b) (s1' ++ s2)).
      { apply seq'_language. constructor; [apply (IHa c s1' eq_refl) | exact Hb]. }
      destruct (JS.nullable a); [| exact Hleft].
      apply alt'_language, in_alt_left, Hleft.
  - apply alt'_language, in_alt_left, (IHa c s E).
  - apply alt'_language, in_alt_right, (IHb c s E).
  - discriminate E.
  - destruct s1 as [| x s1'].
    + cbn [append] in E. exact (IHt c s E).
    + cbn [append] in E. injection E as -> <-.
      apply seq'_language. constructor; [apply (IHa c s1' eq_refl) | exact Ht].
Qed.

(** [matches_prefix] finds the prefixes that are in the language. *)
Lemma matches_prefix_spec (s : string) :
  forall r,
    JS.matches_prefix r s = true
    <-> exists p q, s = p ++ q /\ in_language r p.
Proof.
  induction s as [| c t IH]; intros r; cbn [JS.matches_prefix].
  - rewrite orb_false_r. split.
    + intros H. exists "", "". split; [reflexivity | apply nullable_sound, H].
    + intros (p & q & E & H). symmetry in E. apply append_eq_nil in E.
      destruct E as [-> _]. apply (nullable_complete r "" H eq_refl).
  - rewrite orb_true_iff, IH. split.
    + intros [H | (p & q & E & H)].
      * exists "", (String c t). split; [reflexivity | apply nullable_sound, H].
      * exists (String c p), q. split; [cbn [append]; now rewrite E |].
        apply deriv_sound, H.
    + intros (p & q & E & H). destruct p as [| x p'].
      * left. apply (nullable_complete r "" H eq_refl).
      * right. cbn [append] in E. injection E as <- ->.
        exists p', q. split; [reflexivity |].
        apply (deriv_complete r (String c p') H c p' eq_refl).
Qed.

(** [RegExp.prototype.test] finds the substrings that are in the
    language. *)
Lemma test_spec (r : JS.regex) (s : string) :
  JS.test r s = true
  <-> exists a p q, s = a ++ p ++ q /\ in_language r p.
Proof.
  induction s as [| c t IH]; cbn [JS.test].
  - rewrite orb_false_r, matches_prefix_spec. split.
    + intros (p & q & E & H). exists "", p, q. auto.
    + intros (a & p & q & E & H). symmetry in E.
      apply append_eq_nil in E. destruct E as [-> E].
      exists p, q. auto.
  - rewrite orb_true_iff, IH, matches_prefix_spec. split.
    + intros [(p & q & E & H) | (a & p & q & E & H)].
      * exists "", p, q. auto.
      * exists (String c a), p, q. split; [cbn [append]; now rewrite E | exact H].
    + intros (a & p & q & E & H). destruct a as [| x a'].
      * left. exists p, q. auto.
      * right. cbn [append] in E. injection E as <- ->.
        exists a', p, q. auto.
Qed.

End RegexFacts.

(* ===================================================================== *)
(** ** The date shown with a post *)
(* ===================================================================== *)

Section DateTextFacts.

Import Blog.

Local Open Scope string_scope.

Variable newDate : string -> option DateObj.
Variable long_date : DateObj -> string.
Variable inherited : string -> option string.

Definition not_space (c : ascii) : bool := negb (JS.is_space c).

(** A text without white space. *)
Definition spaceless (s : string) : bool := all_chars not_space s.

Lemma star_class_language (p : ascii -> bool) (s : string) :
  all_chars p s = true -> in_language (JS.Star (JS.Class p)) s.
Proof.
  induction s as [| c t IH]; intros H; [constructor |].
  cbn [all_chars] in H. apply andb_true_iff in H. destruct H as [Hc Ht].
  change (String c t) with (String c "" ++ t).
  constructor; [constructor; exact Hc | apply IH, Ht].
Qed.

Lemma plus_class_language (p : ascii -> bool) (s : string) :
  s <> "" -> all_chars p s = true -> in_language (JS.plus (JS.Class p)) s.
Proof.
  destruct s as [| c t]; intros Hne H; [contradiction Hne; reflexivity |].
  cbn [all_chars] in H. apply andb_true_iff in H. destruct H as [Hc Ht].
  change (String c t) with (String c "" ++ t). unfold JS.plus.
  constructor; [constructor; exact Hc | apply star_class_language, Ht].
Qed.

Lemma four_digits_language (y : string) :
  String.length y = 4%nat -> all_chars JS.is_digit y = true ->
  in_language (JS.times 4 digit) y.
Proof.
  destruct y as [| a [| b [| c [| d [| e t]]]]]; intros Hlen H;
    try discriminate Hlen.
  cbn [all_chars] in H.
  repeat (apply andb_true_iff in H; destruct H as [? H]).
  change (in_language
            (JS.Seq digit (JS.Seq digit (JS.Seq digit (JS.Seq digit JS.Eps))))
            (String a "" ++ String b "" ++ String c "" ++ String d "" ++ "")).
  repeat (constructor; try assumption).
Qed.

(** The first white-space character of a match of the date expression. *)
Lemma month_day_year_has_space (m : string) :
  in_language re_month_day_year m ->
  exists w c t, m = w ++ String c t /\ JS.is_space c = true.
Proof.
  unfold re_month_day_year. intros H.
  inversion H as [| | a b w t Hw Ht | | | |]; subst.
  inversion Ht as [| | a b sp t' Hsp Ht' | | | |]; subst.
  unfold JS.plus in Hsp.
  inversion Hsp as [| | a b x x' Hx Hx' | | | |]; subst.
  inversion Hx as [| p c Hc | | | | |]; subst.
  exists w, c, (x' ++ t'). split; [| exact Hc].
  cbn [append]. reflexivity.
Qed.

Lemma spaceless_no_date (s : string) :
  spaceless s = true -> JS.test re_month_day_year s = false.
Proof.
  intros Hs. destruct (JS.test re_month_day_year s) eqn:Htest; [| reflexivity].
  apply test_spec in Htest. destruct Htest as (a & m & q & -> & Hm).
  apply month_day_year_has_space in Hm. destruct Hm as (w & c & t & -> & Hc).
  unfold spaceless in Hs. rewrite !all_chars_append in Hs.
  cbn [all_chars] in Hs. unfold not_space at 3 in Hs. rewrite Hc in Hs.
  cbn [negb andb] in Hs. rewrite !andb_false_r in Hs. discriminate Hs.
Qed.

Lemma spaceless_append (a b : string) :
  spaceless (a ++ b) = spaceless a && spaceless b.
Proof. apply all_chars_append. Qed.

Lemma spaceless_cons (c : ascii) (t : string) :
  spaceless (String c t) = not_space c && spaceless t.
Proof. reflexivity. Qed.

Lemma spaceless_uint (d : Decimal.uint) :
  spaceless (NilEmpty.string_of_uint d) = true.
Proof. induction d; cbn [NilEmpty.string_of_uint]; try reflexivity; exact IHd. Qed.

Lemma spaceless_number (z : Z) : spaceless (JS.Z_to_string z) = true.
Proof.
  unfold JS.Z_to_string, NilEmpty.string_of_int.
  destruct (Z.to_int z); [apply spaceless_uint |].
  change (spaceless (String "-" (NilEmpty.string_of_uint d)))
    with (spaceless (NilEmpty.string_of_uint d)).
  apply spaceless_uint.
Qed.

Lemma spaceless_padStart2 (s : string) :
  spaceless s = true -> spaceless (JS.padStart2 s) = true.
Proof.
  intros H. unfold JS.padStart2.
  destruct (String.length s) as [| [| n]]; [reflexivity | | exact H].
  exact H.
Qed.

Lemma spaceless_pieces (s : string) :
  forall in_ws cur,
    spaceless cur = true ->
    Forall (fun piece => spaceless piece = true) (JS.split_ws_from in_ws cur s).
Proof.
  induction s as [| c t IH]; intros in_ws cur Hcur; cbn [JS.split_ws_from].
  - constructor; [exact Hcur | constructor].
  - destruct (JS.is_space c) eqn:Hc.
    + destruct in_ws; [apply IH; exact Hcur |].
      constructor; [exact Hcur | apply IH; reflexivity].
    + apply IH. rewrite spaceless_append, Hcur. cbn.
      unfold not_space. rewrite Hc. reflexivity.
Qed.

Lemma spaceless_month (key : string) :
  spaceless (interpolate (months key)) = true.
Proof.
  unfold months.
  repeat match goal with
         | |- context [if ?b then _ else _] => destruct b
         end; reflexivity.
Qed.

(** A normalised date is not empty and holds no white space. *)
Lemma parseDateString_spaceless (dateStr : option string) (d : string) :
  parseDateString newDate dateStr = Some d ->
  d <> "" /\ spaceless d = true.
Proof.
  unfold parseDateString. destruct dateStr as [s |]; [| discriminate].
  destruct (String.eqb s ""); [discriminate |].
  destruct (newDate s) as [o |].
  - intros E. injection E as <-. split.
    + intros E. apply append_eq_nil in E. destruct E as [_ E].
      discriminate E.
    + repeat (rewrite spaceless_append || rewrite spaceless_cons).
      rewrite spaceless_number,
        !spaceless_padStart2 by apply spaceless_number.
      reflexivity.
  - pose proof (spaceless_pieces (JS.remove_first_comma (JS.toLowerCase s))
                  false "" eq_refl) as Hpieces.
    fold (JS.split_ws (JS.remove_first_comma (JS.toLowerCase s))) in Hpieces.
    destruct (JS.split_ws (JS.remove_first_comma (JS.toLowerCase s)))
      as [| p0 [| p1 [| p2 rest]]]; try discriminate.
    inversion Hpieces as [| ? ? _ H1]; subst.
    inversion H1 as [| ? ? Hp1 H2]; subst.
    inversion H2 as [| ? ? Hp2 _]; subst.
    intros E. injection E as <-. split.
    + intros E. apply append_eq_nil in E. destruct E as [_ E].
      discriminate E.
    + repeat (rewrite spaceless_append || rewrite spaceless_cons).
      rewrite Hp2, spaceless_month, (spaceless_padStart2 p1 Hp1).
      reflexivity.
Qed.

(** *** A text that matches the date expression has three pieces *)

Definition not_comma (c : ascii) : bool := negb (Ascii.eqb c ",").

Lemma toLowerCase_append (a b : string) :
  JS.toLowerCase (a ++ b) = JS.toLowerCase a ++ JS.toLowerCase b.
Proof.
  induction a as [| c t IH]; [reflexivity |].
  cbn [append JS.toLowerCase]. now rewrite IH.
Qed.

Lemma lower_char_classes (c : ascii) :
  JS.is_space (JS.lower_char c) = JS.is_space c
  /\ not_comma (JS.lower_char c) = not_comma c.
Proof. destruct c as [[] [] [] [] [] [] [] []]; split; reflexivity. Qed.

Lemma all_chars_lower (p : ascii -> bool) (s : string) :
  (forall c, p (JS.lower_char c) = p c) ->
  all_chars p (JS.toLowerCase s) = all_chars p s.
Proof.
  intros Hp. induction s as [| c t IH]; [reflexivity |].
  cbn [JS.toLowerCase all_chars]. now rewrite Hp, IH.
Qed.

Lemma word_char_plain (c : ascii) :
  JS.is_word c = true -> not_space c = true /\ not_comma c = true.
Proof.
  destruct c as [[] [] [] [] [] [] [] []]; intros H;
    try discriminate H; split; reflexivity.
Qed.

Lemma digit_char_plain (c : ascii) :
  JS.is_digit c = true -> not_space c = true /\ not_comma c = true.
Proof.
  destruct c as [[] [] [] [] [] [] [] []]; intros H;
    try discriminate H; split; reflexivity.
Qed.

Lemma space_char_not_comma (c : ascii) :
  JS.is_space c = true -> not_comma c = true.
Proof.
  destruct c as [[] [] [] [] [] [] [] []]; intros H;
    try discriminate H; reflexivity.
Qed.

Lemma all_chars_weaken (p q : ascii -> bool) (s : string) :
  (forall c, p c = true -> q c = true) ->
  all_chars p s = true -> all_chars q s = true.
Proof.
  intros Hpq. induction s as [| c t IH]; [reflexivity |].
  cbn [all_chars]. intros H. apply andb_true_iff in H. destruct H as [Hc Ht].
  rewrite (Hpq c Hc), (IH Ht). reflexivity.
Qed.

Lemma remove_first_comma_skip (x y : string) :
  all_chars not_comma x = true ->
  JS.remove_first_comma (x ++ y) = x ++ JS.remove_first_comma y.
Proof.
  induction x as [| c t IH]; intros H; [reflexivity |].
  cbn [all_chars] in H. apply andb_true_iff in H. destruct H as [Hc Ht].
  cbn [append JS.remove_first_comma].
  unfold not_comma in Hc. apply negb_true_iff in Hc. rewrite Hc, (IH Ht).
  reflexivity.
Qed.

Lemma remove_first_comma_inside (x y : string) :
  all_chars not_comma x = false ->
  JS.remove_first_comma (x ++ y) = JS.remove_first_comma x ++ y.
Proof.
  induction x as [| c t IH]; intros H; [discriminate H |].
  cbn [all_chars] in H. cbn [append JS.remove_first_comma].
  destruct (Ascii.eqb c ",") eqn:Hc; [reflexivity |].
  unfold not_comma in H. rewrite Hc in H. cbn [negb andb] in H.
  rewrite (IH H). reflexivity.
Qed.

Lemma star_class_inv (p : ascii -> bool) (r : JS.regex) (s : string) :
  in_language r s -> r = JS.Star (JS.Class p) -> all_chars p s = true.
Proof.
  induction 1 as [| | | | | a | a s t Ha _ Ht IHt]; intros E;
    try discriminate E; [reflexivity |].
  injection E as ->. inversion Ha; subst.
  cbn [append all_chars]. rewrite (IHt eq_refl).
  match goal with H : p _ = true |- _ => rewrite H end. reflexivity.
Qed.

Lemma plus_class_inv (p : ascii -> bool) (s : string) :
  in_language (JS.plus (JS.Class p)) s -> s <> "" /\ all_chars p s = true.
Proof.
  unfold JS.plus. intros H.
  inversion H as [| | a b x t Hx Ht | | | |]; subst.
  inversion Hx as [| q c Hc | | | | |]; subst.
  split; [discriminate |].
  cbn [append all_chars]. rewrite Hc, (star_class_inv p _ t Ht eq_refl).
  reflexivity.
Qed.

Lemma last_char (s : string) :
  s <> "" -> exists body c, s = body ++ String c "".
Proof.
  induction s as [| c t IH]; intros Hne; [contradiction Hne; reflexivity |].
  destruct t as [| d u].
  - exists "", c. reflexivity.
  - destruct IH as (body & z & E); [discriminate |].
    exists (String c body), z. cbn [append]. now rewrite E.
Qed.

Lemma pieces_positive (s : string) (in_ws : bool) (cur : string) :
  (1 <= List.length (JS.split_ws_from in_ws cur s))%nat.
Proof.
  revert in_ws cur. induction s as [| c t IH]; intros in_ws cur;
    cbn [JS.split_ws_from]; [cbn; lia |].
  destruct (JS.is_space c); [destruct in_ws |]; cbn [List.length];
    try apply IH.
  specialize (IH true ""). lia.
Qed.

(** A character that is no white space, followed by white space, ends a
    piece. *)
Lemma pieces_after_boundary (pre : string) (n sp : ascii) (rest : string) :
  JS.is_space n = false -> JS.is_space sp = true ->
  forall in_ws cur,
    (1 + List.length (JS.split_ws_from true "" rest)
     <= List.length (JS.split_ws_from in_ws cur
                       (pre ++ String n (String sp rest))))%nat.
Proof.
  intros Hn Hsp. induction pre as [| c t IH]; intros in_ws cur.
  - cbn [append JS.split_ws_from]. rewrite Hn, Hsp. cbn [List.length]. lia.
  - cbn [append JS.split_ws_from].
    destruct (JS.is_space c); [destruct in_ws |]; cbn [List.length];
      try apply IH.
    specialize (IH true ""). lia.
Qed.

Lemma three_pieces (x w s1 d s2 rest : string) :
  w <> "" -> spaceless w = true ->
  (exists c t, s1 = String c t /\ JS.is_space c = true) ->
  d <> "" -> spaceless d = true ->
  (exists c t, s2 = String c t /\ JS.is_space c = true) ->
  (3 <= List.length (JS.split_ws (x ++ w ++ s1 ++ d ++ s2 ++ rest)))%nat.
Proof.
  intros Hw Hws (c1 & t1 & -> & Hc1) Hd Hds (c2 & t2 & -> & Hc2).
  destruct (last_char w Hw) as (bw & n1 & ->).
  destruct (last_char d Hd) as (bd & n2 & ->).
  assert (Hn1 : JS.is_space n1 = false).
  { rewrite spaceless_append, spaceless_cons in Hws. unfold not_space in Hws.
    destruct (JS.is_space n1); [| reflexivity].
    cbn in Hws. rewrite andb_false_r in Hws. discriminate Hws. }
  assert (Hn2 : JS.is_space n2 = false).
  { rewrite spaceless_append, spaceless_cons in Hds. unfold not_space in Hds.
    destruct (JS.is_space n2); [| reflexivity].
    cbn in Hds. rewrite andb_false_r in Hds. discriminate Hds. }
  unfold JS.split_ws.
  replace (x ++ (bw ++ String n1 "") ++ String c1 t1
             ++ (bd ++ String n2 "") ++ String c2 t2 ++ rest)
    with ((x ++ bw) ++ String n1 (String c1
            ((t1 ++ bd) ++ String n2 (String c2 (t2 ++ rest))))).
  - pose proof (pieces_after_boundary (x ++ bw) n1 c1
                  ((t1 ++ bd) ++ String n2 (String c2 (t2 ++ rest)))
                  Hn1 Hc1 false "") as H1.
    pose proof (pieces_after_boundary (t1 ++ bd) n2 c2 (t2 ++ rest)
                  Hn2 Hc2 true "") as H2.
    pose proof (pieces_positive (t2 ++ rest) true "") as H3.
    lia.
  - repeat first [rewrite append_assoc | progress cbn [append]]. reflexivity.
Qed.

Lemma toLowerCase_nonempty (s : string) : s <> "" -> JS.toLowerCase s <> "".
Proof. destruct s; [congruence | discriminate]. Qed.

Lemma starts_with_space (s : string) :
  s <> "" -> all_chars JS.is_space s = true ->
  exists c t, s = String c t /\ JS.is_space c = true.
Proof.
  destruct s as [| c t]; intros Hne H; [contradiction Hne; reflexivity |].
  cbn [all_chars] in H. apply andb_true_iff in H.
  exists c, t. split; [reflexivity | apply H].
Qed.

(** The parts of a lower-cased run of one class. *)
Lemma lowered_run (p : ascii -> bool) (s : string) :
  (forall c, p c = true -> not_comma c = true) ->
  in_language (JS.plus (JS.Class p)) s ->
  JS.toLowerCase s <> ""
  /\ all_chars not_comma (JS.toLowerCase s) = true
  /\ ((forall c, p c = true -> not_space c = true) ->
      spaceless (JS.toLowerCase s) = true)
  /\ ((forall c, p c = true -> JS.is_space c = true) ->
      all_chars JS.is_space (JS.toLowerCase s) = true).
Proof.
  intros Hcomma H. apply plus_class_inv in H. destruct H as [Hne Hall].
  split; [apply toLowerCase_nonempty, Hne |]. split; [| split].
  - rewrite all_chars_lower by (intros c; apply lower_char_classes).
    apply (all_chars_weaken p _ s Hcomma Hall).
  - intros Hp. unfold spaceless. rewrite all_chars_lower.
    + apply (all_chars_weaken p _ s Hp Hall).
    + intros c. unfold not_space.
      now rewrite (proj1 (lower_char_classes c)).
  - intros Hp. rewrite all_chars_lower by (intros c; apply lower_char_classes).
    apply (all_chars_weaken p _ s Hp Hall).
Qed.

Lemma matched_text_three_pieces (raw : string) :
  JS.test re_month_day_year raw = true ->
  (3 <= List.length
          (JS.split_ws (JS.remove_first_comma (JS.toLowerCase raw))))%nat.
Proof.
  intros Htest. apply test_spec in Htest.
  destruct Htest as (a & m & q & -> & Hm).
  unfold re_month_day_year in Hm.
  inversion Hm as [| | ? ? w m1 Hw Hm1 | | | |]; subst.
  inversion Hm1 as [| | ? ? sp1 m2 Hsp1 Hm2 | | | |]; subst.
  inversion Hm2 as [| | ? ? d m3 Hd Hm3 | | | |]; subst.
  inversion Hm3 as [| | ? ? cm m4 Hcm Hm4 | | | |]; subst.
  inversion Hm4 as [| | ? ? sp2 y Hsp2 Hy | | | |]; subst.
  clear Hm Hm1 Hm2 Hm3 Hm4 Hy.
  inversion Hcm as [| ? c Hc | | | | |]; subst. clear Hcm.
  apply Ascii.eqb_eq in Hc. subst c.
  destruct (lowered_run JS.is_word w (fun c H => proj2 (word_char_plain c H)) Hw)
    as (Hw1 & Hw2 & Hw3 & _).
  specialize (Hw3 (fun c H => proj1 (word_char_plain c H))).
  destruct (lowered_run JS.is_digit d (fun c H => proj2 (digit_char_plain c H)) Hd)
    as (Hd1 & Hd2 & Hd3 & _).
  specialize (Hd3 (fun c H => proj1 (digit_char_plain c H))).
  destruct (lowered_run JS.is_space sp1 space_char_not_comma Hsp1)
    as (Hs1 & Hs2 & _ & Hs3).
  specialize (Hs3 (fun c H => H)).
  destruct (lowered_run JS.is_space sp2 space_char_not_comma Hsp2)
    as (Ht1 & _ & _ & Ht3).
  specialize (Ht3 (fun c H => H)).
  clear Hw Hd Hsp1 Hsp2.
  repeat rewrite ?toLowerCase_append, ?append_assoc.
  change (JS.toLowerCase ",") with ",".
  set (la := JS.toLowerCase a) in *. set (lw := JS.toLowerCase w) in *.
  set (l1 := JS.toLowerCase sp1) in *. set (ld := JS.toLowerCase d) in *.
  set (l2 := JS.toLowerCase sp2) in *.
  set (rest := JS.toLowerCase y ++ JS.toLowerCase q).
  destruct (all_chars not_comma la) eqn:Hla.
  - rewrite (remove_first_comma_skip la _ Hla),
      (remove_first_comma_skip lw _ Hw2),
      (remove_first_comma_skip l1 _ Hs2),
      (remove_first_comma_skip ld _ Hd2).
    cbn [append JS.remove_first_comma Ascii.eqb Bool.eqb].
    apply three_pieces; auto using starts_with_space.
  - rewrite (remove_first_comma_inside la _ Hla).
    replace (lw ++ l1 ++ ld ++ "," ++ l2 ++ rest)
      with (lw ++ l1 ++ (ld ++ ",") ++ l2 ++ rest)
      by (now rewrite (append_assoc ld)).
    apply three_pieces; auto using starts_with_space.
    + intros E. apply append_eq_nil in E. destruct E as [_ E]. discriminate E.
    + rewrite spaceless_append, Hd3. reflexivity.
Qed.

(** A text that gets no date does not match the date expression. *)
Lemma parseDateString_none_no_date (raw : string) :
  parseDateString newDate (Some raw) = None ->
  JS.test re_month_day_year raw = false.
Proof.
  intros Hnone.
  destruct (JS.test re_month_day_year raw) eqn:Htest; [| reflexivity].
  apply matched_text_three_pieces in Htest.
  unfold parseDateString in Hnone.
  destruct (String.eqb raw "") eqn:E;
    [apply String.eqb_eq in E; subst raw; cbn in Htest; lia |].
  destruct (newDate raw); [discriminate Hnone |].
  destruct (JS.split_ws (JS.remove_first_comma (JS.toLowerCase raw)))
    as [| p0 [| p1 [| p2 rest]]]; cbn [List.length] in Htest;
    try lia; discriminate Hnone.
Qed.

(** *** [formatDate] *)

Definition no_blank (c : ascii) : bool := negb (Ascii.eqb c " ").

Lemma not_space_no_blank (c : ascii) : not_space c = true -> no_blank c = true.
Proof.
  unfold no_blank. destruct (Ascii.eqb_spec c " ") as [-> | _];
    [intros H; discriminate H | reflexivity].
Qed.

Lemma split_char_from_piece (sep : ascii) (x : string) :
  all_chars (fun c => negb (Ascii.eqb c sep)) x = true ->
  forall cur rest,
    JS.split_char_from sep cur (x ++ String sep rest)
    = (cur ++ x) :: JS.split_char_from sep "" rest.
Proof.
  induction x as [| c t IH]; intros H cur rest.
  - cbn [append JS.split_char_from]. rewrite Ascii.eqb_refl, append_nil_r.
    reflexivity.
  - cbn [all_chars] in H. apply andb_true_iff in H. destruct H as [Hc Ht].
    apply negb_true_iff in Hc.
    cbn [append JS.split_char_from]. rewrite Hc, (IH Ht), append_assoc.
    reflexivity.
Qed.

Lemma split_char_from_whole (sep : ascii) (x : string) :
  all_chars (fun c => negb (Ascii.eqb c sep)) x = true ->
  forall cur, JS.split_char_from sep cur x = [cur ++ x].
Proof.
  induction x as [| c t IH]; intros H cur.
  - cbn [JS.split_char_from]. now rewrite append_nil_r.
  - cbn [all_chars] in H. apply andb_true_iff in H. destruct H as [Hc Ht].
    apply negb_true_iff in Hc.
    cbn [JS.split_char_from]. rewrite Hc, (IH Ht), append_assoc.
    reflexivity.
Qed.

(** X20. [formatDate] on a text made of a word, a blank, a day number, a
    comma, a blank and a four-digit year: the word is replaced by the entry
    the table [months] has for it, the rest is kept; a word without entry
    (a full month name, say, or an abbreviation in lower case) leaves the
    text unchanged.  The own entries of the table are the twelve
    abbreviations, so that "Jan 7, 2025" becomes "January 7, 2025". *)
Theorem formatDate_month_table :
  forall w d y : string,
    w <> "" -> all_chars JS.is_word w = true ->
    d <> "" -> all_chars JS.is_digit d = true ->
    String.length y = 4%nat -> all_chars JS.is_digit y = true ->
    let text := w ++ " " ++ d ++ ", " ++ y in
    DateText.formatDate newDate long_date inherited (Some text)
    = match DateText.months_entry inherited w with
      | Some name => name ++ " " ++ d ++ ", " ++ y
      | None => text
      end
    /\ (forall name, DateText.full_month w = Some name ->
          DateText.formatDate newDate long_date inherited (Some text)
          = name ++ " " ++ d ++ ", " ++ y).
Proof.
  intros w d y Hw Hword Hd Hdigit Hlen Hyear text.
  assert (Htest : JS.test re_month_day_year text = true).
  { apply test_spec. exists "", text, "". split.
    - cbn [append]. now rewrite append_nil_r.
    - subst text. unfold re_month_day_year.
      constructor; [apply plus_class_language; assumption |].
      change (" " ++ d ++ ", " ++ y) with (" " ++ d ++ "," ++ " " ++ y).
      constructor; [apply plus_class_language; [discriminate | reflexivity] |].
      constructor; [apply plus_class_language; assumption |].
      constructor; [constructor; reflexivity |].
      constructor; [apply plus_class_language; [discriminate | reflexivity] |].
      apply four_digits_language; assumption. }
  assert (Hparts : JS.split_char " " text = [w; d ++ ","; y]).
  { subst text. unfold JS.split_char.
    change (w ++ " " ++ d ++ ", " ++ y)
      with (w ++ String " " (d ++ ", " ++ y)).
    rewrite split_char_from_piece.
    2:{ apply (all_chars_weaken JS.is_word); [| exact Hword].
        intros c Hc. apply not_space_no_blank, (word_char_plain c Hc). }
    replace (d ++ ", " ++ y) with ((d ++ ",") ++ String " " y)
      by (now rewrite append_assoc).
    rewrite split_char_from_piece.
    2:{ rewrite all_chars_append. cbn [all_chars Ascii.eqb Bool.eqb negb andb].
        rewrite andb_true_r.
        apply (all_chars_weaken JS.is_digit); [| exact Hdigit].
        intros c Hc. apply not_space_no_blank, (digit_char_plain c Hc). }
    rewrite split_char_from_whole.
    2:{ apply (all_chars_weaken JS.is_digit); [| exact Hyear].
        intros c Hc. apply not_space_no_blank, (digit_char_plain c Hc). }
    reflexivity. }
  assert (Hne : String.eqb text "" = false).
  { apply String.eqb_neq. subst text. intros E.
    apply append_eq_nil in E. destruct E as [E _]. contradiction. }
  assert (Hrun : DateText.formatDate newDate long_date inherited (Some text)
                 = match DateText.months_entry inherited w with
                   | Some name => name ++ " " ++ d ++ ", " ++ y
                   | None => text
                   end).
  { unfold DateText.formatDate. rewrite Hne, Htest, Hparts.
    destruct (DateText.months_entry inherited w) as [name |]; [| reflexivity].
    rewrite (append_assoc d). reflexivity. }
  split; [exact Hrun |].
  intros name Hname. rewrite Hrun. unfold DateText.months_entry.
  rewrite Hname. reflexivity.
Qed.

(** X21. The date shown with a scraped post, when [formatDate] is the
    function above: it is the engine's long form of the normalised date when
    the engine reads that date, the normalised date itself when it does not,
    the raw text of the span when no date was derived from it, and empty
    when there is no such text.  The table of month names never contributes:
    a normalised date holds no white space, and a text that matches the
    date expression always gets a normalised date. *)
Theorem formattedDate_of_scraped :
  forall items : list ListItem,
    Forall
      (fun p =>
         formattedDate p
         = match date p with
           | Some d =>
               match newDate d with
               | Some o => long_date o
               | None => d
               end
           | None =>
               match rawDate p with
               | Some raw => raw
               | None => ""
               end
           end
         /\ (forall raw, rawDate p = Some raw ->
               JS.test re_month_day_year raw = true -> date p <> None))
      (scrape newDate (DateText.formatDate newDate long_date inherited) items).
Proof.
  intros items.
  destruct (scrape_shape newDate
              (DateText.formatDate newDate long_date inherited) items)
    as [Hshape _].
  apply Forall_forall. intros p Hin.
  rewrite Forall_forall in Hshape. specialize (Hshape p Hin).
  destruct Hshape as (_ & _ & _ & _ & _ & Hdate & Hshown & _).
  split.
  - rewrite Hshown. destruct (date p) as [d |] eqn:Hd.
    + symmetry in Hdate. apply parseDateString_spaceless in Hdate.
      destruct Hdate as [Hne Hspaceless].
      apply String.eqb_neq in Hne.
      unfold JS.or_else, JS.truthy. rewrite Hne. cbn [negb].
      unfold DateText.formatDate.
      rewrite Hne, (spaceless_no_date d Hspaceless). reflexivity.
    + unfold JS.or_else, JS.truthy.
      destruct (rawDate p) as [raw |]; [| reflexivity].
      symmetry in Hdate.
      pose proof (parseDateString_none_no_date raw Hdate) as Htest.
      unfold DateText.formatDate. rewrite Htest.
      destruct (String.eqb_spec raw "") as [-> | Hraw]; [reflexivity |].
      unfold parseDateString in Hdate.
      apply String.eqb_neq in Hraw. rewrite Hraw in Hdate.
      destruct (newDate raw); [discriminate Hdate | reflexivity].
  - intros raw Hraw Htest Hnone. rewrite Hraw, Hnone in Hdate.
    symmetry in Hdate.
    rewrite (parseDateString_none_no_date raw Hdate) in Htest.
    discriminate Htest.
Qed.

End DateTextFacts.

Example formatDate_january :
  forall newDate long_date inherited,
    DateText.formatDate newDate long_date inherited (Some "Jan 7, 2025")
    = "January 7, 2025".
Proof. reflexivity. Qed.

(** Two blanks after the month make an empty second piece: the year is
    lost. *)
Example formatDate_two_blanks :
  forall newDate long_date inherited,
    DateText.formatDate newDate long_date inherited (Some "Jan  7, 2025")
    = "January  7,".
Proof. reflexivity. Qed.

Lemma formatDate_month_table_witness :
  DateText.formatDate strict_engine (fun _ => "") (fun _ => None)
                      (Some ("Sep" ++ " " ++ "12" ++ ", " ++ "2024"))
  = "September" ++ " " ++ "12" ++ ", " ++ "2024".
Proof.
  exact (proj2 (formatDate_month_table strict_engine (fun _ => "")
                  (fun _ => None) "Sep" "12" "2024"
                  ltac:(discriminate) eq_refl ltac:(discriminate) eq_refl
                  eq_refl eq_refl)
               "September" eq_refl).
Defined.

(* ===================================================================== *)
(** ** The lines of a front matter *)
(* ===================================================================== *)

Section FrontMatterFacts.

Import FrontMatter.

Local Open Scope string_scope.

Lemma indexOf_append (c : ascii) (k rest : string) :
  indexOf c k = None ->
  indexOf c (k ++ String c rest) = Some (String.length k).
Proof.
  induction k as [| x t IH]; intros H; cbn [append indexOf String.length].
  - now rewrite Ascii.eqb_refl.
  - cbn [indexOf] in H. destruct (Ascii.eqb x c); [discriminate H |].
    destruct (indexOf c t); [discriminate H |].
    rewrite (IH eq_refl). reflexivity.
Qed.

Lemma take_append (k rest : string) :
  JS.take (String.length k) (k ++ rest) = k.
Proof.
  unfold JS.take. induction k as [| x t IH]; cbn [append String.length].
  - destruct rest; reflexivity.
  - cbn [substring]. now rewrite IH.
Qed.

Lemma drop_past (k : string) (c : ascii) (rest : string) :
  JS.drop (String.length k + 1) (k ++ String c rest) = rest.
Proof.
  induction k as [| x t IH]; [reflexivity |].
  cbn [append String.length Nat.add JS.drop]. exact IH.
Qed.

Lemma trimEnd_ends_plain (body : string) (q : ascii) :
  JS.is_space q = false ->
  JS.trimEnd (body ++ String q "") = body ++ String q "".
Proof.
  intros Hq. induction body as [| x t IH]; cbn [append JS.trimEnd].
  - rewrite Hq. reflexivity.
  - rewrite IH.
    destruct (String.eqb_spec (t ++ String q "") "") as [E | _].
    + apply append_eq_nil in E. destruct E as [_ E]. discriminate E.
    + rewrite andb_false_r. reflexivity.
Qed.

Lemma trim_quoted (q : ascii) (body : string) :
  JS.is_space q = false ->
  JS.trim (String q (body ++ String q "")) = String q (body ++ String q "").
Proof.
  intros Hq. unfold JS.trim. cbn [JS.trimStart]. rewrite Hq.
  apply (trimEnd_ends_plain (String q body) q Hq).
Qed.

Lemma quoted_with_quotes (q : ascii) (body : string) :
  quoted_with (String q "") (String q (body ++ String q "")) = true.
Proof.
  unfold quoted_with. apply andb_true_iff. split.
  - unfold JS.startsWith. cbn [prefix].
    destruct (ascii_dec q q) as [_ | Hne];
      [destruct (body ++ String q ""); reflexivity |].
    contradiction Hne; reflexivity.
  - unfold JS.endsWith.
    change (String q (body ++ String q "")) with (String q body ++ String q "").
    rewrite length_append.
    replace (String.length (String q body) + String.length (String q "")
             - String.length (String q ""))%nat
      with (String.length (String q body)) by lia.
    rewrite drop_append, String.eqb_refl, andb_true_r.
    apply Nat.leb_le. lia.
Qed.

Lemma slice_quoted (q : ascii) (body : string) :
  slice_1_minus_1 (String q (body ++ String q "")) = body.
Proof.
  unfold slice_1_minus_1. cbn [String.length JS.drop].
  replace (S (String.length (body ++ String q "")) - 2)%nat
    with (String.length body)
    by (rewrite length_append; cbn [String.length]; lia).
  apply take_append.
Qed.

(** The entry of a line [key: value'], for a value already trimmed. *)
Lemma entry_of_key_value (k value : string) :
  k <> "" -> indexOf ":" k = None -> JS.trim k = k ->
  JS.trim value = value ->
  entry_of_line (k ++ ": " ++ value)
  = if String.eqb k "__proto__" then None
    else Some (k, if quoted_with Blog.dq value || quoted_with "'" value
                  then slice_1_minus_1 value else value).
Proof.
  intros Hne Hcolon Hk Hvalue.
  unfold entry_of_line.
  change (k ++ ": " ++ value) with (k ++ String ":" (String " " value)).
  rewrite (indexOf_append ":" k _ Hcolon).
  assert (Hpos : (0 <? String.length k)%nat = true).
  { apply Nat.ltb_lt. destruct k; [contradiction Hne; reflexivity | cbn; lia]. }
  rewrite Hpos, take_append, drop_past, Hk.
  change (JS.trim (String " " value)) with (JS.trim value).
  rewrite Hvalue. reflexivity.
Qed.

(** X22. The line parser of [parseFrontMatter] reads back what a writer
    puts, for every key but [__proto__]: for a key that is not empty, holds
    no colon, has no white space at its ends and is not [__proto__], the
    line [key: value] gives the entry (key, value) when the value has no
    white space at its ends and is not wrapped in quotes; the lines
    [key: "text"] and [key: 'text'] give (key, text), whatever the text;
    and a value that is one quote character alone gives the empty text,
    that character being taken for both quotes.  A line with the key
    [__proto__] adds no entry, whatever its value; nor does a line without
    colon, or with nothing before its first colon. *)
Theorem entry_of_line_reads_back :
  forall k : string,
    k <> "" -> indexOf ":" k = None -> JS.trim k = k ->
    k <> "__proto__" ->
    (forall v, JS.trim v = v ->
       quoted_with Blog.dq v = false -> quoted_with "'" v = false ->
       entry_of_line (k ++ ": " ++ v) = Some (k, v))
    /\ (forall text,
          entry_of_line (k ++ ": " ++ Blog.dq ++ text ++ Blog.dq)
          = Some (k, text)
          /\ entry_of_line (k ++ ": " ++ "'" ++ text ++ "'") = Some (k, text))
    /\ entry_of_line (k ++ ": " ++ Blog.dq) = Some (k, "")
    /\ (forall v, JS.trim v = v ->
          entry_of_line ("__proto__" ++ ": " ++ v) = None)
    /\ (forall line, indexOf ":" line = None -> entry_of_line line = None)
    /\ (forall rest, entry_of_line (":" ++ rest) = None).
Proof.
  intros k Hne Hcolon Hk Hproto.
  apply String.eqb_neq in Hproto.
  split; [| split; [| split; [| split; [| split]]]].
  - intros v Hv Hdq Hsq.
    rewrite (entry_of_key_value k v Hne Hcolon Hk Hv), Hproto, Hdq, Hsq.
    reflexivity.
  - intros text. split.
    + change (Blog.dq ++ text ++ Blog.dq)
        with (String (ascii_of_nat 34) (text ++ String (ascii_of_nat 34) "")).
      rewrite (entry_of_key_value k _ Hne Hcolon Hk
                 (trim_quoted (ascii_of_nat 34) text eq_refl)), Hproto.
      change Blog.dq with (String (ascii_of_nat 34) "").
      rewrite quoted_with_quotes, slice_quoted. reflexivity.
    + change ("'" ++ text ++ "'") with (String "'" (text ++ String "'" "")).
      rewrite (entry_of_key_value k _ Hne Hcolon Hk
                 (trim_quoted "'" text eq_refl)), Hproto.
      rewrite (quoted_with_quotes "'" text), orb_true_r, slice_quoted.
      reflexivity.
  - rewrite (entry_of_key_value k Blog.dq Hne Hcolon Hk eq_refl), Hproto.
    reflexivity.
  - intros v Hv.
    rewrite (entry_of_key_value "__proto__" v ltac:(discriminate) eq_refl
               eq_refl Hv).
    reflexivity.
  - intros line Hline. unfold entry_of_line. rewrite Hline. reflexivity.
  - intros rest. reflexivity.
Qed.

End FrontMatterFacts.

Lemma entry_of_line_reads_back_witness :
  FrontMatter.entry_of_line ("title" ++ ": " ++ Blog.dq ++ "Hello: world" ++ Blog.dq)
  = Some ("title", "Hello: world").
Proof.
  exact (proj1 (proj1 (proj2 (entry_of_line_reads_back "title"
                                ltac:(discriminate) eq_refl eq_refl
                                ltac:(discriminate)))
                      "Hello: world")).
Defined.
